(** * GPUQT model construction: a shallow embedding of [model.cu] and
    [model_lattice.cu], and the properties of the tight-binding model they build.

    Conventions of the embedding.
    - A C++ [int] is a [Z]; the development covers the runs in which no
      signed arithmetic overflows.  [%] is [Z.rem] (truncated division).
    - [real] (a build-time [float] or [double]) is an abstract type with the
      operations the code applies to it, see [Real].  Statements about stored
      real values are equalities of the expressions the code evaluates, so they
      hold for every interpretation of the operations.
    - A heap array is a [list]; every subscript is checked, and a subscript
      outside the array ends the run with [OutOfBounds].  [exit(1)] ends it
      with [ConfigError].
    - The content of [new T[n]] is indeterminate in C++; it is [uninit_int]
      or [uninit_real] here, two values nothing is known about.
    - The process-wide [std::mt19937] is a state of type [generator] threaded
      through every function that draws from it. *)

From Stdlib Require Import ZArith QArith Qabs Lia.
From stdpp Require Import base tactics option list list_numbers strings.

Local Open Scope Z_scope.

(** ** Outcomes of a run *)

Inductive fault : Type :=
| ConfigError                       (* a fatal check followed by exit(1) *)
| InputError                        (* lattice.in ends before the data does *)
| OutOfBounds (i : Z) (len : nat).  (* subscript i on an array of len cells *)

Inductive result (A : Type) : Type :=
| Ok (a : A)
| Fault (f : fault).
Arguments Ok {A} a.
Arguments Fault {A} f.

Definition result_bind {A B} (f : A -> result B) (r : result A) : result B :=
  match r with
  | Ok a => f a
  | Fault e => Fault e
  end.

#[global] Instance result_mbind : MBind result := @result_bind.
#[global] Instance result_mret : MRet result := @Ok.

(** ** Arrays *)

Definition get {A} (a : list A) (i : Z) : result A :=
  if decide (0 <= i)
  then match a !! Z.to_nat i with
       | Some v => Ok v
       | None => Fault (OutOfBounds i (length a))
       end
  else Fault (OutOfBounds i (length a)).

Definition set {A} (a : list A) (i : Z) (v : A) : result (list A) :=
  if decide (0 <= i < Z.of_nat (length a))
  then Ok (<[Z.to_nat i := v]> a)
  else Fault (OutOfBounds i (length a)).

Definition new_array {A} (content : A) (n : Z) : list A :=
  replicate (Z.to_nat n) content.

(** ** Counted loops

    [for_loop count i step body s] runs [body i], [body (i + step)], ... for
    [count] iterations.  [for_range lo hi] is
    [for (int i = lo; i < hi; ++i)]: the body changes neither [i] nor [hi], so
    the loop makes exactly [max 0 (hi - lo)] iterations. *)

Fixpoint for_loop {S} (count : nat) (i step : Z)
    (body : Z -> S -> result S) (s : S) : result S :=
  match count with
  | O => Ok s
  | Datatypes.S count' => s' ← body i s; for_loop count' (i + step) step body s'
  end.

Definition for_range {S} (lo hi : Z) (body : Z -> S -> result S) (s : S)
    : result S :=
  for_loop (Z.to_nat (hi - lo)) lo 1 body s.

Definition INT_MAX : Z := 2147483647.

(** ** The platform: real arithmetic, the random engine, fresh storage *)

Class Real : Type := {
  real : Type;
  r_of_int : Z -> real;             (* conversion int -> real *)
  r_to_int : real -> Z;             (* conversion real -> int: truncation *)
  r_zero : real;                    (* 0.0 *)
  r_half : real;                    (* 0.5 *)
  r_two_pi : real;                  (* 2 * PI *)
  r_add : real -> real -> real;
  r_sub : real -> real -> real;
  r_mul : real -> real -> real;
  r_div : real -> real -> real;
  r_neg : real -> real;
  r_abs : real -> real;             (* fabs *)
  r_ltb : real -> real -> bool;     (* a < b *)
  r_leb : real -> real -> bool;     (* a <= b *)
  r_exp : real -> real;
  r_cos : real -> real;
  r_sin : real -> real;
}.

Class Machine `{Real} : Type := {
  generator : Type;
  (* one draw of std::uniform_int_distribution<int>(0, INT_MAX) *)
  rand_int : generator -> Z * generator;
  (* one draw of std::uniform_real_distribution<real>(a, b) *)
  rand_real : real -> real -> generator -> real * generator;
  uninit_int : Z;
  uninit_real : real;
}.

(** The distribution's contract: a draw lies in [[0, INT_MAX]]. *)
Class MachineLaws `{Machine} : Prop :=
  rand_int_range : forall g, 0 <= (rand_int g).1 <= INT_MAX.

Section Lattice.
Context `{Machine}.

(** ** model_lattice.cu: create_random_numbers *)

Definition create_random_numbers (max_value total_number : Z)
    (random_numbers : list Z) (g : generator) : result (list Z * generator) :=
  let permuted_numbers := new_array uninit_int max_value in
  permuted_numbers ← for_range 0 max_value
    (fun i p => set p i i) permuted_numbers;
  '(permuted_numbers, g) ← for_range 0 max_value
    (fun i '(p, g) =>
       let '(r, g) := rand_int g in
       let j := Z.rem r (max_value - i) + i in
       temp ← get p i;
       pj ← get p j;
       p ← set p i pj;
       p ← set p j temp;
       Ok (p, g))
    (permuted_numbers, g);
  random_numbers ← for_range 0 total_number
    (fun i out => v ← get permuted_numbers i; set out i v) random_numbers;
  Ok (random_numbers, g).

(** ** model_lattice.cu: specify_vacancies *)

Definition specify_vacancies (number_of_vacancies : Z) (is_vacancy : list Z)
    (number_of_atoms_pristine : Z) (g : generator)
    : result (list Z * generator) :=
  let vacancy_indices := new_array uninit_int number_of_vacancies in
  '(vacancy_indices, g) ← create_random_numbers
    number_of_atoms_pristine number_of_vacancies vacancy_indices g;
  is_vacancy ← for_range 0 number_of_atoms_pristine
    (fun n a => set a n 0) is_vacancy;
  is_vacancy ← for_range 0 number_of_vacancies
    (fun n a => v ← get vacancy_indices n; set a v 1) is_vacancy;
  Ok (is_vacancy, g).

(** ** model_lattice.cu: find_new_atom_index *)

Definition find_new_atom_index (is_vacancy new_atom_index : list Z)
    (number_of_atoms_pristine : Z) : result (list Z) :=
  '(_, new_atom_index) ← for_range 0 number_of_atoms_pristine
    (fun n '(count, a) =>
       v ← get is_vacancy n;
       if decide (v = 0)
       then a ← set a n count; Ok (count + 1, a)
       else Ok (count, a))
    (0, new_atom_index);
  Ok new_atom_index.

(** ** The members of [Model] the functions below read and write *)

Record Model : Type := {
  number_of_atoms : Z;
  max_neighbor : Z;
  number_of_pairs : Z;
  neighbor_number : list Z;
  neighbor_list : list Z;
  hopping_real : list real;
  hopping_imag : list real;
  xx : list real;
  potential : list real;
  x : list real;
  y : list real;
  z : list real;
  pbc : list Z;
  box_length : list real;
  volume : real;
}.

(** The members set from para.in. *)
Record Parameters : Type := {
  use_lattice_model : bool;
  has_anderson_disorder : bool;
  anderson_disorder_strength : real;
  has_charged_impurities : bool;
  number_of_charged_impurities : Z;
  charged_impurity_strength : real;
  charged_impurity_range : real;
  has_vacancy_disorder : bool;
  number_of_vacancies : Z;
  calculate_vac : bool;
  calculate_msd : bool;
  calculate_spin : bool;
  requires_time : bool;
  number_of_random_vectors : Z;
  number_of_moments : Z;
  energy_max : real;
}.

(** ** model_lattice.cu: add_vacancies *)

(** The four per-pair arrays, in the order
    [neighbor_list], [hopping_real], [hopping_imag], [xx]. *)
Definition pair_arrays : Type :=
  (list Z * list real * list real * list real)%type.

(** Lines 164-177: the surviving hops of pristine atom [n] are written to the
    row of atom [count_atom]. *)
Definition copy_surviving_hops (max_neighbor : Z)
    (neighbor_number_pristine neighbor_list_pristine : list Z)
    (hopping_real_pristine hopping_imag_pristine xx_pristine : list real)
    (is_vacancy new_atom_index : list Z) (n count_atom : Z)
    (arrays : pair_arrays) : result (Z * pair_arrays) :=
  nn ← get neighbor_number_pristine n;
  for_range 0 nn
    (fun m '(count_neighbor, (nl, hr, hi, xs)) =>
       let index_old := n * max_neighbor + m in
       k ← get neighbor_list_pristine index_old;
       vk ← get is_vacancy k;
       if decide (vk = 0)
       then
         let index_new := count_atom * max_neighbor + count_neighbor in
         nk ← get new_atom_index k;
         nl ← set nl index_new nk;
         re ← get hopping_real_pristine index_old;
         hr ← set hr index_new re;
         im ← get hopping_imag_pristine index_old;
         hi ← set hi index_new im;
         x12 ← get xx_pristine index_old;
         xs ← set xs index_new x12;
         Ok (count_neighbor + 1, (nl, hr, hi, xs))
       else Ok (count_neighbor, (nl, hr, hi, xs)))
    (0, arrays).

Definition add_vacancies (number_of_vacancies : Z) (model : Model)
    (g : generator) : result (Model * generator) :=
  (* copy some data *)
  let neighbor_number_pristine :=
    new_array uninit_int (number_of_atoms model) in
  let neighbor_list_pristine :=
    new_array uninit_int (number_of_pairs model) in
  let hopping_real_pristine :=
    new_array uninit_real (number_of_pairs model) in
  let hopping_imag_pristine :=
    new_array uninit_real (number_of_pairs model) in
  let xx_pristine := new_array uninit_real (number_of_pairs model) in
  neighbor_number_pristine ← for_range 0 (number_of_atoms model)
    (fun n a => v ← get (neighbor_number model) n; set a n v)
    neighbor_number_pristine;
  '(neighbor_list_pristine, hopping_real_pristine,
    hopping_imag_pristine, xx_pristine) ←
    for_range 0 (number_of_pairs model)
      (fun m '(nl, hr, hi, xs) =>
         v ← get (neighbor_list model) m; nl ← set nl m v;
         v ← get (hopping_real model) m; hr ← set hr m v;
         v ← get (hopping_imag model) m; hi ← set hi m v;
         v ← get (xx model) m; xs ← set xs m v;
         Ok (nl, hr, hi, xs))
      (neighbor_list_pristine, hopping_real_pristine,
       hopping_imag_pristine, xx_pristine);
  (* change parameters *)
  let number_of_atoms_pristine := number_of_atoms model in
  let number_of_atoms' := number_of_atoms_pristine - number_of_vacancies in
  let number_of_pairs' := number_of_atoms' * max_neighbor model in
  (* allocate new memory *)
  let neighbor_number' := new_array uninit_int number_of_atoms' in
  let neighbor_list' := new_array uninit_int number_of_pairs' in
  let hopping_real' := new_array uninit_real number_of_pairs' in
  let hopping_imag' := new_array uninit_real number_of_pairs' in
  let xx' := new_array uninit_real number_of_pairs' in
  (* specify the distribution of the vacancies *)
  let is_vacancy := new_array uninit_int number_of_atoms_pristine in
  '(is_vacancy, g) ← specify_vacancies
    number_of_vacancies is_vacancy number_of_atoms_pristine g;
  (* find the new indices of the atoms *)
  let new_atom_index := new_array uninit_int number_of_atoms_pristine in
  new_atom_index ← find_new_atom_index
    is_vacancy new_atom_index number_of_atoms_pristine;
  (* get the new neighbor structure and related data *)
  '(_, neighbor_number', arrays) ← for_range 0 number_of_atoms_pristine
    (fun n '(count_atom, nn, arrays) =>
       v ← get is_vacancy n;
       if decide (v = 0)
       then
         '(count_neighbor, arrays) ← copy_surviving_hops
           (max_neighbor model)
           neighbor_number_pristine neighbor_list_pristine
           hopping_real_pristine hopping_imag_pristine xx_pristine
           is_vacancy new_atom_index n count_atom arrays;
         nn ← set nn count_atom count_neighbor;
         Ok (count_atom + 1, nn, arrays)
       else Ok (count_atom, nn, arrays))
    (0, neighbor_number',
     (neighbor_list', hopping_real', hopping_imag', xx'));
  let '(neighbor_list', hopping_real', hopping_imag', xx') := arrays in
  Ok ({| number_of_atoms := number_of_atoms';
         max_neighbor := max_neighbor model;
         number_of_pairs := number_of_pairs';
         neighbor_number := neighbor_number';
         neighbor_list := neighbor_list';
         hopping_real := hopping_real';
         hopping_imag := hopping_imag';
         xx := xx';
         potential := potential model;
         x := x model; y := y model; z := z model;
         pbc := pbc model;
         box_length := box_length model;
         volume := volume model |}, g).

Definition set_potential (model : Model) (potential' : list real) : Model :=
  {| number_of_atoms := number_of_atoms model;
     max_neighbor := max_neighbor model;
     number_of_pairs := number_of_pairs model;
     neighbor_number := neighbor_number model;
     neighbor_list := neighbor_list model;
     hopping_real := hopping_real model;
     hopping_imag := hopping_imag model;
     xx := xx model;
     potential := potential';
     x := x model; y := y model; z := z model;
     pbc := pbc model;
     box_length := box_length model;
     volume := volume model |}.

(** ** model_lattice.cu: add_anderson_disorder *)

Definition add_anderson_disorder (anderson_disorder_strength : real)
    (model : Model) (g : generator) : result (Model * generator) :=
  let W2 := r_mul anderson_disorder_strength r_half in
  '(potential', g) ← for_range 0 (number_of_atoms model)
    (fun n '(potential, g) =>
       let '(v, g) := rand_real (r_neg W2) W2 g in
       potential ← set potential n v;
       Ok (potential, g))
    (potential model, g);
  Ok (set_potential model potential', g).

(** ** model_lattice.cu: add_charged_impurities *)

(** Lines 234-239: one turn of the loop over the axes. *)
Definition add_axis (pbc : list Z) (box_length box_length_half : list real)
    (d : Z) (st : list real * real) : result (list real * real) :=
  let '(r12, d12_square) := st in
  r ← get r12 d;
  r12 ← set r12 d (r_abs r);
  p ← get pbc d;
  wrap ← (if decide (p = 1)
          then r ← get r12 d; h ← get box_length_half d; Ok (r_ltb h r)
          else Ok false);
  r12 ← (if wrap : bool
         then b ← get box_length d; r ← get r12 d;
              set r12 d (r_sub b r)
         else Ok r12);
  r ← get r12 d;
  Ok (r12, r_add d12_square (r_mul r r)).

(** Lines 227-240: the squared distance of the atom [n2] from the position
    [(x1, y1, z1)]. *)
Definition pair_distance_square (x y z : list real) (pbc : list Z)
    (box_length box_length_half : list real) (x1 y1 z1 : real) (n2 : Z)
    : result real :=
  let r12 := new_array uninit_real 3 in
  x2 ← get x n2; r12 ← set r12 0 (r_sub x2 x1);
  y2 ← get y n2; r12 ← set r12 1 (r_sub y2 y1);
  z2 ← get z n2; r12 ← set r12 2 (r_sub z2 z1);
  '(_, d12_square) ← for_range 0 3
    (add_axis pbc box_length box_length_half) (r12, r_zero);
  Ok d12_square.

Definition add_charged_impurities (number_of_charged_impurities : Z)
    (charged_impurity_strength charged_impurity_range : real)
    (model : Model) (g : generator) : result (Model * generator) :=
  let charged_impurity_range_square :=
    r_mul charged_impurity_range charged_impurity_range in
  let box_length_half := new_array uninit_real 3 in
  box_length_half ← for_range 0 3
    (fun d a => b ← get (box_length model) d; set a d (r_mul b r_half))
    box_length_half;
  let impurity_indices := new_array uninit_int number_of_charged_impurities in
  let impurity_strength :=
    new_array uninit_real number_of_charged_impurities in
  '(impurity_indices, g) ← create_random_numbers
    (number_of_atoms model) number_of_charged_impurities impurity_indices g;
  let W2 := r_mul charged_impurity_strength r_half in
  '(impurity_strength, g) ← for_range 0 number_of_charged_impurities
    (fun i '(a, g) =>
       let '(v, g) := rand_real (r_neg W2) W2 g in
       a ← set a i v;
       Ok (a, g))
    (impurity_strength, g);
  potential' ← for_range 0 (number_of_atoms model)
    (fun n1 potential =>
       potential ← set potential n1 r_zero;
       x1 ← get (x model) n1;
       y1 ← get (y model) n1;
       z1 ← get (z model) n1;
       for_range 0 number_of_charged_impurities
         (fun i potential =>
            n2 ← get impurity_indices i;
            d12_square ← pair_distance_square
              (x model) (y model) (z model) (pbc model)
              (box_length model) box_length_half x1 y1 z1 n2;
            let d12_square :=
              r_div d12_square charged_impurity_range_square in
            s ← get impurity_strength i;
            v ← get potential n1;
            set potential n1
              (r_add v (r_mul s (r_exp (r_mul (r_neg d12_square) r_half)))))
         potential)
    (potential model);
  Ok (set_potential model potential', g).

(** ** model_lattice.cu: find_index *)

Definition find_index (nx ny nz Nx Ny Nz m N_orbital : Z) : Z :=
  let nx := if decide (nx < 0) then nx + Nx else nx in
  let nx := if decide (nx >= Nx) then nx - Nx else nx in
  let ny := if decide (ny < 0) then ny + Ny else ny in
  let ny := if decide (ny >= Ny) then ny - Ny else ny in
  let nz := if decide (nz < 0) then nz + Nz else nz in
  let nz := if decide (nz >= Nz) then nz - Nz else nz in
  ((nx * Ny + ny) * Nz + nz) * N_orbital + m.

(** ** model_lattice.cu: initialize_lattice_model *)

(** One entry of a hopping list of lattice.in:
    [nx ny nz m_neighbor hopping_real hopping_imag]. *)
Record Hopping : Type := {
  hop_nx : Z;
  hop_ny : Z;
  hop_nz : Z;
  hop_m_neighbor : Z;
  hop_real : real;
  hop_imag : real;
}.

(** The numbers of lattice.in in the order [operator>>] extracts them; the
    hopping list of an orbital stands for its length [number_of_hoppings[m]]
    followed by its entries. *)
Record LatticeFile : Type := {
  file_N_cell : Z * Z * Z;
  file_pbc : Z * Z * Z;
  file_transport_direction : Z;
  file_lattice_constant : real * real * real;
  file_N_orbital : Z;
  file_max_neighbor : Z;
  file_cell : list (real * real * real);
  file_hoppings : list (list Hopping);
}.

Definition input_item {A} (l : list A) (i : Z) : result A :=
  match l !! Z.to_nat i with
  | Some v => Ok v
  | None => Fault InputError
  end.

(** [if (b) { ...; exit(1); }] *)
Definition fatal_if (b : bool) : result unit :=
  if b then Fault ConfigError else Ok tt.

Definition get2 {A} (a : list (list A)) (r c : Z) : result A :=
  row ← get a r; get row c.

Definition set2 {A} (a : list (list A)) (r c : Z) (v : A)
    : result (list (list A)) :=
  row ← get a r; row ← set row c v; set a r row.

(** Lines 468-494: the hopping lists are stored in [hopping_data], a
    [std::vector<std::vector<int>>] of six rows. *)
Definition read_hoppings (N_orbital max_neighbor : Z)
    (hoppings : list (list Hopping)) : result (list Z * list (list Z)) :=
  let number_of_hoppings_per_cell := N_orbital * max_neighbor in
  let hopping_data :=
    replicate 6 (new_array 0 number_of_hoppings_per_cell) in
  let number_of_hoppings := new_array 0 N_orbital in
  for_range 0 N_orbital
    (fun m '(number_of_hoppings, hopping_data) =>
       entries ← input_item hoppings m;
       number_of_hoppings ←
         set number_of_hoppings m (Z.of_nat (length entries));
       count ← get number_of_hoppings m;
       hopping_data ← for_range 0 count
         (fun n hd =>
            e ← input_item entries n;
            hd ← set2 hd 0 (m * max_neighbor + n) (hop_nx e);
            hd ← set2 hd 1 (m * max_neighbor + n) (hop_ny e);
            hd ← set2 hd 2 (m * max_neighbor + n) (hop_nz e);
            hd ← set2 hd 3 (m * max_neighbor + n) (hop_m_neighbor e);
            hd ← set2 hd 4 (m * max_neighbor + n) (r_to_int (hop_real e));
            set2 hd 5 (m * max_neighbor + n) (r_to_int (hop_imag e)))
         hopping_data;
       Ok (number_of_hoppings, hopping_data))
    (number_of_hoppings, hopping_data).

(** [!pbc[d] && (n2 < 0 || n2 >= N_cell[d])] *)
Definition skip_axis (pbc N_cell : list Z) (d n2 : Z) : result bool :=
  p ← get pbc d;
  if decide (p = 0)
  then if decide (n2 < 0)
       then Ok true
       else N ← get N_cell d; Ok (bool_decide (n2 >= N))
  else Ok false.

(** Lines 518-547: the hops of orbital [m] of the cell [(nx1, ny1, nz1)],
    whose atom is [n1]. *)
Definition emit_hops (pbc N_cell : list Z)
    (lattice_constant x_cell : list real)
    (transport_direction N_orbital max_neighbor : Z)
    (number_of_hoppings : list Z) (hopping_data : list (list Z))
    (nx1 ny1 nz1 m n1 : Z) (arrays : pair_arrays)
    : result (Z * pair_arrays) :=
  Nx ← get N_cell 0;
  Ny ← get N_cell 1;
  Nz ← get N_cell 2;
  count_m ← get number_of_hoppings m;
  for_range 0 count_m
    (fun i '(count, (nl, hr, hi, xs)) =>
       let neighbor_index := n1 * max_neighbor + count in
       let k := m * max_neighbor + i in
       dx ← get2 hopping_data 0 k;
       dy ← get2 hopping_data 1 k;
       dz ← get2 hopping_data 2 k;
       let nx2 := dx + nx1 in
       let ny2 := dy + ny1 in
       let nz2 := dz + nz1 in
       skip_x ← skip_axis pbc N_cell 0 nx2;
       skip_y ← skip_axis pbc N_cell 1 ny2;
       skip_z ← skip_axis pbc N_cell 2 nz2;
       if skip_x || skip_y || skip_z
       then Ok (count, (nl, hr, hi, xs))
       else
         m2 ← get2 hopping_data 3 k;
         nl ← set nl neighbor_index
           (find_index nx2 ny2 nz2 Nx Ny Nz m2 N_orbital);
         a ← get lattice_constant transport_direction;
         dt ← get2 hopping_data transport_direction k;
         let x12 := r_mul a (r_of_int dt) in
         m2 ← get2 hopping_data 3 k;
         xt ← get x_cell m2;
         xm ← get x_cell m;
         let x12 := r_add x12 (r_sub xt xm) in
         xs ← set xs neighbor_index x12;
         re ← get2 hopping_data 4 k;
         hr ← set hr neighbor_index (r_of_int re);
         im ← get2 hopping_data 5 k;
         hi ← set hi neighbor_index (r_of_int im);
         Ok (count + 1, (nl, hr, hi, xs)))
    (0, arrays).

(** The arrays the cell loops write: [neighbor_number], the per-pair arrays
    and the positions [x], [y], [z]. *)
Definition cell_state : Type :=
  (list Z * pair_arrays * (list real * list real * list real))%type.

(** Lines 504-548: one orbital of one cell. *)
Definition expand_orbital (has_charged_impurities : bool)
    (pbc N_cell : list Z) (lattice_constant x_cell y_cell z_cell : list real)
    (transport_direction N_orbital max_neighbor : Z)
    (number_of_hoppings : list Z) (hopping_data : list (list Z))
    (nx1 ny1 nz1 m : Z) (st : cell_state) : result cell_state :=
  let '(nn, arrays, (x, y, z)) := st in
  Nx ← get N_cell 0;
  Ny ← get N_cell 1;
  Nz ← get N_cell 2;
  let n1 := find_index nx1 ny1 nz1 Nx Ny Nz m N_orbital in
  '(x, y, z) ←
    (if has_charged_impurities
     then
       xm ← get x_cell m; a ← get lattice_constant 0;
       x ← set x n1 (r_add xm (r_mul a (r_of_int nx1)));
       ym ← get y_cell m; a ← get lattice_constant 1;
       y ← set y n1 (r_add ym (r_mul a (r_of_int ny1)));
       zm ← get z_cell m; a ← get lattice_constant 2;
       z ← set z n1 (r_add zm (r_mul a (r_of_int nz1)));
       Ok (x, y, z)
     else Ok (x, y, z));
  '(count, arrays) ← emit_hops pbc N_cell lattice_constant x_cell
    transport_direction N_orbital max_neighbor
    number_of_hoppings hopping_data nx1 ny1 nz1 m n1 arrays;
  nn ← set nn n1 count;
  Ok (nn, arrays, (x, y, z)).

(** Lines 496-552: the four nested loops over cells and orbitals. *)
Definition expand_cells (has_charged_impurities : bool)
    (pbc N_cell : list Z) (lattice_constant x_cell y_cell z_cell : list real)
    (transport_direction N_orbital max_neighbor : Z)
    (number_of_hoppings : list Z) (hopping_data : list (list Z))
    (st : cell_state) : result cell_state :=
  Nx ← get N_cell 0;
  for_range 0 Nx
    (fun nx1 st =>
       Ny ← get N_cell 1;
       for_range 0 Ny
         (fun ny1 st =>
            Nz ← get N_cell 2;
            for_range 0 Nz
              (fun nz1 st =>
                 for_range 0 N_orbital
                   (expand_orbital has_charged_impurities pbc N_cell
                      lattice_constant x_cell y_cell z_cell
                      transport_direction N_orbital max_neighbor
                      number_of_hoppings hopping_data nx1 ny1 nz1)
                   st)
              st)
         st)
    st.

(** Lines 271-552: lattice.in is read and checked, and the neighbor table
    of the pristine lattice is built. *)
Definition build_lattice_model (p : Parameters) (input : LatticeFile)
    : result Model :=
  let '(c0, c1, c2) := file_N_cell input in
  let N_cell := [c0; c1; c2] in
  fatal_if (bool_decide (c0 <= 0));;
  fatal_if (bool_decide (c1 <= 0));;
  fatal_if (bool_decide (c2 <= 0));;
  let '(p0, p1, p2) := file_pbc input in
  let pbc := [p0; p1; p2] in
  let transport_direction := file_transport_direction input in
  fatal_if (negb (bool_decide (p0 = 1) || bool_decide (p0 = 0)));;
  fatal_if (negb (bool_decide (p1 = 1) || bool_decide (p1 = 0)));;
  fatal_if (negb (bool_decide (p2 = 1) || bool_decide (p2 = 0)));;
  fatal_if (negb (bool_decide (transport_direction = 0)
                  || bool_decide (transport_direction = 1)
                  || bool_decide (transport_direction = 2)));;
  pt ← get pbc transport_direction;
  fatal_if (negb (bool_decide (pt = 1)));;
  let '(a0, a1, a2) := file_lattice_constant input in
  let lattice_constant := [a0; a1; a2] in
  fatal_if (r_leb a0 (r_of_int 0));;
  fatal_if (r_leb a1 (r_of_int 0));;
  fatal_if (r_leb a2 (r_of_int 0));;
  box_length ← for_range 0 3
    (fun d b =>
       a ← get lattice_constant d; N ← get N_cell d;
       set b d (r_mul a (r_of_int N)))
    (new_array uninit_real 3);
  b0 ← get box_length 0;
  b1 ← get box_length 1;
  b2 ← get box_length 2;
  let volume := r_mul (r_mul b0 b1) b2 in
  let N_orbital := file_N_orbital input in
  let max_neighbor := file_max_neighbor input in
  fatal_if (bool_decide (N_orbital <= 0));;
  fatal_if (bool_decide (max_neighbor <= 0));;
  let number_of_atoms := N_orbital * c0 * c1 * c2 in
  let number_of_pairs := number_of_atoms * max_neighbor in
  let neighbor_number := new_array uninit_int number_of_atoms in
  let neighbor_list := new_array uninit_int number_of_pairs in
  let hopping_real := new_array uninit_real number_of_pairs in
  let hopping_imag := new_array uninit_real number_of_pairs in
  let xx := new_array uninit_real number_of_pairs in
  potential ← for_range 0 number_of_atoms
    (fun n a => set a n r_zero) (new_array uninit_real number_of_atoms);
  (* currently, I only need the positions in this case *)
  let positions :=
    if has_charged_impurities p
    then (new_array r_zero number_of_atoms,
          new_array r_zero number_of_atoms,
          new_array r_zero number_of_atoms)
    else ([], [], []) in
  '(x_cell, y_cell, z_cell) ← for_range 0 N_orbital
    (fun n '(xc, yc, zc) =>
       '(cx, cy, cz) ← input_item (file_cell input) n;
       xc ← set xc n cx;
       yc ← set yc n cy;
       zc ← set zc n cz;
       Ok (xc, yc, zc))
    (new_array r_zero N_orbital, new_array r_zero N_orbital,
     new_array r_zero N_orbital);
  '(number_of_hoppings, hopping_data) ←
    read_hoppings N_orbital max_neighbor (file_hoppings input);
  '(neighbor_number, arrays, positions) ←
    expand_cells (has_charged_impurities p) pbc N_cell
      lattice_constant x_cell y_cell z_cell
      transport_direction N_orbital max_neighbor
      number_of_hoppings hopping_data
      (neighbor_number,
       (neighbor_list, hopping_real, hopping_imag, xx), positions);
  let '(neighbor_list, hopping_real, hopping_imag, xx) := arrays in
  let '(x, y, z) := positions in
  Ok {| number_of_atoms := number_of_atoms;
        max_neighbor := max_neighbor;
        number_of_pairs := number_of_pairs;
        neighbor_number := neighbor_number;
        neighbor_list := neighbor_list;
        hopping_real := hopping_real;
        hopping_imag := hopping_imag;
        xx := xx;
        potential := potential;
        x := x; y := y; z := z;
        pbc := pbc;
        box_length := box_length;
        volume := volume |}.

(** Lines 269-570: the pristine lattice, then the disorder that para.in asks
    for. *)
Definition initialize_lattice_model (p : Parameters) (input : LatticeFile)
    (g : generator) : result (Model * generator) :=
  model ← build_lattice_model p input;
  '(model, g) ←
    (if has_vacancy_disorder p
     then add_vacancies (number_of_vacancies p) model g
     else Ok (model, g));
  '(model, g) ←
    (if has_anderson_disorder p
     then add_anderson_disorder (anderson_disorder_strength p) model g
     else Ok (model, g));
  '(model, g) ←
    (if has_charged_impurities p
     then add_charged_impurities (number_of_charged_impurities p)
            (charged_impurity_strength p) (charged_impurity_range p) model g
     else Ok (model, g));
  Ok (model, g).

(** ** model.cu: initialize_state

    The two host arrays are returned; [copy_from_host] and the [Vector] it
    fills belong to the propagation engine. *)

Definition initialize_state (calculate_spin : bool) (number_of_atoms : Z)
    (g : generator) : result (list real * list real * generator) :=
  let phase := rand_real (r_of_int 0) r_two_pi in
  let random_state_real := new_array uninit_real number_of_atoms in
  let random_state_imag := new_array uninit_real number_of_atoms in
  if calculate_spin
  then
    (* for (int n = 0; n < number_of_atoms; n += 2) *)
    for_loop (Z.to_nat ((number_of_atoms + 1) / 2)) 0 2
      (fun n '(re, im, g) =>
         let '(random_phase, g) := phase g in
         re ← set re n (r_cos random_phase);
         im ← set im n (r_sin random_phase);
         re ← set re (n + 1) r_zero;
         im ← set im (n + 1) r_zero;
         Ok (re, im, g))
      (random_state_real, random_state_imag, g)
  else
    for_range 0 number_of_atoms
      (fun n '(re, im, g) =>
         let '(random_phase, g) := phase g in
         re ← set re n (r_cos random_phase);
         im ← set im n (r_sin random_phase);
         Ok (re, im, g))
      (random_state_real, random_state_imag, g).

(** ** model.cu: verify_parameters *)

Definition verify_parameters (p : Parameters) : result Parameters :=
  let requires_time' :=
    if calculate_vac p || calculate_msd p || calculate_spin p
    then true else requires_time p in
  (if use_lattice_model p
   then
     fatal_if (calculate_spin p);;
     (if has_vacancy_disorder p
      then fatal_if (bool_decide (number_of_vacancies p <= 0))
      else Ok tt)
   else
     fatal_if (has_anderson_disorder p);;
     fatal_if (has_vacancy_disorder p);;
     fatal_if (has_charged_impurities p));;
  fatal_if (calculate_spin p && calculate_vac p);;
  fatal_if (calculate_spin p && calculate_msd p);;
  fatal_if (bool_decide (number_of_random_vectors p <= 0));;
  fatal_if (bool_decide (number_of_moments p <= 0));;
  fatal_if (r_leb (energy_max p) (r_of_int 0));;
  Ok {| use_lattice_model := use_lattice_model p;
        has_anderson_disorder := has_anderson_disorder p;
        anderson_disorder_strength := anderson_disorder_strength p;
        has_charged_impurities := has_charged_impurities p;
        number_of_charged_impurities := number_of_charged_impurities p;
        charged_impurity_strength := charged_impurity_strength p;
        charged_impurity_range := charged_impurity_range p;
        has_vacancy_disorder := has_vacancy_disorder p;
        number_of_vacancies := number_of_vacancies p;
        calculate_vac := calculate_vac p;
        calculate_msd := calculate_msd p;
        calculate_spin := calculate_spin p;
        requires_time := requires_time';
        number_of_random_vectors := number_of_random_vectors p;
        number_of_moments := number_of_moments p;
        energy_max := energy_max p |}.

End Lattice.

(** ** The sampling algorithm in the words of the specification

    A forward shuffle: for [i] from 0 on, position [i] is swapped with the
    position [j] picked for it. *)

Definition swap (i j : nat) (p : list Z) : list Z :=
  match p !! i, p !! j with
  | Some a, Some b => <[j := a]> (<[i := b]> p)
  | _, _ => p
  end.

Fixpoint forward_shuffle (i : nat) (picks : list nat) (p : list Z) : list Z :=
  match picks with
  | [] => p
  | j :: picks => forward_shuffle (S i) picks (swap i j p)
  end.

(** The picks of a shuffle of [N] positions: the pick for position [i] lies
    in [[i, N)]. *)
Definition picks_in_range (N : nat) (picks : list nat) : Prop :=
  forall i j, picks !! i = Some j -> (i <= j < N)%nat.

(** ** Reading the neighbor table

    The slots of atom [n] start at [n * max_neighbor]; [row] is the list of
    the first [len] of them. *)

Definition row {A} (max_neighbor : Z) (a : list A) (n len : Z) : list A :=
  take (Z.to_nat len) (drop (Z.to_nat (n * max_neighbor)) a).

Section Table.
Context `{Real}.

Definition hop_count (m : Model) (n : Z) : Z :=
  neighbor_number m !!! Z.to_nat n.

(** The hops of atom [n]: the target of each, and the values stored with it. *)
Definition targets (m : Model) (n : Z) : list Z :=
  row (max_neighbor m) (neighbor_list m) n (hop_count m n).

Definition hop_values (m : Model) (a : list real) (n : Z) : list real :=
  row (max_neighbor m) a n (hop_count m n).

(** The invariant of the neighbor table: the arrays have the sizes they were
    allocated with, no atom has more than [max_neighbor] hops, and every hop
    leads to an atom. *)
Definition well_formed (m : Model) : Prop :=
  0 <= number_of_atoms m /\ 0 <= max_neighbor m
  /\ number_of_pairs m = number_of_atoms m * max_neighbor m
  /\ length (neighbor_number m) = Z.to_nat (number_of_atoms m)
  /\ length (neighbor_list m) = Z.to_nat (number_of_pairs m)
  /\ length (hopping_real m) = Z.to_nat (number_of_pairs m)
  /\ length (hopping_imag m) = Z.to_nat (number_of_pairs m)
  /\ length (xx m) = Z.to_nat (number_of_pairs m)
  /\ Forall (fun c => 0 <= c <= max_neighbor m) (neighbor_number m)
  /\ Forall (fun n => Forall (fun k => 0 <= k < number_of_atoms m)
                             (targets m n))
            (seqZ 0 (number_of_atoms m)).

#[global] Instance well_formed_dec (m : Model) : Decision (well_formed m).
Proof. unfold well_formed. apply _. Defined.

(** The four per-pair arrays have [len] cells each. *)
Definition arrays_length (a : pair_arrays) (len : nat) : Prop :=
  let '(nl, hr, hi, xs) := a in
  length nl = len /\ length hr = len /\ length hi = len /\ length xs = len.

(** Two states of the per-pair arrays agree on their first [len] cells. *)
Definition arrays_agree (a b : pair_arrays) (len : nat) : Prop :=
  let '(nl, hr, hi, xs) := a in
  let '(nl', hr', hi', xs') := b in
  take len nl = take len nl' /\ take len hr = take len hr'
  /\ take len hi = take len hi' /\ take len xs = take len xs'.

End Table.

(** Atom [k] is not marked as a vacancy. *)
Definition present (is_vacancy : list Z) (k : Z) : Prop :=
  0 <= k /\ is_vacancy !! Z.to_nat k = Some 0.

#[global] Instance present_dec (is_vacancy : list Z) (k : Z)
  : Decision (present is_vacancy k).
Proof. unfold present. apply _. Defined.

(** The values stored with the hops whose target is present, in the order of
    the table. *)
Definition surviving {A} (is_vacancy targets : list Z) (values : list A)
    : list A :=
  (filter (fun p => present is_vacancy p.1) (zip targets values)).*2.

(** The number of present atoms before atom [n]. *)
Definition present_below (is_vacancy : list Z) (n : nat) : nat :=
  length (filter (fun v => v = 0) (take n is_vacancy)).

(** The new index of the present atom [k]. *)
Definition new_index (is_vacancy : list Z) (k : Z) : Z :=
  Z.of_nat (present_below is_vacancy (Z.to_nat k)).

(** The row of the pristine atom [n], which has [c] hops, after the
    compaction: the hops whose target is present, in the order of the pristine
    row, under the new index of [n] and with the new indices of the targets. *)
Definition row_compacted `{Real} (mn : Z) (is_vacancy nl : list Z)
    (hr hi xs : list real) (nn' : list Z) (a' : pair_arrays) (n c : Z)
    : Prop :=
  let '(nl', hr', hi', xs') := a' in
  let a := new_index is_vacancy n in
  let T := row mn nl n c in
  let cn := Z.of_nat (length (filter (present is_vacancy) T)) in
  nn' !! Z.to_nat a = Some cn
  /\ row mn nl' a cn = new_index is_vacancy <$> filter (present is_vacancy) T
  /\ row mn hr' a cn = surviving is_vacancy T (row mn hr n c)
  /\ row mn hi' a cn = surviving is_vacancy T (row mn hi n c)
  /\ row mn xs' a cn = surviving is_vacancy T (row mn xs n c).

(** The same in terms of the two models. *)
Definition compacted_atom `{Real} (is_vacancy : list Z) (pristine m : Model)
    (n : Z) : Prop :=
  let a := new_index is_vacancy n in
  let T := targets pristine n in
  hop_count m a = Z.of_nat (length (filter (present is_vacancy) T))
  /\ targets m a = new_index is_vacancy <$> filter (present is_vacancy) T
  /\ hop_values m (hopping_real m) a
     = surviving is_vacancy T (hop_values pristine (hopping_real pristine) n)
  /\ hop_values m (hopping_imag m) a
     = surviving is_vacancy T (hop_values pristine (hopping_imag pristine) n)
  /\ hop_values m (xx m) a
     = surviving is_vacancy T (hop_values pristine (xx pristine) n).

(** The marks of [N] atoms when the atoms of [vacancies] are removed. *)
Definition marks (N : Z) (vacancies : list Z) : list Z :=
  (fun n => if decide (n ∈ vacancies) then 1 else 0) <$> seqZ 0 N.

(** ** The content of [hopping_data] *)

(** Row [r] of [hopping_data] holds the field [r] of the entries; the two
    amplitudes are converted to [int]. *)
Definition hop_field `{Real} (r : nat) (e : Hopping) : Z :=
  match r with
  | 0%nat => hop_nx e
  | 1%nat => hop_ny e
  | 2%nat => hop_nz e
  | 3%nat => hop_m_neighbor e
  | 4%nat => r_to_int (hop_real e)
  | _ => r_to_int (hop_imag e)
  end.

(** [hopping_data] has six rows of [P] cells, and the entry [i] of orbital [m]
    is in column [m * max_neighbor + i], for the entries picked by [filled]. *)
Definition hopping_rows `{Real} (hoppings : list (list Hopping)) (mn : Z)
    (P : nat) (filled : nat -> nat -> Prop) (hd : list (list Z)) : Prop :=
  length hd = 6%nat
  /\ forall r row, hd !! r = Some row ->
       length row = P
       /\ forall m i es e, filled m i ->
            hoppings !! m = Some es -> es !! i = Some e ->
            row !! Z.to_nat (Z.of_nat m * mn + Z.of_nat i)
            = Some (hop_field r e).

(** ** The unit-cell expansion in terms of lattice.in *)

Section Template.
Context `{Real}.
Variable input : LatticeFile.

Definition axis {A} (v : A * A * A) (d : Z) : A :=
  let '(v0, v1, v2) := v in
  if decide (d = 0) then v0 else if decide (d = 1) then v1 else v2.

Definition N_cell_at (d : Z) : Z := axis (file_N_cell input) d.
Definition pbc_at (d : Z) : Z := axis (file_pbc input) d.
Definition lattice_constant_at (d : Z) : real :=
  axis (file_lattice_constant input) d.

(** The offset of orbital [m] in its cell, along the axis [d]. *)
Definition cell_offset (d m : Z) : real :=
  match file_cell input !! Z.to_nat m with
  | Some c => axis c d
  | None => r_zero
  end.

(** The cell offset of a hop along the axis [d]. *)
Definition hop_offset (d : Z) (e : Hopping) : Z :=
  axis (hop_nx e, hop_ny e, hop_nz e) d.

(** The hopping list of orbital [m]. *)
Definition template (m : Z) : list Hopping :=
  default [] (file_hoppings input !! Z.to_nat m).

(** The number of atoms and of orbitals. *)
Definition lattice_atoms : Z :=
  file_N_orbital input * N_cell_at 0 * N_cell_at 1 * N_cell_at 2.

(** The checks of [initialize_lattice_model] pass, lattice.in holds the
    offsets and the hopping lists of all its orbitals, no list is longer than
    [max_neighbor], and every hop leads to an orbital of the cell. *)
Definition accepted : Prop :=
  0 < N_cell_at 0 /\ 0 < N_cell_at 1 /\ 0 < N_cell_at 2
  /\ (pbc_at 0 = 1 \/ pbc_at 0 = 0)
  /\ (pbc_at 1 = 1 \/ pbc_at 1 = 0)
  /\ (pbc_at 2 = 1 \/ pbc_at 2 = 0)
  /\ 0 <= file_transport_direction input <= 2
  /\ pbc_at (file_transport_direction input) = 1
  /\ r_leb (lattice_constant_at 0) (r_of_int 0) = false
  /\ r_leb (lattice_constant_at 1) (r_of_int 0) = false
  /\ r_leb (lattice_constant_at 2) (r_of_int 0) = false
  /\ 0 < file_N_orbital input
  /\ 0 < file_max_neighbor input
  /\ length (file_cell input) = Z.to_nat (file_N_orbital input)
  /\ length (file_hoppings input) = Z.to_nat (file_N_orbital input)
  /\ Forall (fun es =>
               Z.of_nat (length es) <= file_max_neighbor input
               /\ Forall (fun e =>
                            0 <= hop_m_neighbor e < file_N_orbital input) es)
            (file_hoppings input).

#[global] Instance accepted_dec : Decision accepted.
Proof. unfold accepted. apply _. Defined.

(** The row-major index of orbital [m] of the cell [(nx, ny, nz)]. *)
Definition atom_index (nx ny nz m : Z) : Z :=
  ((nx * N_cell_at 1 + ny) * N_cell_at 2 + nz) * file_N_orbital input + m.

Definition in_lattice (nx ny nz m : Z) : Prop :=
  0 <= nx < N_cell_at 0 /\ 0 <= ny < N_cell_at 1 /\ 0 <= nz < N_cell_at 2
  /\ 0 <= m < file_N_orbital input.

(** Lines 527-530: the hop leaves the lattice along an open axis. *)
Definition axis_skipped (d n2 : Z) : bool :=
  bool_decide (pbc_at d = 0)
  && (bool_decide (n2 < 0) || bool_decide (n2 >= N_cell_at d)).

Definition hop_skipped (nx1 ny1 nz1 : Z) (e : Hopping) : bool :=
  axis_skipped 0 (hop_nx e + nx1)
  || axis_skipped 1 (hop_ny e + ny1)
  || axis_skipped 2 (hop_nz e + nz1).

(** The hops of orbital [m] of the cell [(nx1, ny1, nz1)] that are not
    skipped, in the order of the hopping list. *)
Definition emitted (nx1 ny1 nz1 m : Z) : list Hopping :=
  filter (fun e => hop_skipped nx1 ny1 nz1 e = false) (template m).

(** What is stored for a hop [e] of orbital [m] of the cell
    [(nx1, ny1, nz1)]. *)
Definition emitted_target (nx1 ny1 nz1 : Z) (e : Hopping) : Z :=
  find_index (hop_nx e + nx1) (hop_ny e + ny1) (hop_nz e + nz1)
    (N_cell_at 0) (N_cell_at 1) (N_cell_at 2)
    (hop_m_neighbor e) (file_N_orbital input).

Definition emitted_xx (m : Z) (e : Hopping) : real :=
  let d := file_transport_direction input in
  r_add (r_mul (lattice_constant_at d) (r_of_int (hop_offset d e)))
        (r_sub (cell_offset 0 (hop_m_neighbor e)) (cell_offset 0 m)).

Definition emitted_real (e : Hopping) : real := r_of_int (r_to_int (hop_real e)).
Definition emitted_imag (e : Hopping) : real := r_of_int (r_to_int (hop_imag e)).

(** The displacement of the specification: the cell offset of the hop along
    the transport axis times the lattice constant of that axis, plus the
    difference of the orbital offsets along that axis. *)
Definition displacement_along_transport (m : Z) (e : Hopping) : real :=
  let d := file_transport_direction input in
  r_add (r_mul (lattice_constant_at d) (r_of_int (hop_offset d e)))
        (r_sub (cell_offset d (hop_m_neighbor e)) (cell_offset d m)).

(** The row of atom [atom_index nx ny nz m] in the arrays the cell loops
    write holds the emitted hops of its orbital. *)
Definition row_expanded (nn : list Z) (a : pair_arrays) (nx ny nz m : Z)
    : Prop :=
  let '(nl, hr, hi, xs) := a in
  let n1 := atom_index nx ny nz m in
  let E := emitted nx ny nz m in
  let cn := Z.of_nat (length E) in
  nn !! Z.to_nat n1 = Some cn
  /\ row (file_max_neighbor input) nl n1 cn = emitted_target nx ny nz <$> E
  /\ row (file_max_neighbor input) xs n1 cn = emitted_xx m <$> E
  /\ row (file_max_neighbor input) hr n1 cn = emitted_real <$> E
  /\ row (file_max_neighbor input) hi n1 cn = emitted_imag <$> E.

(** The state of the cell loops when the atoms before [cur] are done. *)
Definition expanded_below (has_positions : bool) (cur : Z) (st : cell_state)
    : Prop :=
  let '(nn, a, (x, y, z)) := st in
  length nn = Z.to_nat lattice_atoms
  /\ arrays_length a (Z.to_nat (lattice_atoms * file_max_neighbor input))
  /\ (has_positions = true ->
      length x = Z.to_nat lattice_atoms /\ length y = Z.to_nat lattice_atoms
      /\ length z = Z.to_nat lattice_atoms)
  /\ forall nx ny nz m, in_lattice nx ny nz m ->
       atom_index nx ny nz m < cur -> row_expanded nn a nx ny nz m.

(** Atom [atom_index nx ny nz m] of the model [model] has the emitted hops of
    its orbital. *)
Definition expanded_atom (model : Model) (nx ny nz m : Z) : Prop :=
  let n1 := atom_index nx ny nz m in
  let E := emitted nx ny nz m in
  hop_count model n1 = Z.of_nat (length E)
  /\ targets model n1 = emitted_target nx ny nz <$> E
  /\ hop_values model (xx model) n1 = emitted_xx m <$> E
  /\ hop_values model (hopping_real model) n1 = emitted_real <$> E
  /\ hop_values model (hopping_imag model) n1 = emitted_imag <$> E.

End Template.

(** ** The screened potential in the words of the specification *)

Section Screening.
Context `{Real}.

#[global] Instance real_inhabited : Inhabited real := populate r_zero.

(** The minimum-image convention: along a periodic axis a separation that
    exceeds half the box length is replaced by the box length minus the
    separation. *)
Definition minimum_image (periodic : Z) (box sep : real) : real :=
  let d := r_abs sep in
  if decide (periodic = 1)
  then if r_ltb (r_mul box r_half) d then r_sub box d else d
  else d.

(** The separation of the atom [n2] from the atom [n1] along the axis [d],
    and their distance under the minimum-image convention. *)
Definition raw_separation (model : Model) (d n1 n2 : Z) : real :=
  let position := if decide (d = 0) then x model
                  else if decide (d = 1) then y model else z model in
  r_sub (position !!! Z.to_nat n2) (position !!! Z.to_nat n1).

Definition axis_distance (model : Model) (d n1 n2 : Z) : real :=
  minimum_image (pbc model !!! Z.to_nat d) (box_length model !!! Z.to_nat d)
    (raw_separation model d n1 n2).

Definition sum_of_squares (ds : list real) : real :=
  fold_left (fun acc d => r_add acc (r_mul d d)) ds r_zero.

Definition distance_square (model : Model) (n1 n2 : Z) : real :=
  sum_of_squares [axis_distance model 0 n1 n2; axis_distance model 1 n1 n2;
                  axis_distance model 2 n1 n2].

(** The potential at the atom [n1] of impurities given by site and strength:
    each adds its strength times [exp (- distance^2 / range^2 * 0.5)]. *)
Definition screened_potential (model : Model) (range : real)
    (impurities : list (Z * real)) (n1 : Z) : real :=
  fold_left
    (fun acc '(n2, s) =>
       r_add acc
         (r_mul s
            (r_exp (r_mul (r_neg (r_div (distance_square model n1 n2)
                                    (r_mul range range)))
                      r_half))))
    impurities r_zero.

End Screening.

(** [k] draws of [std::uniform_real_distribution<real>(a, b)]. *)
Fixpoint real_draws `{Machine} (k : nat) (a b : real) (g : generator)
    : list real * generator :=
  match k with
  | O => ([], g)
  | S k' => let '(v, g) := rand_real a b g in
            let '(vs, g) := real_draws k' a b g in
            (v :: vs, g)
  end.

(** [p] with another [number_of_vacancies]. *)
Definition with_number_of_vacancies `{Real} (p : Parameters) (k : Z)
    : Parameters :=
  {| use_lattice_model := use_lattice_model p;
     has_anderson_disorder := has_anderson_disorder p;
     anderson_disorder_strength := anderson_disorder_strength p;
     has_charged_impurities := has_charged_impurities p;
     number_of_charged_impurities := number_of_charged_impurities p;
     charged_impurity_strength := charged_impurity_strength p;
     charged_impurity_range := charged_impurity_range p;
     has_vacancy_disorder := has_vacancy_disorder p;
     number_of_vacancies := k;
     calculate_vac := calculate_vac p;
     calculate_msd := calculate_msd p;
     calculate_spin := calculate_spin p;
     requires_time := requires_time p;
     number_of_random_vectors := number_of_random_vectors p;
     number_of_moments := number_of_moments p;
     energy_max := energy_max p |}.

(** A run that ends without a fault. *)
Definition returns {A} (r : result A) : Prop :=
  match r with
  | Ok _ => True
  | Fault _ => False
  end.

(** ** A concrete platform: exact rational arithmetic

    The inputs evaluated below carry dyadic rationals of small magnitude, on
    which [float] and [double] arithmetic is exact too.  [exp], [cos] and [sin]
    have no rational-valued counterpart; no input evaluated on this platform
    reaches a call of them, and they are interpreted by their values at 0. *)

Definition Q_to_int (q : Q) : Z := Z.quot (Qnum q) (Z.pos (Qden q)).

#[global] Instance Q_real : Real := {|
  real := Q;
  r_of_int := inject_Z;
  r_to_int := Q_to_int;
  r_zero := 0%Q;
  r_half := (1 # 2)%Q;
  r_two_pi := (6283185307179586 # 1000000000000000)%Q;
  r_add := fun a b => Qred (a + b);
  r_sub := fun a b => Qred (a - b);
  r_mul := fun a b => Qred (a * b);
  r_div := fun a b => Qred (a / b);
  r_neg := fun a => Qred (- a);
  r_abs := fun a => Qred (Qabs a);
  r_ltb := fun a b => negb (Qle_bool b a);
  r_leb := Qle_bool;
  r_exp := fun _ => 1%Q;
  r_cos := fun _ => 1%Q;
  r_sin := fun _ => 0%Q;
|}.

(** A linear congruential engine with 31-bit output. *)
Definition lcg_next (g : Z) : Z := (g * 1103515245 + 12345) mod 2147483648.

#[global] Instance lcg_machine : @Machine Q_real := {|
  generator := Z;
  rand_int := fun g => (lcg_next g, lcg_next g);
  rand_real := fun a b g =>
    (Qred (a + (b - a) * (lcg_next g # 2147483648)), lcg_next g);
  uninit_int := -1;
  uninit_real := (-1)%Q;
|}.

(** ** Inputs used as examples *)

(** Vacancy disorder on a lattice model. *)
Definition vacancy_parameters (k : Z) : @Parameters Q_real := {|
  use_lattice_model := true;
  has_anderson_disorder := false;
  anderson_disorder_strength := 0%Q;
  has_charged_impurities := false;
  number_of_charged_impurities := 0;
  charged_impurity_strength := 0%Q;
  charged_impurity_range := 0%Q;
  has_vacancy_disorder := true;
  number_of_vacancies := k;
  calculate_vac := false;
  calculate_msd := false;
  calculate_spin := false;
  requires_time := false;
  number_of_random_vectors := 1;
  number_of_moments := 1;
  energy_max := 1%Q;
|}.

Definition no_disorder : @Parameters Q_real := {|
  use_lattice_model := true;
  has_anderson_disorder := false;
  anderson_disorder_strength := 0%Q;
  has_charged_impurities := false;
  number_of_charged_impurities := 0;
  charged_impurity_strength := 0%Q;
  charged_impurity_range := 0%Q;
  has_vacancy_disorder := false;
  number_of_vacancies := 0;
  calculate_vac := false;
  calculate_msd := false;
  calculate_spin := false;
  requires_time := false;
  number_of_random_vectors := 1;
  number_of_moments := 1;
  energy_max := 1%Q;
|}.

(** One orbital, 2 x 2 x 1 cells, periodic along x, y and z, transport along
    x, and the single hop [1 0 0 0 1.0 0.0]. *)
Definition square_2x2 (max_neighbor : Z) : @LatticeFile Q_real := {|
  file_N_cell := (2, 2, 1);
  file_pbc := (1, 1, 1);
  file_transport_direction := 0;
  file_lattice_constant := (1%Q, 1%Q, 1%Q);
  file_N_orbital := 1;
  file_max_neighbor := max_neighbor;
  file_cell := [(0%Q, 0%Q, 0%Q)];
  file_hoppings :=
    [[ {| hop_nx := 1; hop_ny := 0; hop_nz := 0; hop_m_neighbor := 0;
          hop_real := 1%Q; hop_imag := 0%Q |} ]];
|}.

(** Two orbitals in one cell, the second displaced by 0.5 along x, transport
    along y, and one hop between the orbitals in each direction. *)
Definition dimer_along_y : @LatticeFile Q_real := {|
  file_N_cell := (1, 1, 1);
  file_pbc := (1, 1, 1);
  file_transport_direction := 1;
  file_lattice_constant := (1%Q, 1%Q, 1%Q);
  file_N_orbital := 2;
  file_max_neighbor := 1;
  file_cell := [(0%Q, 0%Q, 0%Q); ((1 # 2)%Q, 0%Q, 0%Q)];
  file_hoppings :=
    [[ {| hop_nx := 0; hop_ny := 0; hop_nz := 0; hop_m_neighbor := 1;
          hop_real := 1%Q; hop_imag := 0%Q |} ];
     [ {| hop_nx := 0; hop_ny := 0; hop_nz := 0; hop_m_neighbor := 0;
          hop_real := 1%Q; hop_imag := 0%Q |} ]];
|}.

(** [square_2x2 1] with the amplitude 0.5 + 0.25 i. *)
Definition square_2x2_fractional : @LatticeFile Q_real := {|
  file_N_cell := (2, 2, 1);
  file_pbc := (1, 1, 1);
  file_transport_direction := 0;
  file_lattice_constant := (1%Q, 1%Q, 1%Q);
  file_N_orbital := 1;
  file_max_neighbor := 1;
  file_cell := [(0%Q, 0%Q, 0%Q)];
  file_hoppings :=
    [[ {| hop_nx := 1; hop_ny := 0; hop_nz := 0; hop_m_neighbor := 0;
          hop_real := (1 # 2)%Q; hop_imag := (1 # 4)%Q |} ]];
|}.

(** The model built from [square_2x2 2]: four atoms, one hop each, in rows of
    two slots whose second slot is not written. *)
Definition square_model : @Model Q_real := {|
  number_of_atoms := 4;
  max_neighbor := 2;
  number_of_pairs := 8;
  neighbor_number := [1; 1; 1; 1];
  neighbor_list := [2; -1; 3; -1; 0; -1; 1; -1];
  hopping_real := [1; -1; 1; -1; 1; -1; 1; -1]%Q;
  hopping_imag := [0; -1; 0; -1; 0; -1; 0; -1]%Q;
  xx := [1; -1; 1; -1; 1; -1; 1; -1]%Q;
  potential := [0; 0; 0; 0]%Q;
  x := [];
  y := [];
  z := [];
  pbc := [1; 1; 1];
  box_length := [2; 2; 1]%Q;
  volume := 4%Q;
|}.

(** [square_model] with the positions of its atoms. *)
Definition square_model_positions : @Model Q_real := {|
  number_of_atoms := 4;
  max_neighbor := 2;
  number_of_pairs := 8;
  neighbor_number := [1; 1; 1; 1];
  neighbor_list := [2; -1; 3; -1; 0; -1; 1; -1];
  hopping_real := [1; -1; 1; -1; 1; -1; 1; -1]%Q;
  hopping_imag := [0; -1; 0; -1; 0; -1; 0; -1]%Q;
  xx := [1; -1; 1; -1; 1; -1; 1; -1]%Q;
  potential := [0; 0; 0; 0]%Q;
  x := [0; 0; 1; 1]%Q;
  y := [0; 1; 0; 1]%Q;
  z := [0; 0; 0; 0]%Q;
  pbc := [1; 1; 1];
  box_length := [2; 2; 1]%Q;
  volume := 4%Q;
|}.


(** ** The draws behind a shuffle *)

(** [n] draws of [std::uniform_int_distribution<int>(0, INT_MAX)]. *)
Fixpoint int_draws `{Machine} (n : nat) (g : generator)
    : list Z * generator :=
  match n with
  | O => ([], g)
  | S n' => let '(r, g) := rand_int g in
            let '(rs, g) := int_draws n' g in
            (r :: rs, g)
  end.

(** Line 56: the pick for position [i] of a shuffle of [N] positions, from
    the draw [r]. *)
Definition pick (N : Z) (i : nat) (r : Z) : nat :=
  Z.to_nat (Z.rem r (N - Z.of_nat i) + Z.of_nat i).

Definition shuffle_picks (N : Z) (draws : list Z) : list nat :=
  imap (pick N) draws.

(** The atoms that [create_random_numbers] draws from the generator [g]:
    the first [k] cells of the shuffle of [0 .. N - 1]. *)
Definition drawn `{Machine} (N k : Z) (g : generator) : list Z :=
  take (Z.to_nat k)
    (forward_shuffle 0 (shuffle_picks N (int_draws (Z.to_nat N) g).1)
       (seqZ 0 N)).

(** ** Properties of a neighbor table *)

(** Every hop has a hop back: [t] is a target of [n] only if [n] is a target
    of [t]. *)
Definition symmetric_table `{Real} (m : Model) : Prop :=
  forall n t, 0 <= n < number_of_atoms m ->
    t ∈ targets m n -> n ∈ targets m t.

(** ** The random state in spin mode *)

(** The cells written for the drawn phases: [f phase] at the even index of
    each pair and zero at the odd one. *)
Definition spin_cells `{Real} (f : real -> real) (phases : list real)
    : list real :=
  phases ≫= (fun phase => [f phase; r_zero]).

(** ** The checks and the hops of lattice.in *)

Section Header.
Context `{Real}.
Variable input : LatticeFile.

(** The thirteen checks of [initialize_lattice_model] that end in
    [exit(1)], in the order of the code. *)
Definition header_ok : Prop :=
  0 < N_cell_at input 0 /\ 0 < N_cell_at input 1 /\ 0 < N_cell_at input 2
  /\ (pbc_at input 0 = 1 \/ pbc_at input 0 = 0)
  /\ (pbc_at input 1 = 1 \/ pbc_at input 1 = 0)
  /\ (pbc_at input 2 = 1 \/ pbc_at input 2 = 0)
  /\ 0 <= file_transport_direction input <= 2
  /\ pbc_at input (file_transport_direction input) = 1
  /\ r_leb (lattice_constant_at input 0) (r_of_int 0) = false
  /\ r_leb (lattice_constant_at input 1) (r_of_int 0) = false
  /\ r_leb (lattice_constant_at input 2) (r_of_int 0) = false
  /\ 0 < file_N_orbital input
  /\ 0 < file_max_neighbor input.

#[global] Instance header_ok_dec : Decision header_ok.
Proof. unfold header_ok. apply _. Defined.

Definition fully_periodic : Prop :=
  pbc_at input 0 = 1 /\ pbc_at input 1 = 1 /\ pbc_at input 2 = 1.

(** The hop [e] from the cell [(nx, ny, nz)] ends inside the lattice along
    every open axis. *)
Definition stays_inside (nx ny nz : Z) (e : Hopping) : Prop :=
  (pbc_at input 0 = 0 -> 0 <= hop_nx e + nx < N_cell_at input 0)
  /\ (pbc_at input 1 = 0 -> 0 <= hop_ny e + ny < N_cell_at input 1)
  /\ (pbc_at input 2 = 0 -> 0 <= hop_nz e + nz < N_cell_at input 2).

#[global] Instance stays_inside_dec (nx ny nz : Z) (e : Hopping)
  : Decision (stays_inside nx ny nz e).
Proof. unfold stays_inside. apply _. Defined.

(** Along a periodic axis no hop is longer than the lattice. *)
Definition short_hop (e : Hopping) : Prop :=
  (pbc_at input 0 = 1 -> - N_cell_at input 0 <= hop_nx e <= N_cell_at input 0)
  /\ (pbc_at input 1 = 1 ->
      - N_cell_at input 1 <= hop_ny e <= N_cell_at input 1)
  /\ (pbc_at input 2 = 1 ->
      - N_cell_at input 2 <= hop_nz e <= N_cell_at input 2).

Definition within_one_period : Prop :=
  Forall (Forall short_hop) (file_hoppings input).

#[global] Instance within_one_period_dec : Decision within_one_period.
Proof. unfold within_one_period, short_hop. apply _. Defined.

(** The atom a hop [e] from the cell [(nx, ny, nz)] leads to: the orbital
    [m_neighbor] of the cell reached, taken modulo the lattice. *)
Definition image_target (nx ny nz : Z) (e : Hopping) : Z :=
  atom_index input
    ((hop_nx e + nx) mod N_cell_at input 0)
    ((hop_ny e + ny) mod N_cell_at input 1)
    ((hop_nz e + nz) mod N_cell_at input 2)
    (hop_m_neighbor e).

(** The coordinate along the axis [d] of the orbital [m] of a cell whose
    index along [d] is [n]. *)
Definition atom_position (d n m : Z) : real :=
  r_add (cell_offset input d m)
        (r_mul (lattice_constant_at input d) (r_of_int n)).

End Header.

(** The state of the cell loops when the atoms before [cur] are done: their
    positions are stored. *)
Definition positions_below `{Real} (input : LatticeFile) (cur : Z)
    (st : cell_state) : Prop :=
  let '(_, _, (x, y, z)) := st in
  forall nx ny nz m, in_lattice input nx ny nz m ->
    atom_index input nx ny nz m < cur ->
    x !! Z.to_nat (atom_index input nx ny nz m)
    = Some (atom_position input 0 nx m)
    /\ y !! Z.to_nat (atom_index input nx ny nz m)
       = Some (atom_position input 1 ny m)
    /\ z !! Z.to_nat (atom_index input nx ny nz m)
       = Some (atom_position input 2 nz m).

(** ** More inputs used as examples *)

(** A lattice model with the disorder picked by the three flags, [k]
    vacancies or impurities, and strengths and range 1. *)
Definition example_parameters (vacancy anderson charged : bool) (k : Z)
    : @Parameters Q_real := {|
  use_lattice_model := true;
  has_anderson_disorder := anderson;
  anderson_disorder_strength := 1%Q;
  has_charged_impurities := charged;
  number_of_charged_impurities := k;
  charged_impurity_strength := 1%Q;
  charged_impurity_range := 1%Q;
  has_vacancy_disorder := vacancy;
  number_of_vacancies := k;
  calculate_vac := false;
  calculate_msd := false;
  calculate_spin := false;
  requires_time := false;
  number_of_random_vectors := 1;
  number_of_moments := 1;
  energy_max := 1%Q;
|}.

(** A chain of three cells along x with open ends along y, periodic along
    x and z: one orbital, and the hops to the next cell along x and along
    y. *)
Definition ribbon_3x2 : @LatticeFile Q_real := {|
  file_N_cell := (3, 2, 1);
  file_pbc := (1, 0, 1);
  file_transport_direction := 0;
  file_lattice_constant := (1%Q, 1%Q, 1%Q);
  file_N_orbital := 1;
  file_max_neighbor := 2;
  file_cell := [(0%Q, 0%Q, 0%Q)];
  file_hoppings :=
    [[ {| hop_nx := 1; hop_ny := 0; hop_nz := 0; hop_m_neighbor := 0;
          hop_real := 1%Q; hop_imag := 0%Q |};
       {| hop_nx := 0; hop_ny := 1; hop_nz := 0; hop_m_neighbor := 0;
          hop_real := 1%Q; hop_imag := 0%Q |} ]];
|}.

(** ** model.cu: verify_parameters, in the words of its messages *)

(** What [verify_parameters] asks of the parameters: a lattice model
    without spin and, with vacancy disorder, a positive number of vacancies;
    a general model without disorder; spin without VAC and MSD; positive
    numbers of random vectors and of moments and a positive energy
    maximum. *)
Definition parameters_accepted `{Real} (p : Parameters) : Prop :=
  (if use_lattice_model p
   then calculate_spin p = false
        /\ (has_vacancy_disorder p = true -> 0 < number_of_vacancies p)
   else has_anderson_disorder p = false /\ has_vacancy_disorder p = false
        /\ has_charged_impurities p = false)
  /\ (calculate_spin p = true ->
      calculate_vac p = false /\ calculate_msd p = false)
  /\ 0 < number_of_random_vectors p
  /\ 0 < number_of_moments p
  /\ r_leb (energy_max p) (r_of_int 0) = false.

#[global] Instance parameters_accepted_dec `{Real} (p : Parameters)
  : Decision (parameters_accepted p).
Proof. unfold parameters_accepted. destruct (use_lattice_model p); apply _. Defined.

(** The assignment of line 149. *)
Definition set_requires_time `{Real} (v : bool) (p : Parameters) : Parameters :=
  {| use_lattice_model := use_lattice_model p;
     has_anderson_disorder := has_anderson_disorder p;
     anderson_disorder_strength := anderson_disorder_strength p;
     has_charged_impurities := has_charged_impurities p;
     number_of_charged_impurities := number_of_charged_impurities p;
     charged_impurity_strength := charged_impurity_strength p;
     charged_impurity_range := charged_impurity_range p;
     has_vacancy_disorder := has_vacancy_disorder p;
     number_of_vacancies := number_of_vacancies p;
     calculate_vac := calculate_vac p;
     calculate_msd := calculate_msd p;
     calculate_spin := calculate_spin p;
     requires_time := v;
     number_of_random_vectors := number_of_random_vectors p;
     number_of_moments := number_of_moments p;
     energy_max := energy_max p |}.

(** ** model.cu: initialize_parameters

    A line of para.in is handed to a [std::stringstream], and what
    [operator>>] extracts from it is left to the platform: [extract_token]
    gives the first token of the line, the empty string when there is none,
    and an extraction into a member takes the value the member has and gives
    the value it has afterwards. *)

Class LineReader `{Real} : Type := {
  sstream : Type;
  open_line : string -> sstream;                  (* std::stringstream ss(line) *)
  extract_token : sstream -> string * sstream;    (* ss >> token *)
  extract_bool : bool -> sstream -> bool * sstream;
  extract_int : Z -> sstream -> Z * sstream;
  extract_real : real -> sstream -> real * sstream;
}.

Section ParaIn.
Context `{LineReader}.

(** Assignments to the members set from para.in. *)
Definition set_use_lattice_model (v : bool) (p : Parameters) : Parameters :=
  {| use_lattice_model := v;
     has_anderson_disorder := has_anderson_disorder p;
     anderson_disorder_strength := anderson_disorder_strength p;
     has_charged_impurities := has_charged_impurities p;
     number_of_charged_impurities := number_of_charged_impurities p;
     charged_impurity_strength := charged_impurity_strength p;
     charged_impurity_range := charged_impurity_range p;
     has_vacancy_disorder := has_vacancy_disorder p;
     number_of_vacancies := number_of_vacancies p;
     calculate_vac := calculate_vac p;
     calculate_msd := calculate_msd p;
     calculate_spin := calculate_spin p;
     requires_time := requires_time p;
     number_of_random_vectors := number_of_random_vectors p;
     number_of_moments := number_of_moments p;
     energy_max := energy_max p |}.

Definition set_has_anderson_disorder (v : bool) (p : Parameters) : Parameters :=
  {| use_lattice_model := use_lattice_model p;
     has_anderson_disorder := v;
     anderson_disorder_strength := anderson_disorder_strength p;
     has_charged_impurities := has_charged_impurities p;
     number_of_charged_impurities := number_of_charged_impurities p;
     charged_impurity_strength := charged_impurity_strength p;
     charged_impurity_range := charged_impurity_range p;
     has_vacancy_disorder := has_vacancy_disorder p;
     number_of_vacancies := number_of_vacancies p;
     calculate_vac := calculate_vac p;
     calculate_msd := calculate_msd p;
     calculate_spin := calculate_spin p;
     requires_time := requires_time p;
     number_of_random_vectors := number_of_random_vectors p;
     number_of_moments := number_of_moments p;
     energy_max := energy_max p |}.

Definition set_anderson_disorder_strength (v : real) (p : Parameters) : Parameters :=
  {| use_lattice_model := use_lattice_model p;
     has_anderson_disorder := has_anderson_disorder p;
     anderson_disorder_strength := v;
     has_charged_impurities := has_charged_impurities p;
     number_of_charged_impurities := number_of_charged_impurities p;
     charged_impurity_strength := charged_impurity_strength p;
     charged_impurity_range := charged_impurity_range p;
     has_vacancy_disorder := has_vacancy_disorder p;
     number_of_vacancies := number_of_vacancies p;
     calculate_vac := calculate_vac p;
     calculate_msd := calculate_msd p;
     calculate_spin := calculate_spin p;
     requires_time := requires_time p;
     number_of_random_vectors := number_of_random_vectors p;
     number_of_moments := number_of_moments p;
     energy_max := energy_max p |}.

Definition set_has_charged_impurities (v : bool) (p : Parameters) : Parameters :=
  {| use_lattice_model := use_lattice_model p;
     has_anderson_disorder := has_anderson_disorder p;
     anderson_disorder_strength := anderson_disorder_strength p;
     has_charged_impurities := v;
     number_of_charged_impurities := number_of_charged_impurities p;
     charged_impurity_strength := charged_impurity_strength p;
     charged_impurity_range := charged_impurity_range p;
     has_vacancy_disorder := has_vacancy_disorder p;
     number_of_vacancies := number_of_vacancies p;
     calculate_vac := calculate_vac p;
     calculate_msd := calculate_msd p;
     calculate_spin := calculate_spin p;
     requires_time := requires_time p;
     number_of_random_vectors := number_of_random_vectors p;
     number_of_moments := number_of_moments p;
     energy_max := energy_max p |}.

Definition set_number_of_charged_impurities (v : Z) (p : Parameters) : Parameters :=
  {| use_lattice_model := use_lattice_model p;
     has_anderson_disorder := has_anderson_disorder p;
     anderson_disorder_strength := anderson_disorder_strength p;
     has_charged_impurities := has_charged_impurities p;
     number_of_charged_impurities := v;
     charged_impurity_strength := charged_impurity_strength p;
     charged_impurity_range := charged_impurity_range p;
     has_vacancy_disorder := has_vacancy_disorder p;
     number_of_vacancies := number_of_vacancies p;
     calculate_vac := calculate_vac p;
     calculate_msd := calculate_msd p;
     calculate_spin := calculate_spin p;
     requires_time := requires_time p;
     number_of_random_vectors := number_of_random_vectors p;
     number_of_moments := number_of_moments p;
     energy_max := energy_max p |}.

Definition set_charged_impurity_strength (v : real) (p : Parameters) : Parameters :=
  {| use_lattice_model := use_lattice_model p;
     has_anderson_disorder := has_anderson_disorder p;
     anderson_disorder_strength := anderson_disorder_strength p;
     has_charged_impurities := has_charged_impurities p;
     number_of_charged_impurities := number_of_charged_impurities p;
     charged_impurity_strength := v;
     charged_impurity_range := charged_impurity_range p;
     has_vacancy_disorder := has_vacancy_disorder p;
     number_of_vacancies := number_of_vacancies p;
     calculate_vac := calculate_vac p;
     calculate_msd := calculate_msd p;
     calculate_spin := calculate_spin p;
     requires_time := requires_time p;
     number_of_random_vectors := number_of_random_vectors p;
     number_of_moments := number_of_moments p;
     energy_max := energy_max p |}.

Definition set_charged_impurity_range (v : real) (p : Parameters) : Parameters :=
  {| use_lattice_model := use_lattice_model p;
     has_anderson_disorder := has_anderson_disorder p;
     anderson_disorder_strength := anderson_disorder_strength p;
     has_charged_impurities := has_charged_impurities p;
     number_of_charged_impurities := number_of_charged_impurities p;
     charged_impurity_strength := charged_impurity_strength p;
     charged_impurity_range := v;
     has_vacancy_disorder := has_vacancy_disorder p;
     number_of_vacancies := number_of_vacancies p;
     calculate_vac := calculate_vac p;
     calculate_msd := calculate_msd p;
     calculate_spin := calculate_spin p;
     requires_time := requires_time p;
     number_of_random_vectors := number_of_random_vectors p;
     number_of_moments := number_of_moments p;
     energy_max := energy_max p |}.

Definition set_has_vacancy_disorder (v : bool) (p : Parameters) : Parameters :=
  {| use_lattice_model := use_lattice_model p;
     has_anderson_disorder := has_anderson_disorder p;
     anderson_disorder_strength := anderson_disorder_strength p;
     has_charged_impurities := has_charged_impurities p;
     number_of_charged_impurities := number_of_charged_impurities p;
     charged_impurity_strength := charged_impurity_strength p;
     charged_impurity_range := charged_impurity_range p;
     has_vacancy_disorder := v;
     number_of_vacancies := number_of_vacancies p;
     calculate_vac := calculate_vac p;
     calculate_msd := calculate_msd p;
     calculate_spin := calculate_spin p;
     requires_time := requires_time p;
     number_of_random_vectors := number_of_random_vectors p;
     number_of_moments := number_of_moments p;
     energy_max := energy_max p |}.

Definition set_number_of_vacancies (v : Z) (p : Parameters) : Parameters :=
  {| use_lattice_model := use_lattice_model p;
     has_anderson_disorder := has_anderson_disorder p;
     anderson_disorder_strength := anderson_disorder_strength p;
     has_charged_impurities := has_charged_impurities p;
     number_of_charged_impurities := number_of_charged_impurities p;
     charged_impurity_strength := charged_impurity_strength p;
     charged_impurity_range := charged_impurity_range p;
     has_vacancy_disorder := has_vacancy_disorder p;
     number_of_vacancies := v;
     calculate_vac := calculate_vac p;
     calculate_msd := calculate_msd p;
     calculate_spin := calculate_spin p;
     requires_time := requires_time p;
     number_of_random_vectors := number_of_random_vectors p;
     number_of_moments := number_of_moments p;
     energy_max := energy_max p |}.

Definition set_calculate_vac (v : bool) (p : Parameters) : Parameters :=
  {| use_lattice_model := use_lattice_model p;
     has_anderson_disorder := has_anderson_disorder p;
     anderson_disorder_strength := anderson_disorder_strength p;
     has_charged_impurities := has_charged_impurities p;
     number_of_charged_impurities := number_of_charged_impurities p;
     charged_impurity_strength := charged_impurity_strength p;
     charged_impurity_range := charged_impurity_range p;
     has_vacancy_disorder := has_vacancy_disorder p;
     number_of_vacancies := number_of_vacancies p;
     calculate_vac := v;
     calculate_msd := calculate_msd p;
     calculate_spin := calculate_spin p;
     requires_time := requires_time p;
     number_of_random_vectors := number_of_random_vectors p;
     number_of_moments := number_of_moments p;
     energy_max := energy_max p |}.

Definition set_calculate_msd (v : bool) (p : Parameters) : Parameters :=
  {| use_lattice_model := use_lattice_model p;
     has_anderson_disorder := has_anderson_disorder p;
     anderson_disorder_strength := anderson_disorder_strength p;
     has_charged_impurities := has_charged_impurities p;
     number_of_charged_impurities := number_of_charged_impurities p;
     charged_impurity_strength := charged_impurity_strength p;
     charged_impurity_range := charged_impurity_range p;
     has_vacancy_disorder := has_vacancy_disorder p;
     number_of_vacancies := number_of_vacancies p;
     calculate_vac := calculate_vac p;
     calculate_msd := v;
     calculate_spin := calculate_spin p;
     requires_time := requires_time p;
     number_of_random_vectors := number_of_random_vectors p;
     number_of_moments := number_of_moments p;
     energy_max := energy_max p |}.

Definition set_calculate_spin (v : bool) (p : Parameters) : Parameters :=
  {| use_lattice_model := use_lattice_model p;
     has_anderson_disorder := has_anderson_disorder p;
     anderson_disorder_strength := anderson_disorder_strength p;
     has_charged_impurities := has_charged_impurities p;
     number_of_charged_impurities := number_of_charged_impurities p;
     charged_impurity_strength := charged_impurity_strength p;
     charged_impurity_range := charged_impurity_range p;
     has_vacancy_disorder := has_vacancy_disorder p;
     number_of_vacancies := number_of_vacancies p;
     calculate_vac := calculate_vac p;
     calculate_msd := calculate_msd p;
     calculate_spin := v;
     requires_time := requires_time p;
     number_of_random_vectors := number_of_random_vectors p;
     number_of_moments := number_of_moments p;
     energy_max := energy_max p |}.

Definition set_number_of_random_vectors (v : Z) (p : Parameters) : Parameters :=
  {| use_lattice_model := use_lattice_model p;
     has_anderson_disorder := has_anderson_disorder p;
     anderson_disorder_strength := anderson_disorder_strength p;
     has_charged_impurities := has_charged_impurities p;
     number_of_charged_impurities := number_of_charged_impurities p;
     charged_impurity_strength := charged_impurity_strength p;
     charged_impurity_range := charged_impurity_range p;
     has_vacancy_disorder := has_vacancy_disorder p;
     number_of_vacancies := number_of_vacancies p;
     calculate_vac := calculate_vac p;
     calculate_msd := calculate_msd p;
     calculate_spin := calculate_spin p;
     requires_time := requires_time p;
     number_of_random_vectors := v;
     number_of_moments := number_of_moments p;
     energy_max := energy_max p |}.

Definition set_number_of_moments (v : Z) (p : Parameters) : Parameters :=
  {| use_lattice_model := use_lattice_model p;
     has_anderson_disorder := has_anderson_disorder p;
     anderson_disorder_strength := anderson_disorder_strength p;
     has_charged_impurities := has_charged_impurities p;
     number_of_charged_impurities := number_of_charged_impurities p;
     charged_impurity_strength := charged_impurity_strength p;
     charged_impurity_range := charged_impurity_range p;
     has_vacancy_disorder := has_vacancy_disorder p;
     number_of_vacancies := number_of_vacancies p;
     calculate_vac := calculate_vac p;
     calculate_msd := calculate_msd p;
     calculate_spin := calculate_spin p;
     requires_time := requires_time p;
     number_of_random_vectors := number_of_random_vectors p;
     number_of_moments := v;
     energy_max := energy_max p |}.

Definition set_energy_max (v : real) (p : Parameters) : Parameters :=
  {| use_lattice_model := use_lattice_model p;
     has_anderson_disorder := has_anderson_disorder p;
     anderson_disorder_strength := anderson_disorder_strength p;
     has_charged_impurities := has_charged_impurities p;
     number_of_charged_impurities := number_of_charged_impurities p;
     charged_impurity_strength := charged_impurity_strength p;
     charged_impurity_range := charged_impurity_range p;
     has_vacancy_disorder := has_vacancy_disorder p;
     number_of_vacancies := number_of_vacancies p;
     calculate_vac := calculate_vac p;
     calculate_msd := calculate_msd p;
     calculate_spin := calculate_spin p;
     requires_time := requires_time p;
     number_of_random_vectors := number_of_random_vectors p;
     number_of_moments := number_of_moments p;
     energy_max := v |}.

(** The keywords of para.in, in the order of the error message. *)
Definition keywords : list string :=
  ["model"; "anderson_disorder"; "charged_impurity"; "vacancy_disorder";
   "calculate_vac"; "calculate_msd"; "calculate_spin";
   "number_of_random_vectors"; "number_of_moments"; "energy_max"].

(** Lines 294-360: one line of para.in. *)
Definition read_line (p : Parameters) (line : string) : result Parameters :=
  let ss := open_line line in
  let '(token, ss) := extract_token ss in
  if decide (token = EmptyString) then Ok p
  else if decide (token = "model") then
    let '(v, _) := extract_bool (use_lattice_model p) ss in
    Ok (set_use_lattice_model v p)
  else if decide (token = "anderson_disorder") then
    let p := set_has_anderson_disorder true p in
    let '(v, _) := extract_real (anderson_disorder_strength p) ss in
    Ok (set_anderson_disorder_strength v p)
  else if decide (token = "charged_impurity") then
    let p := set_has_charged_impurities true p in
    let '(v, ss) := extract_int (number_of_charged_impurities p) ss in
    let p := set_number_of_charged_impurities v p in
    let '(v, ss) := extract_real (charged_impurity_strength p) ss in
    let p := set_charged_impurity_strength v p in
    let '(v, _) := extract_real (charged_impurity_range p) ss in
    Ok (set_charged_impurity_range v p)
  else if decide (token = "vacancy_disorder") then
    let p := set_has_vacancy_disorder true p in
    let '(v, _) := extract_int (number_of_vacancies p) ss in
    Ok (set_number_of_vacancies v p)
  else if decide (token = "calculate_vac") then
    Ok (set_calculate_vac true p)
  else if decide (token = "calculate_msd") then
    Ok (set_calculate_msd true p)
  else if decide (token = "calculate_spin") then
    Ok (set_calculate_spin true p)
  else if decide (token = "number_of_random_vectors") then
    let '(v, _) := extract_int (number_of_random_vectors p) ss in
    Ok (set_number_of_random_vectors v p)
  else if decide (token = "number_of_moments") then
    let '(v, _) := extract_int (number_of_moments p) ss in
    Ok (set_number_of_moments v p)
  else if decide (token = "energy_max") then
    let '(v, _) := extract_real (energy_max p) ss in
    Ok (set_energy_max v p)
  else Fault ConfigError.

(** [while (std::getline(input, line)) ...] *)
Fixpoint read_lines (p : Parameters) (lines : list string)
    : result Parameters :=
  match lines with
  | [] => Ok p
  | line :: lines => p ← read_line p line; read_lines p lines
  end.

(** Lines 280-365: para.in is [None] when the file cannot be opened, and
    the list of its lines otherwise; [p] holds the members as they are when
    the function is entered. *)
Definition initialize_parameters (p : Parameters)
    (para_in : option (list string)) : result Parameters :=
  match para_in with
  | None => Fault ConfigError
  | Some lines => p ← read_lines p lines; verify_parameters p
  end.

(** The first token of a line. *)
Definition line_token (line : string) : string :=
  (extract_token (open_line line)).1.

(** The six flags and the keywords that set them. *)
Definition flag_keywords : list ((Parameters -> bool) * string) :=
  [(has_anderson_disorder, "anderson_disorder");
   (has_charged_impurities, "charged_impurity");
   (has_vacancy_disorder, "vacancy_disorder");
   (calculate_vac, "calculate_vac");
   (calculate_msd, "calculate_msd");
   (calculate_spin, "calculate_spin")].

(** Between [p] and [p'] a flag is set when its keyword is seen, and only
    then; no flag is cleared. *)
Definition flags_after (p p' : Parameters) (seen : string -> Prop) : Prop :=
  Forall (fun fk : (Parameters -> bool) * string =>
            fk.1 p' = true <-> fk.1 p = true \/ seen fk.2)
         flag_keywords.

(** Some line of the file starts with the token [k]. *)
Definition keyword_seen (lines : list string) (k : string) : Prop :=
  exists line, line ∈ lines /\ line_token line = k.

(** The line has no token, or one of the ten keywords. *)
Definition known_line (line : string) : Prop :=
  line_token line = EmptyString \/ line_token line ∈ keywords.

End ParaIn.

(** A reader for the lines that hold a keyword and nothing else: the token
    is the line, and an extraction from the exhausted stream leaves the
    member as it was. *)
#[global] Instance keyword_reader : @LineReader Q_real := {|
  sstream := string;
  open_line := fun line => line;
  extract_token := fun ss => (ss, EmptyString);
  extract_bool := fun v ss => (v, ss);
  extract_int := fun v ss => (v, ss);
  extract_real := fun v ss => (v, ss);
|}.

(** A general model without disorder, used as an example. *)
Definition general_parameters : @Parameters Q_real := {|
  use_lattice_model := false;
  has_anderson_disorder := false;
  anderson_disorder_strength := 0%Q;
  has_charged_impurities := false;
  number_of_charged_impurities := 0;
  charged_impurity_strength := 0%Q;
  charged_impurity_range := 0%Q;
  has_vacancy_disorder := false;
  number_of_vacancies := 0;
  calculate_vac := false;
  calculate_msd := false;
  calculate_spin := false;
  requires_time := false;
  number_of_random_vectors := 1;
  number_of_moments := 1000;
  energy_max := 10%Q;
|}.

(** [hopping_data] keeps its six rows of [P] cells. *)
Definition six_rows (P : nat) (hd : list (list Z)) : Prop :=
  length hd = 6%nat /\ Forall (fun row => length row = P) hd.

(** [ribbon_3x2] with room for one hop per orbital only. *)
Definition crowded_ribbon : @LatticeFile Q_real := {|
  file_N_cell := (3, 2, 1);
  file_pbc := (1, 0, 1);
  file_transport_direction := 0;
  file_lattice_constant := (1%Q, 1%Q, 1%Q);
  file_N_orbital := 1;
  file_max_neighbor := 1;
  file_cell := [(0%Q, 0%Q, 0%Q)];
  file_hoppings :=
    [[ {| hop_nx := 1; hop_ny := 0; hop_nz := 0; hop_m_neighbor := 0;
          hop_real := 1%Q; hop_imag := 0%Q |};
       {| hop_nx := 0; hop_ny := 1; hop_nz := 0; hop_m_neighbor := 0;
          hop_real := 1%Q; hop_imag := 0%Q |} ]];
|}.


(** * Properties *)

(** ** The result monad, arrays and loops *)

Lemma bind_Ok {A B} (a : A) (f : A -> result B) : (Ok a ≫= f) = f a.
Proof. reflexivity. Qed.

Lemma bind_Fault {A B} (e : fault) (f : A -> result B) :
  (Fault e ≫= f) = Fault e.
Proof. reflexivity. Qed.

Lemma bind_run {A B} (r : result A) (a : A) (f : A -> result B)
    (b : result B) :
  r = Ok a -> f a = b -> (r ≫= f) = b.
Proof. by intros -> <-. Qed.

Lemma bind_Ok_inv {A B} (r : result A) (f : A -> result B) (b : B) :
  (r ≫= f) = Ok b -> exists a, r = Ok a /\ f a = Ok b.
Proof. destruct r as [a|e]; [eauto | discriminate]. Qed.

Lemma get_Ok {A} (a : list A) (i : Z) (v : A) :
  0 <= i -> a !! Z.to_nat i = Some v -> get a i = Ok v.
Proof. intros Hi Hv. unfold get. rewrite decide_True by done. by rewrite Hv. Qed.

Lemma get_nat {A} (a : list A) (i : nat) (v : A) :
  a !! i = Some v -> get a (Z.of_nat i) = Ok v.
Proof. intros Hv. apply get_Ok; [lia | by rewrite Nat2Z.id]. Qed.

Lemma get_Ok_inv {A} (a : list A) (i : Z) (v : A) :
  get a i = Ok v -> 0 <= i /\ a !! Z.to_nat i = Some v.
Proof.
  unfold get. case_decide; [|discriminate].
  destruct (a !! Z.to_nat i) eqn:E; [|discriminate]. intros [= ->]. done.
Qed.

Lemma get_lt {A} (a : list A) (i : Z) :
  0 <= i < Z.of_nat (length a) -> exists v, get a i = Ok v.
Proof.
  intros Hi. destruct (lookup_lt_is_Some_2 a (Z.to_nat i)) as [v Hv]; [lia|].
  exists v. apply get_Ok; [lia | done].
Qed.

Lemma get_out {A} (a : list A) (i : Z) :
  ~ (0 <= i < Z.of_nat (length a)) ->
  get a i = Fault (OutOfBounds i (length a)).
Proof.
  intros Hi. unfold get. case_decide; [|done].
  rewrite lookup_ge_None_2; [done | lia].
Qed.

Lemma set_Ok {A} (a : list A) (i : Z) (v : A) :
  0 <= i < Z.of_nat (length a) -> set a i v = Ok (<[Z.to_nat i := v]> a).
Proof. intros Hi. unfold set. by rewrite decide_True. Qed.

Lemma set_nat {A} (a : list A) (i : nat) (v : A) :
  (i < length a)%nat -> set a (Z.of_nat i) v = Ok (<[i := v]> a).
Proof. intros Hi. rewrite set_Ok by lia. by rewrite Nat2Z.id. Qed.

Lemma set_out {A} (a : list A) (i : Z) (v : A) :
  ~ (0 <= i < Z.of_nat (length a)) ->
  set a i v = Fault (OutOfBounds i (length a)).
Proof. intros Hi. unfold set. by rewrite decide_False. Qed.

Lemma length_new_array {A} (c : A) (n : Z) :
  length (new_array c n) = Z.to_nat n.
Proof. apply length_replicate. Qed.

(** A loop invariant indexed by the number of iterations made: the loop
    returns, and the invariant holds of what it returns. *)
Lemma for_loop_inv {S} (P : nat -> S -> Prop) (count : nat) (i step : Z)
    (body : Z -> S -> result S) (s : S) :
  P 0%nat s ->
  (forall t s, (t < count)%nat -> P t s ->
     exists s', body (i + Z.of_nat t * step) s = Ok s' /\ P (Datatypes.S t) s') ->
  exists s', for_loop count i step body s = Ok s' /\ P count s'.
Proof.
  revert P i s. induction count as [|count IH]; intros P i s H0 Hstep.
  - exists s. done.
  - destruct (Hstep 0%nat s) as (s1 & Hb & H1); [lia | done |].
    replace (i + Z.of_nat 0 * step) with i in Hb by lia.
    destruct (IH (fun t => P (Datatypes.S t)) (i + step) s1) as (s' & Hl & HP);
      [done | |].
    + intros t s2 Ht HP. destruct (Hstep (Datatypes.S t) s2) as (s3 & Hb3 & H3);
        [lia | done |].
      exists s3. split; [|done]. rewrite <- Hb3. f_equal. lia.
    + exists s'. split; [|done]. simpl. rewrite Hb. done.
Qed.

Lemma for_range_inv {S} (P : nat -> S -> Prop) (hi : Z)
    (body : Z -> S -> result S) (s : S) :
  P 0%nat s ->
  (forall t s, (t < Z.to_nat hi)%nat -> P t s ->
     exists s', body (Z.of_nat t) s = Ok s' /\ P (Datatypes.S t) s') ->
  exists s', for_range 0 hi body s = Ok s' /\ P (Z.to_nat hi) s'.
Proof.
  intros H0 Hstep. unfold for_range. rewrite Z.sub_0_r.
  apply for_loop_inv; [done|].
  intros t s1 Ht HP. destruct (Hstep t s1) as (s' & Hb & HS); [done..|].
  exists s'. split; [|done]. rewrite <- Hb. f_equal. lia.
Qed.

(** [loop_invariant P Hloop] states [for_range_inv] for the loop of the goal
    and the invariant [P]. *)
Ltac loop_invariant P Hloop :=
  cbn zeta;
  match goal with
  | |- context [@for_range ?S 0 ?hi ?body ?s] =>
      pose proof (@for_range_inv S P hi body s) as Hloop
  end.

(** The loop makes [c] iterations and the next one faults. *)
Lemma for_loop_fault {S} (P : nat -> S -> Prop) (count c : nat) (i step : Z)
    (body : Z -> S -> result S) (s : S) (f : fault) :
  (c < count)%nat ->
  P 0%nat s ->
  (forall t s, (t < c)%nat -> P t s ->
     exists s', body (i + Z.of_nat t * step) s = Ok s' /\ P (Datatypes.S t) s') ->
  (forall s, P c s -> body (i + Z.of_nat c * step) s = Fault f) ->
  for_loop count i step body s = Fault f.
Proof.
  revert P count i s. induction c as [|c IH]; intros P count i s Hc H0 Hstep Hf.
  - destruct count as [|count]; [lia|]. simpl.
    specialize (Hf s H0). replace (i + Z.of_nat 0 * step) with i in Hf by lia.
    by rewrite Hf.
  - destruct count as [|count]; [lia|]. simpl.
    destruct (Hstep 0%nat s) as (s1 & Hb & H1); [lia | done |].
    replace (i + Z.of_nat 0 * step) with i in Hb by lia. rewrite Hb. simpl.
    apply (IH (fun t => P (Datatypes.S t))); [lia | done | |].
    + intros t s2 Ht HP. destruct (Hstep (Datatypes.S t) s2) as (s3 & Hb3 & H3);
        [lia | done |].
      exists s3. split; [|done]. rewrite <- Hb3. f_equal. lia.
    + intros s2 HP. rewrite <- (Hf s2 HP). f_equal. lia.
Qed.

(** One step of a copy: the first [t] cells are copied already. *)
Lemma copy_step {A} (src dst : list A) (t : nat) (v : A) :
  src !! t = Some v -> (t < length dst)%nat ->
  <[t := v]> (take t src ++ drop t dst)
  = take (Datatypes.S t) src ++ drop (Datatypes.S t) dst.
Proof.
  intros Hv Ht. pose proof (lookup_lt_Some _ _ _ Hv) as Hs.
  rewrite (take_S_r _ _ _ Hv).
  rewrite insert_app_r_alt by (rewrite length_take; lia).
  rewrite length_take, Nat.min_l by lia. rewrite Nat.sub_diag.
  destruct (drop t dst) as [|d rest] eqn:E.
  { apply (f_equal length) in E. rewrite length_drop in E. simpl in E. lia. }
  simpl. rewrite <- app_assoc. simpl. do 2 f_equal.
  change (Datatypes.S t) with (1 + t)%nat.
  rewrite Nat.add_comm, <- drop_drop, E. done.
Qed.

Lemma length_copy {A} (src dst : list A) (t : nat) :
  (t <= length src)%nat -> (t <= length dst)%nat ->
  length (take t src ++ drop t dst) = length dst.
Proof. intros. rewrite length_app, length_take, length_drop. lia. Qed.

(** [for (i = 0; i < k; ++i) dst[i] = src[i];] *)
Lemma copy_loop {A} (k : Z) (src dst : list A) :
  0 <= k -> (Z.to_nat k <= length src)%nat -> (Z.to_nat k <= length dst)%nat ->
  for_range 0 k (fun i out => v ← get src i; set out i v) dst
  = Ok (take (Z.to_nat k) src ++ drop (Z.to_nat k) dst).
Proof.
  intros Hk Hs Hd.
  destruct (for_range_inv
    (fun t out => out = take t src ++ drop t dst) k
    (fun i out => v ← get src i; set out i v) dst) as (out & Hrun & Hout).
  - by rewrite take_0, drop_0.
  - intros t out Ht ->.
    destruct (lookup_lt_is_Some_2 src t) as [v Hv]; [lia|].
    rewrite (get_nat _ _ _ Hv). rewrite bind_Ok.
    rewrite set_nat by (rewrite length_copy; lia).
    eexists. split; [done|]. apply copy_step; [done | lia].
  - by rewrite Hrun, Hout.
Qed.

(** A copy of a whole array into an array of the same size. *)
Lemma copy_all {A} (src dst : list A) :
  length dst = length src ->
  take (length src) src ++ drop (length src) dst = src.
Proof.
  intros Hlen. rewrite firstn_all, drop_ge by lia. apply app_nil_r.
Qed.

(** ** The forward shuffle *)

Lemma length_swap (i j : nat) (p : list Z) : length (swap i j p) = length p.
Proof.
  unfold swap. destruct (p !! i), (p !! j); try done.
  by rewrite !length_insert.
Qed.

Lemma swap_Permutation (i j : nat) (p : list Z) : swap i j p ≡ₚ p.
Proof.
  unfold swap. destruct (p !! i) eqn:Ei, (p !! j) eqn:Ej; try done.
  by apply Permutation_insert_swap.
Qed.

Lemma length_forward_shuffle (picks : list nat) (i : nat) (p : list Z) :
  length (forward_shuffle i picks p) = length p.
Proof.
  revert i p. induction picks as [|j picks IH]; intros i p; simpl; [done|].
  by rewrite IH, length_swap.
Qed.

Lemma forward_shuffle_Permutation (picks : list nat) (i : nat) (p : list Z) :
  forward_shuffle i picks p ≡ₚ p.
Proof.
  revert i p. induction picks as [|j picks IH]; intros i p; simpl; [done|].
  by rewrite IH, swap_Permutation.
Qed.

Lemma forward_shuffle_snoc (picks : list nat) (j i : nat) (p : list Z) :
  forward_shuffle i (picks ++ [j]) p
  = swap (i + length picks) j (forward_shuffle i picks p).
Proof.
  revert i p. induction picks as [|j' picks IH]; intros i p; simpl.
  - by rewrite Nat.add_0_r.
  - rewrite IH. f_equal. lia.
Qed.

Section RandomNumbers.
Context `{MachineLaws}.

(** Lines 49-52: the identity permutation. *)
Lemma identity_loop (N : Z) :
  0 <= N ->
  for_range 0 N (fun i p => set p i i) (new_array uninit_int N)
  = Ok (seqZ 0 N).
Proof.
  intros HN.
  destruct (for_range_inv
    (fun t p => length p = Z.to_nat N /\ take t p = seqZ 0 (Z.of_nat t)) N
    (fun i p => set p i i) (new_array uninit_int N)) as (p & Hrun & Hlen & Hp).
  - by rewrite length_new_array, take_0.
  - intros t p Ht [Hlen Hp]. rewrite set_nat by lia.
    eexists. split; [done|]. split; [by rewrite length_insert|].
    rewrite (take_S_r _ _ (Z.of_nat t)) by (apply list_lookup_insert_eq; lia).
    rewrite take_insert_ge by lia. rewrite Hp, seqZ_S. done.
  - rewrite Z2Nat.id in Hp by done.
    rewrite Hrun. f_equal. rewrite <- Hp, <- Hlen. by rewrite firstn_all.
Qed.

(** Lines 53-60: the shuffle. *)
Lemma shuffle_loop (N : Z) (g : generator) :
  0 <= N ->
  exists picks g',
    for_range 0 N
      (fun i '(p, g) =>
         let '(r, g) := rand_int g in
         let j := Z.rem r (N - i) + i in
         temp ← get p i;
         pj ← get p j;
         p ← set p i pj;
         p ← set p j temp;
         Ok (p, g))
      (seqZ 0 N, g)
    = Ok (forward_shuffle 0 picks (seqZ 0 N), g')
    /\ length picks = Z.to_nat N
    /\ picks_in_range (Z.to_nat N) picks.
Proof.
  intros HN.
  edestruct (for_range_inv
    (fun t (s : list Z * generator) => exists picks,
       s.1 = forward_shuffle 0 picks (seqZ 0 N)
       /\ length picks = t /\ picks_in_range (Z.to_nat N) picks) N)
    as ([p g'] & Hrun & picks & Hp & Hlen & Hrange);
    [| | simpl in Hp; subst p; exists picks, g'; split; [exact Hrun | done]].
  - exists []. split; [done|]. split; [done|]. intros i j Hij. done.
  - intros t [p0 g1] Ht (picks & Hp0 & Hlen & Hrange). simpl in Hp0. subst p0.
    destruct (rand_int g1) as [r g2] eqn:Hr.
    assert (0 <= r) as Hr0.
    { pose proof (rand_int_range g1) as Hb. rewrite Hr in Hb. simpl in Hb. lia. }
    assert (0 < N - Z.of_nat t) as Hpos by lia.
    pose proof (Z.rem_bound_pos r (N - Z.of_nat t) Hr0 Hpos) as Hrem.
    remember (Z.rem r (N - Z.of_nat t) + Z.of_nat t) as j eqn:Hj.
    set (p := forward_shuffle 0 picks (seqZ 0 N)).
    assert (length p = Z.to_nat N) as Hp
      by (unfold p; by rewrite length_forward_shuffle, length_seqZ).
    destruct (lookup_lt_is_Some_2 p t) as [a Ha]; [lia|].
    destruct (lookup_lt_is_Some_2 p (Z.to_nat j)) as [b Hb]; [lia|].
    cbn zeta.
    rewrite (get_nat _ _ _ Ha), bind_Ok.
    rewrite (get_Ok p j b) by (done || lia). rewrite bind_Ok.
    rewrite set_nat, bind_Ok by lia.
    rewrite set_Ok, bind_Ok by (rewrite length_insert; lia).
    eexists. split; [done|].
    exists (picks ++ [Z.to_nat j]). split; [|split].
    + rewrite forward_shuffle_snoc. simpl. rewrite Hlen.
      unfold swap. fold p. by rewrite Ha, Hb.
    + rewrite length_app. simpl. lia.
    + intros i k Hik. apply lookup_app_Some in Hik as [Hik | [Hi Hik]].
      * by apply Hrange.
      * apply list_lookup_singleton_Some in Hik as [Hi0 <-]. lia.
Qed.

(** What [create_random_numbers] returns: the first [total_number] cells of a
    forward shuffle of [0 .. max_value - 1]. *)
Lemma create_random_numbers_shuffle (N k : Z) (out : list Z) (g : generator) :
  0 <= k <= N -> length out = Z.to_nat k ->
  exists picks g',
    create_random_numbers N k out g
    = Ok (take (Z.to_nat k) (forward_shuffle 0 picks (seqZ 0 N)), g')
    /\ length picks = Z.to_nat N
    /\ picks_in_range (Z.to_nat N) picks.
Proof.
  intros Hk Hout. unfold create_random_numbers.
  rewrite identity_loop, bind_Ok by lia.
  destruct (shuffle_loop N g) as (picks & g' & Hrun & Hlen & Hrange); [lia|].
  cbn zeta in Hrun. rewrite Hrun, bind_Ok. cbn beta iota.
  rewrite copy_loop;
    [| lia | rewrite length_forward_shuffle, length_seqZ; lia | lia].
  rewrite bind_Ok. exists picks, g'. split; [|done].
  rewrite <- Hout, drop_all, app_nil_r. done.
Qed.

End RandomNumbers.


(** ** Marking the vacancies *)

Lemma length_marks (N : Z) (vac : list Z) : length (marks N vac) = Z.to_nat N.
Proof. unfold marks. by rewrite length_fmap, length_seqZ. Qed.

Lemma lookup_marks (N : Z) (vac : list Z) (i : nat) :
  Z.of_nat i < N ->
  marks N vac !! i = Some (if decide (Z.of_nat i ∈ vac) then 1 else 0).
Proof.
  intros Hi. unfold marks. rewrite list_lookup_fmap, lookup_seqZ_lt by done.
  simpl. by rewrite Z.add_0_l.
Qed.

Lemma marks_present (N : Z) (vac : list Z) (k : Z) :
  0 <= k < N -> present (marks N vac) k <-> k ∉ vac.
Proof.
  intros Hk. unfold present. rewrite lookup_marks by lia.
  rewrite Z2Nat.id by lia. case_decide; [|tauto].
  split; [intros [_ [=]] | tauto].
Qed.

(** Lines 78-81. *)
Lemma clear_loop (N : Z) (a : list Z) :
  0 <= N -> length a = Z.to_nat N ->
  for_range 0 N (fun n a => set a n 0) a = Ok (marks N []).
Proof.
  intros HN Ha.
  destruct (for_range_inv
    (fun t b => length b = Z.to_nat N
                /\ forall i, (i < t)%nat -> b !! i = Some 0) N
    (fun n a => set a n 0) a) as (b & Hrun & Hlen & Hb).
  - split; [done | lia].
  - intros t b Ht [Hlen Hb]. rewrite set_nat by lia.
    eexists. split; [done|]. split; [by rewrite length_insert|].
    intros i Hi. destruct (decide (i = t)) as [->|Hne].
    + apply list_lookup_insert_eq. lia.
    + rewrite list_lookup_insert_ne by done. apply Hb. lia.
  - rewrite Hrun. f_equal. apply list_eq. intros i.
    destruct (decide (i < Z.to_nat N)%nat) as [Hi|Hi].
    + rewrite Hb, lookup_marks by lia. rewrite decide_False; [done|].
      apply not_elem_of_nil.
    + rewrite !lookup_ge_None_2; [done | rewrite length_marks; lia | lia].
Qed.

(** Lines 82-85. *)
Lemma mark_loop (N k : Z) (vac : list Z) :
  0 <= N -> 0 <= k -> length vac = Z.to_nat k ->
  Forall (fun v => 0 <= v < N) vac ->
  for_range 0 k (fun n a => v ← get vac n; set a v 1) (marks N [])
  = Ok (marks N vac).
Proof.
  intros HN Hk Hlen Hvac.
  destruct (for_range_inv
    (fun t b => b = marks N (take t vac)) k
    (fun n a => v ← get vac n; set a v 1) (marks N [])) as (b & Hrun & Hb).
  - by rewrite take_0.
  - intros t b Ht ->.
    destruct (lookup_lt_is_Some_2 vac t) as [v Hv]; [lia|].
    rewrite (get_nat _ _ _ Hv), bind_Ok.
    pose proof (Forall_lookup_1 _ _ _ _ Hvac Hv) as Hvr. simpl in Hvr.
    rewrite set_Ok by (rewrite length_marks; lia).
    eexists. split; [done|].
    apply list_eq. intros i.
    destruct (decide (i < Z.to_nat N)%nat) as [Hi|Hi].
    + rewrite (lookup_marks N (take (S t) vac)) by lia.
      rewrite (take_S_r _ _ _ Hv).
      destruct (decide (i = Z.to_nat v)) as [->|Hne].
      * rewrite list_lookup_insert_eq by (rewrite length_marks; lia).
        rewrite decide_True; [done|]. rewrite Z2Nat.id by lia.
        apply elem_of_app. right. by apply list_elem_of_singleton.
      * rewrite list_lookup_insert_ne by done. rewrite lookup_marks by lia.
        repeat case_decide; try done.
        -- exfalso. match goal with H : _ ∉ _ |- _ => apply H end.
           apply elem_of_app. by left.
        -- exfalso.
           match goal with H : _ ∈ _ ++ _ |- _ =>
             apply elem_of_app in H as [?|?%list_elem_of_singleton] end;
             [done | lia].
    + rewrite !lookup_ge_None_2;
        [done | rewrite length_marks; lia
         | rewrite length_insert, length_marks; lia].
  - rewrite Hrun, Hb. by rewrite <- Hlen, firstn_all.
Qed.

Section Vacancies.
Context `{MachineLaws}.

(** [create_random_numbers] returns distinct atoms. *)
Lemma create_random_numbers_distinct (N k : Z) (out : list Z) (g : generator) :
  0 <= k <= N -> length out = Z.to_nat k ->
  exists vac g',
    create_random_numbers N k out g = Ok (vac, g')
    /\ length vac = Z.to_nat k
    /\ NoDup vac
    /\ Forall (fun v => 0 <= v < N) vac.
Proof.
  intros Hk Hout.
  destruct (create_random_numbers_shuffle N k out g Hk Hout)
    as (picks & g' & Hrun & Hlen & Hrange).
  set (perm := forward_shuffle 0 picks (seqZ 0 N)) in *.
  assert (perm ≡ₚ seqZ 0 N) as Hperm by apply forward_shuffle_Permutation.
  exists (take (Z.to_nat k) perm), g'. split; [done|]. split; [|split].
  - rewrite length_take, Hperm, length_seqZ. lia.
  - apply (sublist_NoDup _ perm); [|apply sublist_take].
    rewrite Hperm. apply NoDup_seqZ.
  - apply Forall_take. rewrite Hperm. apply Forall_seqZ. lia.
Qed.

(** What [specify_vacancies] returns: the marks of the atoms drawn by
    [create_random_numbers]. *)
Lemma specify_vacancies_marks (N k : Z) (iv : list Z) (g : generator) :
  0 <= k <= N -> length iv = Z.to_nat N ->
  exists vac g',
    create_random_numbers N k (new_array uninit_int k) g = Ok (vac, g')
    /\ specify_vacancies k iv N g = Ok (marks N vac, g')
    /\ length vac = Z.to_nat k
    /\ NoDup vac
    /\ Forall (fun v => 0 <= v < N) vac.
Proof.
  intros Hk Hiv.
  destruct (create_random_numbers_distinct N k (new_array uninit_int k) g)
    as (vac & g' & Hrun & Hlen & Hnd & Hr); [done | apply length_new_array |].
  exists vac, g'. split; [done|]. split; [|done].
  unfold specify_vacancies. rewrite Hrun, bind_Ok. cbn beta iota.
  rewrite clear_loop, bind_Ok by (done || lia).
  rewrite mark_loop, bind_Ok by (done || lia). done.
Qed.

End Vacancies.

(** ** Renumbering the present atoms *)

Lemma present_below_0 (iv : list Z) : present_below iv 0 = 0%nat.
Proof. done. Qed.

Lemma present_below_S (iv : list Z) (t : nat) (v : Z) :
  iv !! t = Some v ->
  present_below iv (S t)
  = (present_below iv t + if decide (v = 0%Z) then 1 else 0)%nat.
Proof.
  intros Hv. unfold present_below. rewrite (take_S_r _ _ _ Hv), filter_app.
  rewrite length_app. f_equal.
  case_decide.
  - by rewrite filter_cons_True.
  - by rewrite filter_cons_False.
Qed.

Lemma present_below_mono (iv : list Z) (n n' : nat) :
  (n <= n')%nat -> (present_below iv n <= present_below iv n')%nat.
Proof.
  induction 1 as [|n' Hle IH]; [done|].
  destruct (iv !! n') as [v|] eqn:Hv.
  - rewrite (present_below_S _ _ _ Hv). lia.
  - apply lookup_ge_None in Hv.
    assert (take (S n') iv = take n' iv) as E by (by rewrite !take_ge by lia).
    unfold present_below in *. by rewrite E.
Qed.

Lemma present_below_lt (iv : list Z) (n n' : nat) :
  iv !! n = Some 0 -> (n < n')%nat ->
  (present_below iv n < present_below iv n')%nat.
Proof.
  intros Hn Hlt. pose proof (present_below_mono iv (S n) n' Hlt) as Hm.
  rewrite (present_below_S _ _ _ Hn) in Hm. rewrite decide_True in Hm by done.
  lia.
Qed.

(** Every new index below the count belongs to a present atom. *)
Lemma present_below_onto (iv : list Z) (t a : nat) :
  (a < present_below iv t)%nat ->
  exists n, (n < t)%nat /\ iv !! n = Some 0 /\ present_below iv n = a.
Proof.
  induction t as [|t IH]; intros Ha.
  - rewrite present_below_0 in Ha. lia.
  - destruct (iv !! t) as [v|] eqn:Hv.
    + rewrite (present_below_S _ _ _ Hv) in Ha. case_decide as Hz.
      * subst v. destruct (decide (a = present_below iv t)) as [->|Hne].
        -- exists t. split; [lia | done].
        -- destruct IH as (n & Hn & Hp & Hc); [lia|]. exists n.
           split; [lia | done].
      * destruct IH as (n & Hn & Hp & Hc); [lia|]. exists n.
        split; [lia | done].
    + destruct IH as (n & Hn & Hp & Hc).
      * apply lookup_ge_None in Hv.
        assert (take (S t) iv = take t iv) as E by (by rewrite !take_ge by lia).
        unfold present_below in *. by rewrite <- E.
      * exists n. split; [lia | done].
Qed.

Lemma length_filter_fmap {A B} (f : A -> B) (P : B -> Prop)
    `{!forall b, Decision (P b)} (l : list A) :
  length (filter P (f <$> l)) = length (filter (fun a => P (f a)) l).
Proof.
  induction l as [|a l IH]; [done|]. rewrite fmap_cons, !filter_cons.
  case_decide; simpl; by rewrite IH.
Qed.

(** Removing [k] distinct atoms leaves [N - k] of them. *)
Lemma present_below_marks (N : Z) (vac : list Z) :
  0 <= N -> NoDup vac -> Forall (fun v => 0 <= v < N) vac ->
  Z.of_nat (present_below (marks N vac) (Z.to_nat N))
  = N - Z.of_nat (length vac).
Proof.
  intros HN Hnd Hr. unfold present_below.
  rewrite take_ge by (rewrite length_marks; lia).
  unfold marks. rewrite length_filter_fmap.
  pose proof (filter_app_complement (fun n => n ∈ vac) (seqZ 0 N)) as Hc.
  apply Permutation_length in Hc. rewrite length_app, length_seqZ in Hc.
  assert (filter (fun n => n ∈ vac) (seqZ 0 N) ≡ₚ vac) as Hv.
  { apply NoDup_Permutation; [apply NoDup_filter, NoDup_seqZ | done |].
    intros v. rewrite list_elem_of_filter, elem_of_seqZ. split; [tauto|].
    intros Hin. split; [done|].
    pose proof (proj1 (Forall_forall _ _) Hr v Hin). simpl in *. lia. }
  rewrite Hv in Hc.
  erewrite (list_filter_iff _ (fun n => n ∉ vac)).
  - lia.
  - intros n. simpl. case_decide; [|done]. split; [discriminate | done].
Qed.

(** What [find_new_atom_index] returns: a present atom gets the number of
    present atoms before it. *)
Lemma find_new_atom_index_spec (iv nai : list Z) (N : Z) :
  0 <= N -> length iv = Z.to_nat N -> length nai = Z.to_nat N ->
  exists nai',
    find_new_atom_index iv nai N = Ok nai'
    /\ length nai' = Z.to_nat N
    /\ forall n, iv !! n = Some 0 ->
         nai' !! n = Some (Z.of_nat (present_below iv n)).
Proof.
  intros HN Hiv Hnai.
  edestruct (for_range_inv
    (fun t (s : Z * list Z) =>
       s.1 = Z.of_nat (present_below iv t)
       /\ length s.2 = Z.to_nat N
       /\ forall n, (n < t)%nat -> iv !! n = Some 0 ->
            s.2 !! n = Some (Z.of_nat (present_below iv n))) N)
    as ([c a] & Hrun & Hc & Hlen & Ha); [| | ].
  3: { unfold find_new_atom_index. rewrite Hrun, bind_Ok.
       exists a. split; [done|]. split; [done|].
       intros n Hn. apply Ha; [|done].
       apply lookup_lt_Some in Hn. lia. }
  - split; [done|]. split; [exact Hnai | lia].
  - intros t [c a] Ht (Hc & Hlen & Ha). simpl in Hc, Hlen, Ha.
    destruct (lookup_lt_is_Some_2 iv t) as [v Hv]; [lia|].
    rewrite (get_nat _ _ _ Hv), bind_Ok.
    rewrite (present_below_S _ _ _ Hv).
    destruct (decide (v = 0)) as [->|Hne].
    + rewrite set_nat, bind_Ok by lia. eexists. split; [done|]. simpl.
      split; [lia|]. split; [by rewrite length_insert|].
      intros n Hn Hp. destruct (decide (n = t)) as [->|Hnt].
      * rewrite list_lookup_insert_eq by lia. by rewrite Hc.
      * rewrite list_lookup_insert_ne by done. apply Ha; [lia | done].
    + eexists. split; [done|]. simpl. split; [lia|]. split; [done|].
      intros n Hn Hp. destruct (decide (n = t)) as [->|Hnt]; [congruence|].
      apply Ha; [lia | done].
Qed.

(** ** Rows of the neighbor table *)

Lemma length_row {A} (mn : Z) (a : list A) (n len : Z) :
  0 <= len -> 0 <= n * mn -> n * mn + len <= Z.of_nat (length a) ->
  length (row mn a n len) = Z.to_nat len.
Proof.
  intros Hlen Hn Ha. unfold row. rewrite length_take, length_drop. lia.
Qed.

Lemma lookup_row {A} (mn : Z) (a : list A) (n len : Z) (t : nat) :
  0 <= n * mn -> Z.of_nat t < len ->
  row mn a n len !! t = a !! Z.to_nat (n * mn + Z.of_nat t).
Proof.
  intros Hn Ht. unfold row. rewrite lookup_take_lt by lia.
  rewrite lookup_drop. f_equal. lia.
Qed.

Lemma row_0 {A} (mn : Z) (a : list A) (n : Z) : row mn a n 0 = [].
Proof. done. Qed.

(** Writing the slot after the row extends the row. *)
Lemma row_snoc {A} (mn : Z) (a : list A) (n len : Z) (v : A) :
  0 <= len -> 0 <= n * mn -> n * mn + len < Z.of_nat (length a) ->
  row mn (<[Z.to_nat (n * mn + len) := v]> a) n (len + 1)
  = row mn a n len ++ [v].
Proof.
  intros Hlen Hn Ha. unfold row.
  replace (Z.to_nat (len + 1)) with (S (Z.to_nat len)) by lia.
  rewrite drop_insert_ge by lia.
  replace (Z.to_nat (n * mn + len) - Z.to_nat (n * mn))%nat
    with (Z.to_nat len) by lia.
  rewrite (take_S_r _ _ v)
    by (apply list_lookup_insert_eq; rewrite length_drop; lia).
  by rewrite take_insert_ge by lia.
Qed.

(** Writing at or after the end of a row leaves the row as it is. *)
Lemma row_insert_after {A} (mn : Z) (a : list A) (n len : Z) (i : nat) (v : A) :
  0 <= len -> 0 <= n * mn -> (Z.to_nat (n * mn + len) <= i)%nat ->
  row mn (<[i := v]> a) n len = row mn a n len.
Proof.
  intros Hlen Hn Hi. unfold row. rewrite drop_insert_ge by lia.
  by rewrite take_insert_ge by lia.
Qed.

Lemma surviving_nil {A} (iv : list Z) : surviving iv [] (@nil A) = [].
Proof. done. Qed.

Lemma surviving_snoc {A} (iv T : list Z) (X : list A) (k : Z) (v : A) :
  length T = length X ->
  surviving iv (T ++ [k]) (X ++ [v])
  = surviving iv T X ++ if decide (present iv k) then [v] else [].
Proof.
  intros Hlen. unfold surviving.
  rewrite zip_with_app by done. rewrite filter_app, fmap_app. f_equal.
  simpl. rewrite filter_cons. simpl. by case_decide.
Qed.

Lemma length_surviving {A} (iv T : list Z) (X : list A) :
  length T = length X ->
  length (surviving iv T X) = length (filter (present iv) T).
Proof.
  unfold surviving. rewrite length_fmap. revert X.
  induction T as [|k T IH]; intros [|v X]; try done.
  intros [= HX]. cbn [zip_with]. rewrite !filter_cons. cbn [fst].
  case_decide; cbn [length]; by rewrite (IH X).
Qed.

Lemma length_surviving_le {A} (iv T : list Z) (X : list A) :
  (length (surviving iv T X) <= length T)%nat.
Proof.
  unfold surviving. rewrite length_fmap.
  etrans; [apply length_filter|]. rewrite length_zip_with. lia.
Qed.

Lemma surviving_targets (iv T : list Z) :
  surviving iv T T = filter (present iv) T.
Proof.
  unfold surviving. induction T as [|k T IH]; [done|].
  cbn [zip_with]. rewrite !filter_cons. cbn [fst].
  case_decide; cbn [fmap list_fmap snd]; by rewrite <- IH.
Qed.

Lemma row_agree {A} (mn : Z) (a b : list A) (n len : Z) (p : nat) :
  0 <= len -> 0 <= n * mn -> (Z.to_nat (n * mn + len) <= p)%nat ->
  take p a = take p b -> row mn a n len = row mn b n len.
Proof.
  intros Hlen Hn Hp Hab. unfold row.
  apply list_eq. intros i.
  destruct (decide (i < Z.to_nat len)%nat) as [Hi|Hi].
  - rewrite !lookup_take_lt, !lookup_drop by done.
    rewrite <- (lookup_take_lt a p), <- (lookup_take_lt b p) by lia.
    by rewrite Hab.
  - by rewrite !lookup_take_ge by lia.
Qed.

(** ** Compacting the neighbor table *)

Section Compaction.
Context `{Machine}.
Variables (mn N Nnew : Z) (nn nl : list Z) (hr hi xs : list real).
Variables (iv nai : list Z).
Hypothesis Hmn : 0 <= mn.
Hypothesis HN : 0 <= N.
Hypothesis Hnn : length nn = Z.to_nat N.
Hypothesis Hnl : length nl = Z.to_nat (N * mn).
Hypothesis Hhr : length hr = Z.to_nat (N * mn).
Hypothesis Hhi : length hi = Z.to_nat (N * mn).
Hypothesis Hxs : length xs = Z.to_nat (N * mn).
Hypothesis Hcount : Forall (fun c => 0 <= c <= mn) nn.
Hypothesis Htargets : forall n c, nn !! n = Some c ->
  Forall (fun k => 0 <= k < N) (row mn nl (Z.of_nat n) c).
Hypothesis Hiv : length iv = Z.to_nat N.
Hypothesis Hnai : forall n, iv !! n = Some 0 ->
  nai !! n = Some (Z.of_nat (present_below iv n)).
Hypothesis Hnew : Z.of_nat (present_below iv (Z.to_nat N)) = Nnew.

Lemma pristine_slot {A} (src : list A) (n t : nat) (c : Z) :
  length src = Z.to_nat (N * mn) ->
  nn !! n = Some c -> Z.of_nat t < c ->
  exists v, row mn src (Z.of_nat n) c !! t = Some v
            /\ get src (Z.of_nat n * mn + Z.of_nat t) = Ok v.
Proof.
  intros Hsrc Hc Ht.
  pose proof (Forall_lookup_1 _ _ _ _ Hcount Hc) as Hcr. simpl in Hcr.
  apply lookup_lt_Some in Hc.
  destruct (lookup_lt_is_Some_2 src
    (Z.to_nat (Z.of_nat n * mn + Z.of_nat t))) as [v Hv]; [nia|].
  exists v. split.
  - rewrite lookup_row by nia. done.
  - apply get_Ok; [nia | done].
Qed.

(** Lines 164-177. *)
Lemma copy_surviving_hops_spec (n : nat) (c : Z) (a : pair_arrays) :
  nn !! n = Some c -> iv !! n = Some 0 ->
  arrays_length a (Z.to_nat (Nnew * mn)) ->
  let ca := Z.of_nat (present_below iv n) in
  let T := row mn nl (Z.of_nat n) c in
  let cn := Z.of_nat (length (filter (present iv) T)) in
  exists nl' hr' hi' xs',
    copy_surviving_hops mn nn nl hr hi xs iv nai (Z.of_nat n) ca a
    = Ok (cn, (nl', hr', hi', xs'))
    /\ arrays_length (nl', hr', hi', xs') (Z.to_nat (Nnew * mn))
    /\ arrays_agree (nl', hr', hi', xs') a (Z.to_nat (ca * mn))
    /\ row mn nl' ca cn = new_index iv <$> filter (present iv) T
    /\ row mn hr' ca cn = surviving iv T (row mn hr (Z.of_nat n) c)
    /\ row mn hi' ca cn = surviving iv T (row mn hi (Z.of_nat n) c)
    /\ row mn xs' ca cn = surviving iv T (row mn xs (Z.of_nat n) c).
Proof.
  intros Hc Hn Ha ca T cn.
  pose proof (Forall_lookup_1 _ _ _ _ Hcount Hc) as Hcr. simpl in Hcr.
  pose proof (lookup_lt_Some _ _ _ Hc) as HnN.
  assert (ca < Nnew) as Hca.
  { unfold ca. rewrite <- Hnew. apply inj_lt.
    apply present_below_lt; [done | lia]. }
  assert (0 <= ca) as Hca0 by (unfold ca; lia).
  assert (forall {A} (src : list A), length src = Z.to_nat (N * mn) ->
            length (row mn src (Z.of_nat n) c) = Z.to_nat c) as Hrowlen.
  { intros A src Hsrc. apply length_row; nia. }
  unfold copy_surviving_hops. rewrite (get_nat _ _ _ Hc), bind_Ok.
  loop_invariant
    (fun t (s : Z * pair_arrays) =>
       let '(cnt, (nl', hr', hi', xs')) := s in
       cnt = Z.of_nat (length (filter (present iv) (take t T)))
       /\ arrays_length (nl', hr', hi', xs') (Z.to_nat (Nnew * mn))
       /\ arrays_agree (nl', hr', hi', xs') a (Z.to_nat (ca * mn))
       /\ row mn nl' ca cnt = new_index iv <$> filter (present iv) (take t T)
       /\ row mn hr' ca cnt
          = surviving iv (take t T) (take t (row mn hr (Z.of_nat n) c))
       /\ row mn hi' ca cnt
          = surviving iv (take t T) (take t (row mn hi (Z.of_nat n) c))
       /\ row mn xs' ca cnt
          = surviving iv (take t T) (take t (row mn xs (Z.of_nat n) c)))
    Hloop.
  destruct Hloop as ([cnt [[[nl' hr'] hi'] xs']] & Hrun & Hinv).
  3: { destruct Hinv as (-> & Hlen & Hagree & Hrl & Hrh & Hri & Hrx).
       assert (forall {A} (src : list A), length src = Z.to_nat (N * mn) ->
                 take (Z.to_nat c) (row mn src (Z.of_nat n) c)
                 = row mn src (Z.of_nat n) c) as Hfull.
       { intros A src Hsrc. apply take_ge. rewrite Hrowlen by done. lia. }
       pose proof (Hfull _ nl Hnl) as HT. fold T in HT.
       rewrite HT in Hrl, Hrh, Hri, Hrx, Hrun.
       rewrite (Hfull _ hr Hhr) in Hrh. rewrite (Hfull _ hi Hhi) in Hri.
       rewrite (Hfull _ xs Hxs) in Hrx.
       exists nl', hr', hi', xs'. split; [exact Hrun | done]. }
  - destruct a as [[[nl0 hr0] hi0] xs0]. rewrite !take_0. simpl.
    split; [done|]. split; [done|]. split; [done|]. by rewrite !row_0.
  - intros t [cnt [[[nl' hr'] hi'] xs']] Ht
      (-> & Hlen & Hagree & Hrl & Hrh & Hri & Hrx).
    destruct (pristine_slot nl n t c Hnl Hc ltac:(lia)) as (k & HTk & Hgk).
    destruct (pristine_slot hr n t c Hhr Hc ltac:(lia)) as (vr & Hvr & Hgr).
    destruct (pristine_slot hi n t c Hhi Hc ltac:(lia)) as (vi & Hvi & Hgi).
    destruct (pristine_slot xs n t c Hxs Hc ltac:(lia)) as (vx & Hvx & Hgx).
    fold T in HTk.
    pose proof (Forall_lookup_1 _ _ _ _ (Htargets n c Hc) HTk) as Hk.
    simpl in Hk.
    destruct (lookup_lt_is_Some_2 iv (Z.to_nat k)) as [vk Hvk]; [lia|].
    cbn zeta. rewrite Hgk, bind_Ok.
    rewrite (get_Ok iv k vk) by (lia || done). rewrite bind_Ok.
    rewrite (take_S_r T t k HTk), filter_app, length_app.
    rewrite (take_S_r _ t vr Hvr), (take_S_r _ t vi Hvi), (take_S_r _ t vx Hvx).
    rewrite !surviving_snoc by (rewrite !length_take; unfold T;
                               rewrite !Hrowlen by done; lia).
    rewrite fmap_app, filter_cons, filter_nil.
    set (cnt := length (filter (present iv) (take t T))) in *.
    assert (cnt <= t)%nat as Hcnt.
    { unfold cnt. etrans; [apply length_filter|]. rewrite length_take. lia. }
    destruct Hlen as (Hl1 & Hl2 & Hl3 & Hl4).
    destruct a as [[[nl0 hr0] hi0] xs0].
    destruct Hagree as (Ha1 & Ha2 & Ha3 & Ha4).
    destruct (decide (vk = 0)) as [->|Hvk0].
    + destruct (decide (present iv k)) as [_|Hnp];
        [|exfalso; apply Hnp; split; [lia | done]].
      rewrite (get_Ok nai k _ ltac:(lia) (Hnai _ Hvk)), bind_Ok.
      rewrite set_Ok, bind_Ok by nia. rewrite Hgr, bind_Ok.
      rewrite set_Ok, bind_Ok by nia. rewrite Hgi, bind_Ok.
      rewrite set_Ok, bind_Ok by nia. rewrite Hgx, bind_Ok.
      rewrite set_Ok, bind_Ok by nia.
      eexists. split; [done|]. cbn beta iota.
      split; [simpl; lia|].
      split; [unfold arrays_length; by rewrite !length_insert|].
      split.
      { unfold arrays_agree. rewrite !take_insert_ge by nia. done. }
      replace (Z.of_nat (cnt + length [k])) with (Z.of_nat cnt + 1)
        by (simpl; lia).
      rewrite !row_snoc by nia. rewrite Hrl, Hrh, Hri, Hrx. done.
    + destruct (decide (present iv k)) as [[_ E]|_]; [congruence|].
      eexists. split; [done|]. cbn beta iota.
      rewrite !app_nil_r, Nat.add_0_r. done.
Qed.

(** Lines 158-181. *)
Lemma compaction_loop (nn0 : list Z) (a0 : pair_arrays) :
  length nn0 = Z.to_nat Nnew ->
  arrays_length a0 (Z.to_nat (Nnew * mn)) ->
  exists cnt nn' a',
    for_range 0 N
      (fun n '(count_atom, nn', arrays) =>
         v ← get iv n;
         if decide (v = 0)
         then
           '(count_neighbor, arrays) ← copy_surviving_hops mn
             nn nl hr hi xs iv nai n count_atom arrays;
           nn' ← set nn' count_atom count_neighbor;
           Ok (count_atom + 1, nn', arrays)
         else Ok (count_atom, nn', arrays))
      (0, nn0, a0)
    = Ok (cnt, nn', a')
    /\ length nn' = Z.to_nat Nnew
    /\ arrays_length a' (Z.to_nat (Nnew * mn))
    /\ forall n c, nn !! n = Some c -> iv !! n = Some 0 ->
         row_compacted mn iv nl hr hi xs nn' a' (Z.of_nat n) c.
Proof.
  intros Hnn0 Ha0.
  loop_invariant
    (fun t (s : Z * list Z * pair_arrays) =>
       let '(cnt, nn', a') := s in
       cnt = Z.of_nat (present_below iv t)
       /\ length nn' = Z.to_nat Nnew
       /\ arrays_length a' (Z.to_nat (Nnew * mn))
       /\ forall n c, (n < t)%nat -> nn !! n = Some c -> iv !! n = Some 0 ->
            row_compacted mn iv nl hr hi xs nn' a' (Z.of_nat n) c) Hloop.
  destruct Hloop as ([[cnt nn'] a'] & Hrun & Hcnt & Hlen & Harr & Hrows).
  3: { exists cnt, nn', a'. split; [exact Hrun|]. split; [done|].
       split; [done|]. intros n c Hc Hn. apply Hrows; [|done..].
       apply lookup_lt_Some in Hc. lia. }
  - split; [done|]. split; [done|]. split; [done|]. intros n c Hn. lia.
  - intros t [[cnt nn'] a'] Ht (-> & Hlen & Harr & Hrows).
    destruct (lookup_lt_is_Some_2 iv t) as [v Hv]; [lia|].
    rewrite (get_nat _ _ _ Hv), bind_Ok.
    rewrite (present_below_S _ _ _ Hv).
    destruct (decide (v = 0)) as [->|Hv0].
    + destruct (lookup_lt_is_Some_2 nn t) as [c Hc]; [lia|].
      destruct (copy_surviving_hops_spec t c a' Hc Hv Harr)
        as (nl' & hr' & hi' & xs' & Hcopy & Harr' & Hagree & Hnew4).
      rewrite Hcopy, bind_Ok. cbn beta iota.
      assert (present_below iv t < present_below iv (Z.to_nat N))%nat as Hlt
        by (apply present_below_lt; [done | lia]).
      rewrite set_nat, bind_Ok by lia.
      eexists. split; [done|]. cbn beta iota.
      split; [lia|]. split; [by rewrite length_insert|]. split; [done|].
      intros n c' Hn Hc' Hpn.
      destruct (decide (n = t)) as [->|Hne].
      * assert (c' = c) as -> by congruence.
        unfold row_compacted, new_index. rewrite !Nat2Z.id.
        split; [apply list_lookup_insert_eq; lia | exact Hnew4].
      * assert (n < t)%nat as Hnt by lia.
        pose proof (present_below_lt iv n t Hpn Hnt) as Hbelow.
        specialize (Hrows n c' Hnt Hc' Hpn).
        pose proof (Forall_lookup_1 _ _ _ _ Hcount Hc') as Hcr. simpl in Hcr.
        destruct a' as [[[nl0 hr0] hi0] xs0].
        unfold row_compacted, new_index in *. rewrite !Nat2Z.id in *.
        destruct Hrows as (Hr0 & Hr1 & Hr2 & Hr3 & Hr4).
        destruct Hagree as (Ha1 & Ha2 & Ha3 & Ha4).
        set (T := row mn nl (Z.of_nat n) c') in *.
        assert (length (filter (present iv) T) <= Z.to_nat c')%nat as Hle.
        { etrans; [apply length_filter|]. unfold T, row.
          rewrite length_take. lia. }
        split; [rewrite list_lookup_insert_ne by lia; done|].
        rewrite <- Hr1, <- Hr2, <- Hr3, <- Hr4.
        split; [|split; [|split]];
          apply (row_agree _ _ _ _ _ (Z.to_nat (Z.of_nat (present_below iv t) * mn)));
          (done || nia).
    + eexists. split; [done|]. cbn beta iota.
      split; [lia|]. split; [done|]. split; [done|].
      intros n c' Hn Hc' Hpn.
      destruct (decide (n = t)) as [->|Hne]; [congruence|].
      apply Hrows; [lia | done..].
Qed.

End Compaction.

Section AddVacancies.
Context `{MachineLaws}.

(** Lines 122-128: the four per-pair arrays are copied. *)
Lemma copy_pairs_loop (P : Z) (nl : list Z) (hr hi xs : list real)
    (nl0 : list Z) (hr0 hi0 xs0 : list real) :
  0 <= P ->
  arrays_length (nl, hr, hi, xs) (Z.to_nat P) ->
  arrays_length (nl0, hr0, hi0, xs0) (Z.to_nat P) ->
  for_range 0 P
    (fun m '(nl', hr', hi', xs') =>
       v ← get nl m; nl' ← set nl' m v;
       v ← get hr m; hr' ← set hr' m v;
       v ← get hi m; hi' ← set hi' m v;
       v ← get xs m; xs' ← set xs' m v;
       Ok (nl', hr', hi', xs'))
    (nl0, hr0, hi0, xs0)
  = Ok (nl, hr, hi, xs).
Proof.
  intros HP (Hl1 & Hl2 & Hl3 & Hl4) (Hd1 & Hd2 & Hd3 & Hd4).
  loop_invariant
    (fun t (s : pair_arrays) =>
       s = (take t nl ++ drop t nl0, take t hr ++ drop t hr0,
            take t hi ++ drop t hi0, take t xs ++ drop t xs0)) Hloop.
  destruct Hloop as (s & Hrun & ->).
  - by rewrite !take_0, !drop_0.
  - intros t s Ht ->.
    destruct (lookup_lt_is_Some_2 nl t) as [v1 Hv1]; [lia|].
    destruct (lookup_lt_is_Some_2 hr t) as [v2 Hv2]; [lia|].
    destruct (lookup_lt_is_Some_2 hi t) as [v3 Hv3]; [lia|].
    destruct (lookup_lt_is_Some_2 xs t) as [v4 Hv4]; [lia|].
    rewrite (get_nat _ _ _ Hv1), bind_Ok.
    rewrite set_nat, bind_Ok by (rewrite length_copy; lia).
    rewrite (get_nat _ _ _ Hv2), bind_Ok.
    rewrite set_nat, bind_Ok by (rewrite length_copy; lia).
    rewrite (get_nat _ _ _ Hv3), bind_Ok.
    rewrite set_nat, bind_Ok by (rewrite length_copy; lia).
    rewrite (get_nat _ _ _ Hv4), bind_Ok.
    rewrite set_nat, bind_Ok by (rewrite length_copy; lia).
    eexists. split; [done|].
    rewrite !copy_step by (done || lia). done.
  - rewrite Hrun. rewrite <- Hl1 at 1 2. rewrite <- Hl2 at 1 2.
    rewrite <- Hl3 at 1 2. rewrite <- Hl4 at 1 2.
    rewrite !copy_all by lia. done.
Qed.

Lemma row_compacted_atom (iv : list Z) (pristine m : Model) (n : Z) :
  max_neighbor m = max_neighbor pristine ->
  row_compacted (max_neighbor pristine) iv (neighbor_list pristine)
    (hopping_real pristine) (hopping_imag pristine) (xx pristine)
    (neighbor_number m)
    (neighbor_list m, hopping_real m, hopping_imag m, xx m)
    n (hop_count pristine n) ->
  compacted_atom iv pristine m n.
Proof.
  intros Hmn (Hc & Hl & Hr & Hi & Hx).
  unfold compacted_atom, targets, hop_values.
  assert (hop_count m (new_index iv n)
          = Z.of_nat (length (filter (present iv)
              (row (max_neighbor pristine) (neighbor_list pristine) n
                 (hop_count pristine n))))) as Hcount
    by (unfold hop_count at 1; by apply list_lookup_total_correct).
  rewrite Hcount, Hmn. done.
Qed.

(** What [add_vacancies] returns when [k] of the [N] atoms are removed. *)
Lemma add_vacancies_spec (k : Z) (model : Model) (g : generator) :
  well_formed model -> 0 <= k <= number_of_atoms model ->
  let N := number_of_atoms model in
  exists vac g' model',
    specify_vacancies k (new_array uninit_int N) N g = Ok (marks N vac, g')
    /\ add_vacancies k model g = Ok (model', g')
    /\ length vac = Z.to_nat k /\ NoDup vac
    /\ Forall (fun v => 0 <= v < N) vac
    /\ number_of_atoms model' = N - k
    /\ max_neighbor model' = max_neighbor model
    /\ number_of_pairs model' = (N - k) * max_neighbor model
    /\ length (neighbor_number model') = Z.to_nat (N - k)
    /\ arrays_length
         (neighbor_list model', hopping_real model', hopping_imag model',
          xx model')
         (Z.to_nat ((N - k) * max_neighbor model))
    /\ forall n, 0 <= n < N -> n ∉ vac ->
         compacted_atom (marks N vac) model model' n.
Proof.
  intros (HN & Hmn & Hpairs & Hnn & Hnl & Hhr & Hhi & Hxs & Hcount & Htar)
    Hk N.
  subst N. set (N := number_of_atoms model) in *.
  destruct (specify_vacancies_marks N k (new_array uninit_int N) g)
    as (vac & g' & _ & Hspec & Hlen & Hnd & Hrange);
    [done | apply length_new_array |].
  destruct (find_new_atom_index_spec (marks N vac) (new_array uninit_int N) N)
    as (nai & Hfind & Hnailen & Hnai);
    [done | apply length_marks | apply length_new_array |].
  assert (Z.of_nat (present_below (marks N vac) (Z.to_nat N)) = N - k)
    as Hnew by (rewrite present_below_marks by done; lia).
  rewrite Hpairs in Hnl, Hhr, Hhi, Hxs.
  destruct (compaction_loop (max_neighbor model) N (N - k)
    (neighbor_number model) (neighbor_list model) (hopping_real model)
    (hopping_imag model) (xx model) (marks N vac) nai
    Hmn HN Hnn Hnl Hhr Hhi Hxs Hcount)
    with (nn0 := new_array uninit_int (N - k))
         (a0 := (new_array uninit_int ((N - k) * max_neighbor model),
                 new_array uninit_real ((N - k) * max_neighbor model),
                 new_array uninit_real ((N - k) * max_neighbor model),
                 new_array uninit_real ((N - k) * max_neighbor model)))
    as (cnt & nn' & [[[nl' hr'] hi'] xs'] & Hloop & Hnn' & Harr' & Hrows).
  { intros n c Hc.
    pose proof (proj1 (Forall_seqZ _ _ _) Htar (Z.of_nat n)) as Hrow.
    apply lookup_lt_Some in Hc as Hlt.
    unfold targets, hop_count in Hrow. rewrite Nat2Z.id in Hrow.
    rewrite (list_lookup_total_correct _ _ _ Hc) in Hrow. apply Hrow.
    fold N. lia. }
  { apply length_marks. }
  { done. }
  { done. }
  { apply length_new_array. }
  { unfold arrays_length. by rewrite !length_new_array. }
  exists vac, g'. eexists. split; [exact Hspec|].
  split.
  { unfold add_vacancies. fold N. rewrite Hpairs. fold N.
    rewrite copy_loop by (rewrite ?length_new_array; lia).
    rewrite bind_Ok.
    rewrite (copy_pairs_loop (N * max_neighbor model)); cycle 1.
    { fold N in HN; nia. }
    { done. }
    { unfold arrays_length. by rewrite !length_new_array. }
    rewrite bind_Ok. cbn beta iota zeta.
    rewrite Hspec, bind_Ok. cbn beta iota.
    rewrite Hfind, bind_Ok.
    rewrite <- Hnn. rewrite copy_all by (rewrite length_new_array; lia).
    eapply bind_run; [exact Hloop|]. cbn beta iota. reflexivity. }
  simpl.
  split; [done|]. split; [done|]. split; [done|]. split; [done|].
  split; [done|]. split; [done|]. split; [done|]. split; [done|].
  intros n Hn Hvac. apply row_compacted_atom; [done|]. simpl.
  destruct (lookup_lt_is_Some_2 (neighbor_number model) (Z.to_nat n))
    as [c Hc]; [fold N; lia|].
  unfold hop_count. rewrite (list_lookup_total_correct _ _ _ Hc).
  rewrite <- (Z2Nat.id n) by lia. apply Hrows; [done|].
  rewrite lookup_marks by lia. rewrite decide_False; [done|].
  by rewrite Z2Nat.id by lia.
Qed.

End AddVacancies.


(** ** The concrete platform obeys the contract of the distribution *)

#[global] Instance lcg_laws : @MachineLaws Q_real lcg_machine.
Proof.
  intros g. simpl. unfold lcg_next, INT_MAX.
  pose proof (Z.mod_pos_bound (g * 1103515245 + 12345) 2147483648). lia.
Qed.

(** ** Sampling without replacement *)

Section Sampling.
Context `{MachineLaws}.

(** C7. For [0 < k <= N], [create_random_numbers N k out] returns, and what it
    writes to [out] is the first [k] cells of a permutation of [0 .. N-1] built
    by a forward shuffle whose pick for position [i] lies in [[i, N)]: [k]
    pairwise distinct indices of [[0, N)]. *)
Theorem create_random_numbers_without_replacement
    (N k : Z) (out : list Z) (g : generator) :
  0 < k <= N -> length out = Z.to_nat k ->
  exists picks g',
    let perm := forward_shuffle 0 picks (seqZ 0 N) in
    create_random_numbers N k out g = Ok (take (Z.to_nat k) perm, g')
    /\ length picks = Z.to_nat N
    /\ picks_in_range (Z.to_nat N) picks
    /\ perm ≡ₚ seqZ 0 N
    /\ length (take (Z.to_nat k) perm) = Z.to_nat k
    /\ NoDup (take (Z.to_nat k) perm)
    /\ Forall (fun v => 0 <= v < N) (take (Z.to_nat k) perm).
Proof.
  intros Hk Hout.
  destruct (create_random_numbers_shuffle N k out g) as
    (picks & g' & Hrun & Hlen & Hrange); [lia | done |].
  exists picks, g'. cbn zeta.
  set (perm := forward_shuffle 0 picks (seqZ 0 N)) in *.
  assert (perm ≡ₚ seqZ 0 N) as Hperm by apply forward_shuffle_Permutation.
  split; [done|]. split; [done|]. split; [done|]. split; [done|].
  split; [|split].
  - rewrite length_take, Hperm, length_seqZ. lia.
  - apply (sublist_NoDup _ perm); [|apply sublist_take].
    rewrite Hperm. apply NoDup_seqZ.
  - apply Forall_take. rewrite Hperm. apply Forall_seqZ. lia.
Qed.

(** For [N < k] the copy of the first [k] cells reads [permuted_numbers[N]]. *)
Lemma create_random_numbers_out_of_bounds
    (N k : Z) (out : list Z) (g : generator) :
  0 <= N < k -> length out = Z.to_nat k ->
  create_random_numbers N k out g = Fault (OutOfBounds N (Z.to_nat N)).
Proof.
  intros Hk Hout. unfold create_random_numbers.
  rewrite identity_loop, bind_Ok by lia.
  destruct (shuffle_loop N g) as (picks & g' & Hrun & Hlen & Hrange); [lia|].
  cbn zeta in Hrun. rewrite Hrun, bind_Ok. cbn beta iota.
  set (perm := forward_shuffle 0 picks (seqZ 0 N)).
  assert (length perm = Z.to_nat N) as Hperm
    by (unfold perm; by rewrite length_forward_shuffle, length_seqZ).
  unfold for_range.
  rewrite (for_loop_fault
    (fun t o => length o = Z.to_nat k) _ (Z.to_nat N) 0 1 _ out
    (OutOfBounds N (Z.to_nat N))); [done | lia | done | |].
  - intros t o Ht Ho.
    destruct (lookup_lt_is_Some_2 perm t) as [v Hv]; [lia|].
    replace (0 + Z.of_nat t * 1) with (Z.of_nat t) by lia.
    rewrite (get_nat _ _ _ Hv), bind_Ok. rewrite set_nat by lia.
    eexists. split; [done|]. by rewrite length_insert.
  - intros o Ho. replace (0 + Z.of_nat (Z.to_nat N) * 1) with N by lia.
    rewrite get_out by lia. by rewrite Hperm.
Qed.

End Sampling.

(** Five atoms, two of them drawn. *)
Lemma create_random_numbers_without_replacement_witness :
  exists picks g',
    let perm := forward_shuffle 0 picks (seqZ 0 5) in
    create_random_numbers 5 2 [uninit_int; uninit_int] (1 : generator)
    = Ok (take 2 perm, g')
    /\ length picks = 5%nat
    /\ picks_in_range 5 picks
    /\ perm ≡ₚ seqZ 0 5
    /\ length (take 2 perm) = 2%nat
    /\ NoDup (take 2 perm)
    /\ Forall (fun v => 0 <= v < 5) (take 2 perm).
Proof.
  apply (create_random_numbers_without_replacement
           (H1 := lcg_laws) 5 2 [uninit_int; uninit_int] 1);
    [lia | reflexivity].
Defined.

(** ** Bounds of the vacancy construction *)

Lemma returns_Ok {A} (r : result A) (a : A) : r = Ok a -> returns r.
Proof. by intros ->. Qed.

Lemma returns_bind {A B} (r : result A) (f : A -> result B) :
  returns (r ≫= f) -> returns r.
Proof. by destruct r. Qed.

Section VacancyBounds.
Context `{MachineLaws}.

(** [verify_parameters] looks at the sign of [number_of_vacancies] only. *)
Lemma verify_parameters_vacancies (p : Parameters) (k' : Z) :
  0 < number_of_vacancies p -> 0 < k' ->
  returns (verify_parameters p) ->
  returns (verify_parameters (with_number_of_vacancies p k')).
Proof.
  intros Hk Hk'. unfold verify_parameters, with_number_of_vacancies. simpl.
  rewrite (bool_decide_false (number_of_vacancies p <= 0)) by lia.
  rewrite (bool_decide_false (k' <= 0)) by lia.
  destruct (use_lattice_model p), (has_vacancy_disorder p);
    repeat match goal with
           | |- context [fatal_if ?b] => destruct b; simpl; try done
           end.
Qed.

Lemma verify_parameters_positive (p : Parameters) :
  use_lattice_model p = true -> has_vacancy_disorder p = true ->
  returns (verify_parameters p) -> 0 < number_of_vacancies p.
Proof.
  intros Hl Hv. unfold verify_parameters. rewrite Hl, Hv.
  destruct (decide (number_of_vacancies p <= 0)) as [Hle|]; [|lia].
  rewrite (bool_decide_true _ Hle).
  destruct (calculate_spin p); simpl; done.
Qed.

(** C10. Under [0 < k < N] every subscript of [create_random_numbers]
    ([permuted_numbers] of [N] cells, the output of [k] cells) and of
    [specify_vacancies] ([is_vacancy] of [N] cells, [vacancy_indices] of [k]
    cells) is in bounds: both return.  [verify_parameters] checks
    [number_of_vacancies > 0] and no upper bound, and with more vacancies than
    atoms [permuted_numbers[N]] is read: the bound on [k] is a hypothesis. *)
Theorem vacancy_construction_in_bounds
    (N k : Z) (is_vacancy : list Z) (g : generator) :
  0 < k < N -> length is_vacancy = Z.to_nat N ->
  returns (create_random_numbers N k (new_array uninit_int k) g)
  /\ returns (specify_vacancies k is_vacancy N g)
  /\ (forall p : Parameters,
        use_lattice_model p = true -> has_vacancy_disorder p = true ->
        returns (verify_parameters p) -> 0 < number_of_vacancies p)
  /\ (forall (p : Parameters) (k' : Z),
        0 < number_of_vacancies p -> 0 < k' ->
        returns (verify_parameters p) ->
        returns (verify_parameters (with_number_of_vacancies p k')))
  /\ (forall k', N < k' ->
        specify_vacancies k' is_vacancy N g
        = Fault (OutOfBounds N (Z.to_nat N))).
Proof.
  intros Hk Hiv.
  destruct (specify_vacancies_marks N k is_vacancy g)
    as (vac & g' & Hrun & Hspec & _); [lia | done |].
  split; [by rewrite Hrun|]. split; [by rewrite Hspec|].
  split; [apply verify_parameters_positive|].
  split; [apply verify_parameters_vacancies|].
  intros k' Hk'. unfold specify_vacancies.
  rewrite create_random_numbers_out_of_bounds;
    [done | lia | apply length_new_array].
Qed.

End VacancyBounds.

(** Two vacancies among five atoms. *)
Lemma vacancy_construction_in_bounds_witness :
  returns (create_random_numbers 5 2 (new_array uninit_int 2) (1 : generator))
  /\ returns (specify_vacancies 2 (new_array uninit_int 5) 5 (1 : generator)).
Proof.
  destruct (vacancy_construction_in_bounds (H1 := lcg_laws)
              5 2 (new_array uninit_int 5) 1) as (Hc & Hs & _);
    [lia | reflexivity |].
  split; [exact Hc | exact Hs].
Defined.

(** ** The compacted model *)

Section Compacted.
Context `{MachineLaws}.

Lemma length_targets (m : Model) (n : Z) :
  well_formed m -> 0 <= n < number_of_atoms m ->
  length (targets m n) = Z.to_nat (hop_count m n)
  /\ 0 <= hop_count m n <= max_neighbor m.
Proof.
  intros (HN & Hmn & Hpairs & Hnn & Hnl & _ & _ & _ & Hcount & _) Hn.
  destruct (lookup_lt_is_Some_2 (neighbor_number m) (Z.to_nat n))
    as [c Hc]; [lia|].
  pose proof (Forall_lookup_1 _ _ _ _ Hcount Hc) as Hcr. simpl in Hcr.
  unfold targets, hop_count. rewrite (list_lookup_total_correct _ _ _ Hc).
  split; [|done]. apply length_row; [lia | nia | nia].
Qed.

(** A present target gets a new index below the new number of atoms. *)
Lemma new_index_bound (N : Z) (vac : list Z) (t : Z) :
  0 <= N -> NoDup vac -> Forall (fun v => 0 <= v < N) vac ->
  present (marks N vac) t ->
  0 <= new_index (marks N vac) t < N - Z.of_nat (length vac).
Proof.
  intros HN Hnd Hr [Ht Hp].
  pose proof (lookup_lt_Some _ _ _ Hp) as Hlt. rewrite length_marks in Hlt.
  rewrite <- present_below_marks by done. unfold new_index.
  split; [lia|]. apply inj_lt. apply present_below_lt; [done | lia].
Qed.

(** Every atom of the compacted model is a present atom of the pristine one. *)
Lemma new_index_onto (N : Z) (vac : list Z) (a : Z) :
  0 <= N -> NoDup vac -> Forall (fun v => 0 <= v < N) vac ->
  0 <= a < N - Z.of_nat (length vac) ->
  exists n, 0 <= n < N /\ (n ∉ vac) /\ new_index (marks N vac) n = a.
Proof.
  intros HN Hnd Hr Ha. rewrite <- present_below_marks in Ha by done.
  destruct (present_below_onto (marks N vac) (Z.to_nat N) (Z.to_nat a))
    as (n & Hn & Hp & Hc); [lia|].
  exists (Z.of_nat n). split; [lia|]. split.
  - apply (marks_present N); [lia|]. split; [lia|]. by rewrite Nat2Z.id.
  - unfold new_index. rewrite Nat2Z.id, Hc. lia.
Qed.



End Compacted.

Lemma square_model_well_formed : well_formed square_model.
Proof. apply (bool_decide_unpack _). vm_compute. reflexivity. Qed.




(** ** Reading lattice.in *)

(** [for (n = 0; n < N; ++n) a[n] = v;] *)
Lemma fill_loop {A} (N : Z) (v : A) (a : list A) :
  length a = Z.to_nat N ->
  for_range 0 N (fun n a => set a n v) a = Ok (replicate (Z.to_nat N) v).
Proof.
  intros Ha.
  loop_invariant
    (fun t (b : list A) => length b = Z.to_nat N
                           /\ take t b = replicate t v) Hloop.
  destruct Hloop as (b & Hrun & Hlen & Hb).
  - by rewrite take_0.
  - intros t b Ht [Hlen Hb]. rewrite set_nat by lia.
    eexists. split; [done|]. split; [by rewrite length_insert|].
    rewrite (take_S_r _ _ v) by (apply list_lookup_insert_eq; lia).
    rewrite take_insert_ge by lia. rewrite Hb.
    by rewrite replicate_S_end.
  - rewrite Hrun. f_equal. rewrite <- Hb, <- Hlen. by rewrite firstn_all.
Qed.

Lemma input_item_nat {A} (l : list A) (i : nat) (v : A) :
  l !! i = Some v -> input_item l (Z.of_nat i) = Ok v.
Proof. intros Hv. unfold input_item. by rewrite Nat2Z.id, Hv. Qed.

Section ReadCell.
Context `{Real}.

(** Lines 459-466: the offsets of the orbitals. *)
Lemma cell_loop (No : Z) (cells : list (real * real * real)) :
  length cells = Z.to_nat No ->
  for_range 0 No
    (fun n '(xc, yc, zc) =>
       '(cx, cy, cz) ← input_item cells n;
       xc ← set xc n cx;
       yc ← set yc n cy;
       zc ← set zc n cz;
       Ok (xc, yc, zc))
    (new_array r_zero No, new_array r_zero No, new_array r_zero No)
  = Ok ((fun c => c.1.1) <$> cells, (fun c => c.1.2) <$> cells,
        (fun c => c.2) <$> cells).
Proof.
  intros Hlen.
  loop_invariant
    (fun t (s : list real * list real * list real) =>
       s = (((fun c => c.1.1) <$> take t cells) ++ replicate (Z.to_nat No - t) r_zero,
            ((fun c => c.1.2) <$> take t cells) ++ replicate (Z.to_nat No - t) r_zero,
            ((fun c => c.2) <$> take t cells) ++ replicate (Z.to_nat No - t) r_zero))
    Hloop.
  destruct Hloop as (s & Hrun & ->).
  - rewrite take_0, Nat.sub_0_r. done.
  - intros t s Ht ->.
    destruct (lookup_lt_is_Some_2 cells t) as [[[cx cy] cz] Hc]; [lia|].
    rewrite (input_item_nat _ _ _ Hc), bind_Ok. cbn beta iota.
    assert (forall f : real * real * real -> real,
      length ((f <$> take t cells) ++ replicate (Z.to_nat No - t) r_zero)
      = Z.to_nat No) as Hl.
    { intros f. rewrite length_app, length_fmap, length_take,
        length_replicate. lia. }
    rewrite !set_nat, !bind_Ok by (rewrite Hl; lia).
    eexists. split; [done|].
    rewrite (take_S_r _ _ _ Hc), !fmap_app. simpl.
    replace (Z.to_nat No - t)%nat with (S (Z.to_nat No - S t)) by lia.
    simpl. rewrite <- !app_assoc. simpl.
    rewrite !insert_app_r_alt by (rewrite length_fmap, length_take; lia).
    rewrite !length_fmap, !length_take.
    replace (t - t `min` length cells)%nat with 0%nat by lia. done.
  - rewrite Hrun. rewrite <- Hlen, firstn_all, Nat.sub_diag. simpl.
    by rewrite !app_nil_r.
Qed.

End ReadCell.

Lemma set2_Ok {A} (hd : list (list A)) (r : nat) (row : list A)
    (c : Z) (v : A) :
  hd !! r = Some row -> 0 <= c < Z.of_nat (length row) ->
  set2 hd (Z.of_nat r) c v = Ok (<[r := <[Z.to_nat c := v]> row]> hd).
Proof.
  intros Hr Hc. unfold set2. rewrite (get_nat _ _ _ Hr), bind_Ok.
  rewrite set_Ok, bind_Ok by done.
  apply set_nat. by eapply lookup_lt_Some.
Qed.

Lemma get2_Ok {A} (hd : list (list A)) (r : nat) (row : list A)
    (c : Z) (v : A) :
  hd !! r = Some row -> 0 <= c -> row !! Z.to_nat c = Some v ->
  get2 hd (Z.of_nat r) c = Ok v.
Proof.
  intros Hr Hc Hv. unfold get2. rewrite (get_nat _ _ _ Hr), bind_Ok.
  by apply get_Ok.
Qed.

Section ReadHoppings.
Context `{Real}.
Variables (No mn : Z) (hoppings : list (list Hopping)).
Hypothesis HNo : 0 < No.
Hypothesis Hmn : 0 < mn.
Hypothesis Hlen : length hoppings = Z.to_nat No.
Hypothesis Hshort : Forall (fun es => Z.of_nat (length es) <= mn) hoppings.

Lemma column_bound (m i : nat) (es : list Hopping) :
  hoppings !! m = Some es -> (i < length es)%nat ->
  0 <= Z.of_nat m * mn + Z.of_nat i < No * mn.
Proof.
  intros Hm Hi. pose proof (Forall_lookup_1 _ _ _ _ Hshort Hm) as Hs.
  simpl in Hs. apply lookup_lt_Some in Hm. nia.
Qed.

Lemma column_inj (m m' i i' : nat) (es es' : list Hopping) :
  hoppings !! m = Some es -> (i < length es)%nat ->
  hoppings !! m' = Some es' -> (i' < length es')%nat ->
  Z.of_nat m * mn + Z.of_nat i = Z.of_nat m' * mn + Z.of_nat i' ->
  m = m' /\ i = i'.
Proof.
  intros Hm Hi Hm' Hi' Heq.
  pose proof (Forall_lookup_1 _ _ _ _ Hshort Hm) as Hs.
  pose proof (Forall_lookup_1 _ _ _ _ Hshort Hm') as Hs'. simpl in Hs, Hs'.
  assert (m = m') as -> by nia. split; [done | lia].
Qed.

(** One entry: the six assignments of lines 483-488. *)
Lemma store_entry (m i : nat) (es : list Hopping) (e : Hopping)
    (filled : nat -> nat -> Prop) (hd : list (list Z)) :
  hoppings !! m = Some es -> es !! i = Some e ->
  (forall m' i', filled m' i' -> (m', i') <> (m, i)) ->
  hopping_rows hoppings mn (Z.to_nat (No * mn)) filled hd ->
  let c := Z.of_nat m * mn + Z.of_nat i in
  exists hd',
    (hd ← set2 hd 0 c (hop_nx e);
     hd ← set2 hd 1 c (hop_ny e);
     hd ← set2 hd 2 c (hop_nz e);
     hd ← set2 hd 3 c (hop_m_neighbor e);
     hd ← set2 hd 4 c (r_to_int (hop_real e));
     set2 hd 5 c (r_to_int (hop_imag e))) = Ok hd'
    /\ hopping_rows hoppings mn (Z.to_nat (No * mn))
         (fun m' i' => filled m' i' \/ (m', i') = (m, i)) hd'.
Proof.
  intros Hm He Hfresh [Hsix Hrows] c.
  pose proof (column_bound m i es Hm (lookup_lt_Some _ _ _ He)) as Hc.
  fold c in Hc.
  destruct hd as [|R0 [|R1 [|R2 [|R3 [|R4 [|R5 [|]]]]]]]; try done.
  destruct (Hrows 0%nat R0 eq_refl) as [H0 F0].
  destruct (Hrows 1%nat R1 eq_refl) as [H1 F1].
  destruct (Hrows 2%nat R2 eq_refl) as [H2 F2].
  destruct (Hrows 3%nat R3 eq_refl) as [H3 F3].
  destruct (Hrows 4%nat R4 eq_refl) as [H4 F4].
  destruct (Hrows 5%nat R5 eq_refl) as [H5 F5].
  rewrite (set2_Ok _ 0%nat R0), bind_Ok by (done || lia).
  rewrite (set2_Ok _ 1%nat R1), bind_Ok by (done || lia).
  rewrite (set2_Ok _ 2%nat R2), bind_Ok by (done || lia).
  rewrite (set2_Ok _ 3%nat R3), bind_Ok by (done || lia).
  rewrite (set2_Ok _ 4%nat R4), bind_Ok by (done || lia).
  rewrite (set2_Ok _ 5%nat R5) by (done || lia).
  cbn [insert list_insert].
  eexists. split; [reflexivity|]. split; [done|].
  assert (forall (r : nat) (R : list Z),
    length R = Z.to_nat (No * mn) ->
    (forall m' i' es' e', filled m' i' ->
       hoppings !! m' = Some es' -> es' !! i' = Some e' ->
       R !! Z.to_nat (Z.of_nat m' * mn + Z.of_nat i') = Some (hop_field r e')) ->
    length (<[Z.to_nat c := hop_field r e]> R) = Z.to_nat (No * mn)
    /\ forall m' i' es' e', filled m' i' \/ (m', i') = (m, i) ->
         hoppings !! m' = Some es' -> es' !! i' = Some e' ->
         <[Z.to_nat c := hop_field r e]> R
           !! Z.to_nat (Z.of_nat m' * mn + Z.of_nat i')
         = Some (hop_field r e')) as Hrow.
  { intros r R HR HF. split; [by rewrite length_insert|].
    intros m' i' es' e' [Hf | [= -> ->]] Hm' He'.
    - pose proof (column_bound m' i' es' Hm' (lookup_lt_Some _ _ _ He')).
      rewrite list_lookup_insert_ne; [by eapply HF|].
      intros Heq. apply (Hfresh m' i' Hf).
      destruct (column_inj m m' i i' es es') as [-> ->];
        [done | by eapply lookup_lt_Some | done | by eapply lookup_lt_Some
         | unfold c in Heq; lia | done].
    - assert (es' = es) as -> by congruence.
      assert (e' = e) as -> by congruence.
      apply list_lookup_insert_eq. fold c. lia. }
  intros r row Hr.
  destruct r as [|[|[|[|[|[|r]]]]]]; simpl in Hr; try done;
    injection Hr as <-.
  - by apply (Hrow 0%nat R0).
  - by apply (Hrow 1%nat R1).
  - by apply (Hrow 2%nat R2).
  - by apply (Hrow 3%nat R3).
  - by apply (Hrow 4%nat R4).
  - by apply (Hrow 5%nat R5).
Qed.

Lemma hopping_rows_weaken (P : nat) (filled filled' : nat -> nat -> Prop)
    (hd : list (list Z)) :
  (forall m i es e, filled' m i ->
     hoppings !! m = Some es -> es !! i = Some e -> filled m i) ->
  hopping_rows hoppings mn P filled hd -> hopping_rows hoppings mn P filled' hd.
Proof.
  intros Himp [Hsix Hrows]. split; [done|]. intros r row Hr.
  destruct (Hrows r row Hr) as [Hl Hf]. split; [done|].
  intros m i es e Hfi Hm He. eapply Hf; [|done..]. by eapply Himp.
Qed.

(** Lines 468-494. *)
Lemma read_hoppings_spec :
  exists hd,
    read_hoppings No mn hoppings
    = Ok ((fun es => Z.of_nat (length es)) <$> hoppings, hd)
    /\ hopping_rows hoppings mn (Z.to_nat (No * mn)) (fun _ _ => True) hd.
Proof.
  unfold read_hoppings.
  loop_invariant
    (fun t (s : list Z * list (list Z)) =>
       s.1 = ((fun es => Z.of_nat (length es)) <$> take t hoppings)
             ++ replicate (Z.to_nat No - t) 0
       /\ hopping_rows hoppings mn (Z.to_nat (No * mn))
            (fun m _ => (m < t)%nat) s.2) Hloop.
  destruct Hloop as ([nh hd] & Hrun & Hnh & Hhd).
  - cbn [fst snd]. rewrite take_0, Nat.sub_0_r. split; [done|].
    split; [done|].
    intros r row Hr. apply lookup_replicate in Hr as [-> _].
    split; [apply length_new_array | intros; lia].
  - intros t [nh hd] Ht [Hnh Hhd]. cbn [fst snd] in Hnh, Hhd. subst nh.
    destruct (lookup_lt_is_Some_2 hoppings t) as [es Hes]; [lia|].
    rewrite (input_item_nat _ _ _ Hes), bind_Ok.
    pose proof (Forall_lookup_1 _ _ _ _ Hshort Hes) as Hs. simpl in Hs.
    rewrite set_nat, bind_Ok
      by (rewrite length_app, length_fmap, length_take, length_replicate; lia).
    rewrite (get_nat _ _ (Z.of_nat (length es))), bind_Ok
      by (apply list_lookup_insert_eq;
          rewrite length_app, length_fmap, length_take, length_replicate; lia).
    loop_invariant
      (fun t' (hd' : list (list Z)) =>
         hopping_rows hoppings mn (Z.to_nat (No * mn))
           (fun m i => (m < t)%nat \/ (m = t /\ (i < t')%nat)) hd') Hinner.
    destruct Hinner as (hd' & Hrun' & Hhd').
    + eapply hopping_rows_weaken; [|exact Hhd].
      intros m i ? ? [?|[_ ?]]; [done|lia].
    + intros t' hd' Ht' Hhd'.
      destruct (lookup_lt_is_Some_2 es t') as [e He]; [lia|].
      rewrite (input_item_nat _ _ _ He), bind_Ok.
      destruct (store_entry t t' es e
                  (fun m i => (m < t)%nat \/ (m = t /\ (i < t')%nat))
                  hd' Hes He) as (hd'' & Hst & Hrows'');
        [|exact Hhd'|].
      { intros m' i' [Hlt|[-> Hlt]] [= ]; lia. }
      exists hd''. split; [exact Hst|].
      eapply hopping_rows_weaken; [|exact Hrows''].
      intros m i ? ? [Hlt|[-> Hi]] _ _; [by left; left|].
      destruct (decide (i = t')) as [->|Hne]; [by right|].
      left; right. split; [done | lia].
    + rewrite Hrun', bind_Ok. eexists. split; [done|]. cbn [fst snd]. split.
      * rewrite (take_S_r _ _ _ Hes), fmap_app. simpl.
        rewrite <- app_assoc. simpl.
        rewrite insert_app_r_alt by (rewrite length_fmap, length_take; lia).
        rewrite length_fmap, length_take.
        replace (t - t `min` length hoppings)%nat with 0%nat by lia.
        replace (Z.to_nat No - t)%nat with (S (Z.to_nat No - S t)) by lia.
        done.
      * eapply hopping_rows_weaken; [|exact Hhd'].
        intros m i es' e' Hm Hes' He'. destruct (decide (m = t)) as [->|Hne].
        -- right. split; [done|]. assert (es' = es) as -> by congruence.
           apply lookup_lt_Some in He'. lia.
        -- left. lia.
  - exists hd. cbn [fst snd] in Hnh, Hhd. subst nh. split.
    + rewrite Hrun. rewrite <- Hlen, firstn_all, Nat.sub_diag. simpl.
      by rewrite app_nil_r.
    + eapply hopping_rows_weaken; [|exact Hhd]. intros m i es e _ Hm _.
      apply lookup_lt_Some in Hm. cbn beta. lia.
Qed.

End ReadHoppings.

(** ** Expanding the unit cell *)

Lemma get_axis {A} (v : A * A * A) (d : Z) :
  0 <= d <= 2 -> get [axis v 0; axis v 1; axis v 2] d = Ok (axis v d).
Proof.
  intros Hd. assert (d = 0 \/ d = 1 \/ d = 2) as [->|[->| ->]] by lia; done.
Qed.

Lemma mixed_radix_inj (a b a' b' B : Z) :
  0 <= b < B -> 0 <= b' < B -> a * B + b = a' * B + b' -> a = a' /\ b = b'.
Proof. intros Hb Hb' Heq. assert (a = a') by nia. split; [done | nia]. Qed.

Section Expand.
Context `{Real}.
Variable input : LatticeFile.
Hypothesis Hacc : accepted input.

Let No := file_N_orbital input.
Let mn := file_max_neighbor input.
Let td := file_transport_direction input.
Let N := lattice_atoms input.
Let pbcL := [pbc_at input 0; pbc_at input 1; pbc_at input 2].
Let NcL := [N_cell_at input 0; N_cell_at input 1; N_cell_at input 2].
Let lcL := [lattice_constant_at input 0; lattice_constant_at input 1;
            lattice_constant_at input 2].
Let x_cell := (fun c : real * real * real => c.1.1) <$> file_cell input.
Let y_cell := (fun c : real * real * real => c.1.2) <$> file_cell input.
Let z_cell := (fun c : real * real * real => c.2) <$> file_cell input.
Let nh := (fun es : list Hopping => Z.of_nat (length es))
            <$> file_hoppings input.

Lemma accepted_sizes :
  0 < N_cell_at input 0 /\ 0 < N_cell_at input 1 /\ 0 < N_cell_at input 2
  /\ 0 < No /\ 0 < mn /\ 0 <= td <= 2
  /\ length (file_cell input) = Z.to_nat No
  /\ length (file_hoppings input) = Z.to_nat No.
Proof. unfold accepted in Hacc. unfold No, mn, td. tauto. Qed.

Lemma atom_index_bound (nx ny nz m : Z) :
  in_lattice input nx ny nz m -> 0 <= atom_index input nx ny nz m < N.
Proof.
  intros (Hx & Hy & Hz & Hm). unfold atom_index, N, lattice_atoms.
  fold No in Hm |- *.
  set (c0 := N_cell_at input 0) in *. set (c1 := N_cell_at input 1) in *.
  set (c2 := N_cell_at input 2) in *.
  assert (0 <= nx * c1 + ny < c0 * c1) by nia.
  assert (0 <= (nx * c1 + ny) * c2 + nz < c0 * c1 * c2) by nia.
  nia.
Qed.

Lemma atom_index_inj (nx ny nz m nx' ny' nz' m' : Z) :
  in_lattice input nx ny nz m -> in_lattice input nx' ny' nz' m' ->
  atom_index input nx ny nz m = atom_index input nx' ny' nz' m' ->
  nx = nx' /\ ny = ny' /\ nz = nz' /\ m = m'.
Proof.
  intros (Hx & Hy & Hz & Hm) (Hx' & Hy' & Hz' & Hm'). unfold atom_index.
  fold No in Hm, Hm' |- *.
  set (c1 := N_cell_at input 1) in *. set (c2 := N_cell_at input 2) in *.
  intros Heq.
  apply mixed_radix_inj in Heq as [Heq ->]; [|lia..].
  apply mixed_radix_inj in Heq as [Heq ->]; [|lia..].
  apply mixed_radix_inj in Heq as [-> ->]; [|lia..].
  done.
Qed.

(** Every atom is an orbital of a cell. *)
Lemma atom_index_onto (n : Z) :
  0 <= n < N ->
  exists nx ny nz m,
    in_lattice input nx ny nz m /\ atom_index input nx ny nz m = n.
Proof.
  destruct accepted_sizes as (H0 & H1 & H2 & HNo & _).
  unfold N, lattice_atoms, in_lattice, atom_index. fold No.
  set (c0 := N_cell_at input 0) in *. set (c1 := N_cell_at input 1) in *.
  set (c2 := N_cell_at input 2) in *.
  intros Hn.
  exists (n / No / c2 / c1), (n / No / c2 mod c1), (n / No mod c2), (n mod No).
  pose proof (Z.mod_pos_bound n No HNo).
  pose proof (Z.mod_pos_bound (n / No) c2 H2).
  pose proof (Z.mod_pos_bound (n / No / c2) c1 H1).
  pose proof (Z.div_mod n No ltac:(lia)).
  pose proof (Z.div_mod (n / No) c2 ltac:(lia)).
  pose proof (Z.div_mod (n / No / c2) c1 ltac:(lia)).
  assert (0 <= n / No < c0 * c1 * c2)
    by (split; [apply Z.div_pos; lia | apply Z.div_lt_upper_bound; nia]).
  assert (0 <= n / No / c2 < c0 * c1)
    by (split; [apply Z.div_pos; lia | apply Z.div_lt_upper_bound; nia]).
  assert (0 <= n / No / c2 / c1 < c0)
    by (split; [apply Z.div_pos; lia | apply Z.div_lt_upper_bound; nia]).
  split; [lia | nia].
Qed.

Lemma find_index_in_lattice (nx ny nz m : Z) :
  in_lattice input nx ny nz m ->
  find_index nx ny nz (N_cell_at input 0) (N_cell_at input 1)
    (N_cell_at input 2) m No
  = atom_index input nx ny nz m.
Proof.
  intros (Hx & Hy & Hz & Hm). unfold find_index, atom_index.
  repeat case_decide; (lia || done).
Qed.

Lemma skip_axis_spec (d n2 : Z) :
  0 <= d <= 2 -> skip_axis pbcL NcL d n2 = Ok (axis_skipped input d n2).
Proof.
  intros Hd. unfold skip_axis, pbcL, NcL, pbc_at, N_cell_at, axis_skipped.
  rewrite (get_axis (file_pbc input)), bind_Ok by done.
  rewrite (get_axis (file_N_cell input)), bind_Ok by done.
  fold (pbc_at input d).
  destruct (decide (pbc_at input d = 0)) as [Hp|Hp].
  - rewrite (bool_decide_true _ Hp). simpl.
    destruct (decide (n2 < 0)) as [Hn|Hn].
    + by rewrite (bool_decide_true _ Hn).
    + by rewrite (bool_decide_false _ Hn).
  - by rewrite (bool_decide_false _ Hp).
Qed.

Lemma x_cell_lookup (m : Z) :
  0 <= m < No -> get x_cell m = Ok (cell_offset input 0 m).
Proof.
  intros Hm. destruct accepted_sizes as (_ & _ & _ & _ & _ & _ & Hc & _).
  destruct (lookup_lt_is_Some_2 (file_cell input) (Z.to_nat m))
    as [[[cx cy] cz] Hcm]; [lia|].
  apply get_Ok; [lia|]. unfold x_cell, cell_offset.
  by rewrite list_lookup_fmap, Hcm.
Qed.

Variable hd : list (list Z).
Hypothesis Hhd :
  hopping_rows (file_hoppings input) mn (Z.to_nat (No * mn))
    (fun _ _ => True) hd.

Lemma template_short (m : Z) (es : list Hopping) :
  file_hoppings input !! Z.to_nat m = Some es ->
  Z.of_nat (length es) <= mn
  /\ Forall (fun e => 0 <= hop_m_neighbor e < No) es.
Proof.
  intros Hes. unfold accepted in Hacc.
  destruct Hacc as (_ & _ & _ & _ & _ & _ & _ & _ & _ & _ & _ & _ & _ & _ & _
                    & Hall).
  apply (Forall_lookup_1 _ _ _ _ Hall Hes).
Qed.

Lemma hopping_data_lookup (r m : Z) (i : nat)
    (es : list Hopping) (e : Hopping) :
  0 <= r < 6 -> 0 <= m ->
  file_hoppings input !! Z.to_nat m = Some es -> es !! i = Some e ->
  get2 hd r (m * mn + Z.of_nat i) = Ok (hop_field (Z.to_nat r) e).
Proof.
  intros Hr Hm Hes He. destruct Hhd as [Hsix Hrows].
  destruct (lookup_lt_is_Some_2 hd (Z.to_nat r)) as [row Hrow]; [lia|].
  destruct (Hrows _ row Hrow) as [Hl Hf].
  pose proof (Hf (Z.to_nat m) i es e I Hes He) as Hv.
  rewrite Z2Nat.id in Hv by done.
  destruct accepted_sizes as (_ & _ & _ & _ & Hmn & _).
  rewrite <- (Z2Nat.id r) at 1 by lia.
  eapply get2_Ok; [done | nia | done].
Qed.

Lemma hop_field_offset (d : Z) (e : Hopping) :
  0 <= d <= 2 -> hop_field (Z.to_nat d) e = hop_offset d e.
Proof.
  intros Hd. assert (d = 0 \/ d = 1 \/ d = 2) as [->|[->| ->]] by lia; done.
Qed.

(** Lines 518-547. *)
Lemma emit_hops_spec (nx1 ny1 nz1 m : Z) (a : pair_arrays) :
  in_lattice input nx1 ny1 nz1 m ->
  arrays_length a (Z.to_nat (N * mn)) ->
  let n1 := atom_index input nx1 ny1 nz1 m in
  let E := emitted input nx1 ny1 nz1 m in
  let cn := Z.of_nat (length E) in
  exists nl' hr' hi' xs',
    emit_hops pbcL NcL lcL x_cell td No mn nh hd nx1 ny1 nz1 m n1 a
    = Ok (cn, (nl', hr', hi', xs'))
    /\ arrays_length (nl', hr', hi', xs') (Z.to_nat (N * mn))
    /\ arrays_agree (nl', hr', hi', xs') a (Z.to_nat (n1 * mn))
    /\ row mn nl' n1 cn = emitted_target input nx1 ny1 nz1 <$> E
    /\ row mn xs' n1 cn = emitted_xx input m <$> E
    /\ row mn hr' n1 cn = emitted_real <$> E
    /\ row mn hi' n1 cn = emitted_imag <$> E.
Proof.
  intros Hin Ha n1 E cn.
  destruct accepted_sizes as (H0 & H1 & H2 & HNo & Hmn & Htd & Hcells & Hhops).
  pose proof (atom_index_bound _ _ _ _ Hin) as Hn1. fold n1 in Hn1.
  destruct Hin as (Hx & Hy & Hz & Hm). fold No in Hm.
  destruct (lookup_lt_is_Some_2 (file_hoppings input) (Z.to_nat m))
    as [es Hes]; [lia|].
  destruct (template_short m es Hes) as [Hshort Horb].
  assert (template input m = es) as Htemplate
    by (unfold template; by rewrite Hes).
  unfold emit_hops.
  unfold NcL at 1 2 3. unfold N_cell_at at 1 2 3 4 5 6 7 8 9.
  rewrite !(get_axis (file_N_cell input)), !bind_Ok by lia.
  fold (N_cell_at input 0) (N_cell_at input 1) (N_cell_at input 2).
  rewrite (get_Ok nh m (Z.of_nat (length es))), bind_Ok
    by (lia || (unfold nh; by rewrite list_lookup_fmap, Hes)).
  set (P := fun e => hop_skipped input nx1 ny1 nz1 e = false).
  loop_invariant
    (fun t (s : Z * pair_arrays) =>
       let '(cnt, (nl', hr', hi', xs')) := s in
       let Et := filter P (take t es) in
       cnt = Z.of_nat (length Et)
       /\ arrays_length (nl', hr', hi', xs') (Z.to_nat (N * mn))
       /\ arrays_agree (nl', hr', hi', xs') a (Z.to_nat (n1 * mn))
       /\ row mn nl' n1 cnt = emitted_target input nx1 ny1 nz1 <$> Et
       /\ row mn xs' n1 cnt = emitted_xx input m <$> Et
       /\ row mn hr' n1 cnt = emitted_real <$> Et
       /\ row mn hi' n1 cnt = emitted_imag <$> Et) Hloop.
  destruct Hloop as ([cnt [[[nl' hr'] hi'] xs']] & Hrun & Hinv).
  3: { rewrite Nat2Z.id, firstn_all in Hinv.
       destruct Hinv as (-> & Hinv).
       exists nl', hr', hi', xs'. split; [|unfold cn, E, emitted].
       - rewrite Hrun. unfold cn, E, emitted. by rewrite Htemplate.
       - by rewrite Htemplate. }
  - destruct a as [[[nl0 hr0] hi0] xs0]. rewrite take_0. cbn zeta.
    rewrite filter_nil. simpl. rewrite !row_0. done.
  - intros t [cnt [[[nl' hr'] hi'] xs']] Ht. cbn zeta.
    intros (-> & Hlen & Hagree & Hrl & Hrx & Hrh & Hri).
    destruct (lookup_lt_is_Some_2 es t) as [e He]; [lia|].
    pose proof (Forall_lookup_1 _ _ _ _ Horb He) as Hm2. simpl in Hm2.
    rewrite (hopping_data_lookup 0 m t es e), bind_Ok by (done || lia).
    rewrite (hopping_data_lookup 1 m t es e), bind_Ok by (done || lia).
    rewrite (hopping_data_lookup 2 m t es e), bind_Ok by (done || lia).
    rewrite !skip_axis_spec, !bind_Ok by lia.
    change (hop_field (Z.to_nat 0) e) with (hop_nx e).
    change (hop_field (Z.to_nat 1) e) with (hop_ny e).
    change (hop_field (Z.to_nat 2) e) with (hop_nz e).
    change (axis_skipped input 0 (hop_nx e + nx1)
            || axis_skipped input 1 (hop_ny e + ny1)
            || axis_skipped input 2 (hop_nz e + nz1))
      with (hop_skipped input nx1 ny1 nz1 e).
    rewrite (take_S_r _ _ _ He), filter_app, filter_cons, filter_nil.
    set (Et := filter P (take t es)) in *.
    assert (length Et <= t)%nat as Hcnt.
    { unfold Et. etrans; [apply length_filter|]. rewrite length_take. lia. }
    destruct (decide (P e)) as [HP|HP].
    2: { assert (hop_skipped input nx1 ny1 nz1 e = true) as ->
           by (destruct (hop_skipped input nx1 ny1 nz1 e) eqn:E0;
               [done | exfalso; by apply HP]).
         eexists. split; [done|]. cbn beta iota. rewrite app_nil_r. done. }
    + unfold P in HP. rewrite HP.
      destruct Hlen as (Hl1 & Hl2 & Hl3 & Hl4).
      destruct a as [[[nl0 hr0] hi0] xs0].
      destruct Hagree as (Ha1 & Ha2 & Ha3 & Ha4).
      rewrite !(hopping_data_lookup 3 m t es e) by (done || lia).
      rewrite !(hopping_data_lookup 4 m t es e) by (done || lia).
      rewrite !(hopping_data_lookup 5 m t es e) by (done || lia).
      rewrite !(hopping_data_lookup td m t es e) by (done || lia).
      rewrite (hop_field_offset td) by lia.
      change (hop_field (Z.to_nat 3) e) with (hop_m_neighbor e).
      change (hop_field (Z.to_nat 4) e) with (r_to_int (hop_real e)).
      change (hop_field (Z.to_nat 5) e) with (r_to_int (hop_imag e)).
      unfold lcL at 1. unfold lattice_constant_at at 1 2 3.
      rewrite (get_axis (file_lattice_constant input)) by lia.
      fold (lattice_constant_at input td).
      rewrite bind_Ok. rewrite set_Ok, !bind_Ok by nia.
      rewrite !x_cell_lookup, !bind_Ok by lia.
      rewrite set_Ok, !bind_Ok by nia.
      rewrite set_Ok, !bind_Ok by nia.
      rewrite set_Ok, !bind_Ok by nia.
      eexists. split; [done|]. cbn beta iota.
      rewrite length_app. cbn [length].
      split; [lia|].
      split; [unfold arrays_length; by rewrite !length_insert|].
      split.
      { unfold arrays_agree. rewrite !take_insert_ge by nia. done. }
      replace (Z.of_nat (length Et + 1)) with (Z.of_nat (length Et) + 1)
        by lia.
      rewrite !row_snoc by nia. rewrite Hrl, Hrx, Hrh, Hri.
      rewrite !fmap_app. done.
Qed.

Lemma cell_lookup (f : real * real * real -> real) (m : Z) :
  0 <= m < No -> exists v, get (f <$> file_cell input) m = Ok v.
Proof.
  intros Hm. destruct accepted_sizes as (_ & _ & _ & _ & _ & _ & Hc & _).
  apply get_lt. rewrite length_fmap. lia.
Qed.

(** Lines 504-548: the atom [cur] is done. *)
Lemma expand_orbital_step (hci : bool) (nx1 ny1 nz1 m : Z) (st : cell_state) :
  in_lattice input nx1 ny1 nz1 m ->
  expanded_below input hci (atom_index input nx1 ny1 nz1 m) st ->
  exists st',
    expand_orbital hci pbcL NcL lcL x_cell y_cell z_cell td No mn nh hd
      nx1 ny1 nz1 m st = Ok st'
    /\ expanded_below input hci (atom_index input nx1 ny1 nz1 m + 1) st'.
Proof.
  intros Hin Hst. destruct st as [[nn a] [[x y] z]].
  destruct Hst as (Hnn & Ha & Hpos & Hrows).
  destruct accepted_sizes as (H0 & H1 & H2 & HNo & Hmn & Htd & Hcells & Hhops).
  pose proof (atom_index_bound _ _ _ _ Hin) as Hn1.
  set (n1 := atom_index input nx1 ny1 nz1 m) in *.
  unfold expand_orbital.
  unfold NcL at 1 2 3. unfold N_cell_at at 1 2 3 4 5 6 7 8 9.
  rewrite !(get_axis (file_N_cell input)), !bind_Ok by lia.
  fold (N_cell_at input 0) (N_cell_at input 1) (N_cell_at input 2).
  fold NcL. rewrite (find_index_in_lattice _ _ _ _ Hin). fold n1.
  assert (exists x' y' z',
    (if hci
     then
       xm ← get x_cell m; a0 ← get lcL 0;
       x ← set x n1 (r_add xm (r_mul a0 (r_of_int nx1)));
       ym ← get y_cell m; a0 ← get lcL 1;
       y ← set y n1 (r_add ym (r_mul a0 (r_of_int ny1)));
       zm ← get z_cell m; a0 ← get lcL 2;
       z ← set z n1 (r_add zm (r_mul a0 (r_of_int nz1)));
       Ok (x, y, z)
     else Ok (x, y, z)) = Ok (x', y', z')
    /\ (hci = true ->
        length x' = Z.to_nat N /\ length y' = Z.to_nat N
        /\ length z' = Z.to_nat N)) as (x' & y' & z' & Hxyz & Hpos').
  { destruct hci; [|by exists x, y, z].
    destruct (Hpos eq_refl) as (Hx & Hy & Hz).
    destruct Hin as (_ & _ & _ & Hm).
    destruct (cell_lookup (fun c => c.1.1) m Hm) as [xm Hxm].
    destruct (cell_lookup (fun c => c.1.2) m Hm) as [ym Hym].
    destruct (cell_lookup (fun c => c.2) m Hm) as [zm Hzm].
    fold x_cell in Hxm. fold y_cell in Hym. fold z_cell in Hzm.
    rewrite Hxm, Hym, Hzm. unfold lcL, lattice_constant_at.
    rewrite !(get_axis (file_lattice_constant input)) by lia.
    rewrite !bind_Ok. rewrite set_Ok, !bind_Ok by (fold N; lia).
    rewrite set_Ok, !bind_Ok by (fold N; lia).
    rewrite set_Ok, !bind_Ok by (fold N; lia).
    do 3 eexists. split; [done|]. intros _.
    by rewrite !length_insert. }
  rewrite Hxyz, bind_Ok. cbn beta iota.
  destruct (emit_hops_spec nx1 ny1 nz1 m a Hin Ha)
    as (nl' & hr' & hi' & xs' & Hemit & Ha' & Hagree & Hnew).
  fold n1 in Hemit, Hagree, Hnew. rewrite Hemit, bind_Ok. cbn beta iota.
  rewrite set_Ok, bind_Ok by (fold N; lia).
  eexists. split; [done|].
  split; [by rewrite length_insert|]. split; [done|]. split; [done|].
  intros nx ny nz m' Hin' Hlt.
  destruct (decide (atom_index input nx ny nz m' = n1)) as [Heq|Hne].
  - apply atom_index_inj in Heq as (-> & -> & -> & ->); [|done..].
    unfold row_expanded. fold n1. split; [|exact Hnew].
    apply list_lookup_insert_eq. fold N. lia.
  - pose proof (atom_index_bound _ _ _ _ Hin') as Hb.
    specialize (Hrows nx ny nz m' Hin' ltac:(lia)).
    destruct a as [[[nl0 hr0] hi0] xs0].
    unfold row_expanded in *.
    set (n0 := atom_index input nx ny nz m') in *.
    set (E0 := emitted input nx ny nz m') in *.
    destruct Hrows as (Hr0 & Hr1 & Hr2 & Hr3 & Hr4).
    destruct Hagree as (Ha1 & Ha2 & Ha3 & Ha4).
    assert (Z.of_nat (length E0) <= mn) as HE0.
    { destruct Hin' as (_ & _ & _ & Hm').
      destruct (lookup_lt_is_Some_2 (file_hoppings input) (Z.to_nat m'))
        as [es Hes]; [fold No in Hm'; lia|].
      destruct (template_short m' es Hes) as [Hshort _].
      unfold E0, emitted, template. rewrite Hes. simpl.
      pose proof (length_filter
        (fun e => hop_skipped input nx ny nz e = false) es). lia. }
    split; [rewrite list_lookup_insert_ne by lia; done|].
    rewrite <- Hr1, <- Hr2, <- Hr3, <- Hr4.
    split; [|split; [|split]];
      apply (row_agree _ _ _ _ _ (Z.to_nat (n1 * mn))); (done || nia).
Qed.

(** Lines 496-552. *)
Lemma expand_cells_spec (hci : bool) (st : cell_state) :
  expanded_below input hci 0 st ->
  exists st',
    expand_cells hci pbcL NcL lcL x_cell y_cell z_cell td No mn nh hd st
    = Ok st'
    /\ expanded_below input hci N st'.
Proof.
  intros Hst.
  destruct accepted_sizes as (H0 & H1 & H2 & HNo & Hmn & Htd & Hcells & Hhops).
  set (c0 := N_cell_at input 0) in *. set (c1 := N_cell_at input 1) in *.
  set (c2 := N_cell_at input 2) in *.
  assert (get NcL 0 = Ok c0 /\ get NcL 1 = Ok c1 /\ get NcL 2 = Ok c2)
    as (Hg0 & Hg1 & Hg2).
  { unfold NcL, N_cell_at, c0, c1, c2, N_cell_at.
    by rewrite !(get_axis (file_N_cell input)) by lia. }
  unfold expand_cells. rewrite Hg0, bind_Ok.
  loop_invariant
    (fun t (s : cell_state) =>
       expanded_below input hci (Z.of_nat t * c1 * c2 * No) s) Hloop.
  destruct Hloop as (st' & Hrun & Hst').
  3: { exists st'. split; [exact Hrun|].
       replace N with (Z.of_nat (Z.to_nat c0) * c1 * c2 * No); [done|].
       unfold N, lattice_atoms. fold c0 c1 c2 No. lia. }
  { by replace (Z.of_nat 0 * c1 * c2 * No) with 0 by lia. }
  intros tx sx Htx Hsx. rewrite Hg1, bind_Ok.
  loop_invariant
    (fun t (s : cell_state) =>
       expanded_below input hci
         ((Z.of_nat tx * c1 + Z.of_nat t) * c2 * No) s) Hloop.
  destruct Hloop as (st' & Hrun & Hst').
  3: { exists st'. split; [exact Hrun|].
       replace (Z.of_nat (S tx) * c1 * c2 * No)
         with ((Z.of_nat tx * c1 + Z.of_nat (Z.to_nat c1)) * c2 * No) by lia.
       done. }
  { by replace ((Z.of_nat tx * c1 + Z.of_nat 0) * c2 * No)
      with (Z.of_nat tx * c1 * c2 * No) by lia. }
  intros ty sy Hty Hsy. rewrite Hg2, bind_Ok.
  loop_invariant
    (fun t (s : cell_state) =>
       expanded_below input hci
         (((Z.of_nat tx * c1 + Z.of_nat ty) * c2 + Z.of_nat t) * No) s) Hloop.
  destruct Hloop as (st' & Hrun & Hst').
  3: { exists st'. split; [exact Hrun|].
       replace ((Z.of_nat tx * c1 + Z.of_nat (S ty)) * c2 * No)
         with (((Z.of_nat tx * c1 + Z.of_nat ty) * c2
                + Z.of_nat (Z.to_nat c2)) * No) by lia.
       done. }
  { by replace (((Z.of_nat tx * c1 + Z.of_nat ty) * c2 + Z.of_nat 0) * No)
      with ((Z.of_nat tx * c1 + Z.of_nat ty) * c2 * No) by lia. }
  intros tz sz Htz Hsz.
  loop_invariant
    (fun t (s : cell_state) =>
       expanded_below input hci
         (atom_index input (Z.of_nat tx) (Z.of_nat ty) (Z.of_nat tz)
            (Z.of_nat t)) s) Hloop.
  destruct Hloop as (st' & Hrun & Hst').
  3: { exists st'. split; [exact Hrun|].
       replace (((Z.of_nat tx * c1 + Z.of_nat ty) * c2 + Z.of_nat (S tz)) * No)
         with (atom_index input (Z.of_nat tx) (Z.of_nat ty) (Z.of_nat tz)
                 (Z.of_nat (Z.to_nat No)));
         [done|].
       unfold atom_index. fold c1 c2 No. lia. }
  { replace (atom_index input (Z.of_nat tx) (Z.of_nat ty) (Z.of_nat tz)
               (Z.of_nat 0))
      with (((Z.of_nat tx * c1 + Z.of_nat ty) * c2 + Z.of_nat tz) * No);
      [done|].
    unfold atom_index. fold c1 c2 No. lia. }
  intros tm sm Htm Hsm.
  destruct (expand_orbital_step hci (Z.of_nat tx) (Z.of_nat ty) (Z.of_nat tz)
              (Z.of_nat tm) sm) as (st' & Hrun & Hst'); [|done|].
  { unfold in_lattice. fold c0 c1 c2 No. lia. }
  exists st'. split; [exact Hrun|].
  replace (atom_index input (Z.of_nat tx) (Z.of_nat ty) (Z.of_nat tz)
             (Z.of_nat (S tm)))
    with (atom_index input (Z.of_nat tx) (Z.of_nat ty) (Z.of_nat tz)
            (Z.of_nat tm) + 1); [done|].
  unfold atom_index. lia.
Qed.

End Expand.

(** ** The pristine lattice *)

Lemma row_expanded_atom `{Real} (input : LatticeFile) (model : Model)
    (nx ny nz m : Z) :
  max_neighbor model = file_max_neighbor input ->
  row_expanded input (neighbor_number model)
    (neighbor_list model, hopping_real model, hopping_imag model, xx model)
    nx ny nz m ->
  expanded_atom input model nx ny nz m.
Proof.
  intros Hmn (Hc & Hl & Hx & Hr & Hi).
  unfold expanded_atom, targets, hop_values.
  assert (hop_count model (atom_index input nx ny nz m)
          = Z.of_nat (length (emitted input nx ny nz m))) as Hcount
    by (unfold hop_count; by apply list_lookup_total_correct).
  rewrite Hcount, Hmn. done.
Qed.

Lemma triple_eta {A} (v : A * A * A) : v = (axis v 0, axis v 1, axis v 2).
Proof. by destruct v as [[a b] c]. Qed.

Lemma get3 {A} (a b c : A) :
  get [a; b; c] 0 = Ok a /\ get [a; b; c] 1 = Ok b /\ get [a; b; c] 2 = Ok c.
Proof. done. Qed.

Lemma fatal_if_false {A} (b : bool) (k : result A) :
  b = false -> (fatal_if b ;; k) = k.
Proof. by intros ->. Qed.

Section Build.
Context `{Machine}.

Lemma box_length_loop (a0 a1 a2 : real) (c0 c1 c2 : Z) :
  for_range 0 3
    (fun d b =>
       a ← get [a0; a1; a2] d; N ← get [c0; c1; c2] d;
       set b d (r_mul a (r_of_int N)))
    (new_array uninit_real 3)
  = Ok [r_mul a0 (r_of_int c0); r_mul a1 (r_of_int c1);
        r_mul a2 (r_of_int c2)].
Proof. reflexivity. Qed.

(** What lines 271-552 build from an accepted lattice.in. *)
Lemma build_lattice_model_spec (p : Parameters) (input : LatticeFile) :
  accepted input ->
  exists model,
    build_lattice_model p input = Ok model
    /\ number_of_atoms model = lattice_atoms input
    /\ max_neighbor model = file_max_neighbor input
    /\ number_of_pairs model = lattice_atoms input * file_max_neighbor input
    /\ length (neighbor_number model) = Z.to_nat (lattice_atoms input)
    /\ arrays_length
         (neighbor_list model, hopping_real model, hopping_imag model,
          xx model)
         (Z.to_nat (lattice_atoms input * file_max_neighbor input))
    /\ forall nx ny nz m, in_lattice input nx ny nz m ->
         expanded_atom input model nx ny nz m.
Proof.
  intros Hacc.
  pose proof (accepted_sizes input Hacc)
    as (Hc0 & Hc1 & Hc2 & HNo & Hmn & Htd & Hcells & Hhops).
  pose proof Hacc as (_ & _ & _ & Hp0 & Hp1 & Hp2 & _ & Hpt & Ha0 & Ha1 & Ha2
                      & _ & _ & _ & _ & Hall).
  destruct (read_hoppings_spec (file_N_orbital input) (file_max_neighbor input)
              (file_hoppings input) HNo Hmn Hhops) as (hd & Hread & Hhd).
  { eapply Forall_impl; [exact Hall|]. by intros es [? _]. }
  pose proof (cell_loop (file_N_orbital input) (file_cell input) Hcells)
    as Hcell.
  set (N := lattice_atoms input) in *.
  set (mn := file_max_neighbor input) in *.
  assert (exists x0 y0 z0,
    (if has_charged_impurities p
     then (new_array r_zero N, new_array r_zero N, new_array r_zero N)
     else ([], [], [])) = (x0, y0, z0)
    /\ (has_charged_impurities p = true ->
        length x0 = Z.to_nat N /\ length y0 = Z.to_nat N
        /\ length z0 = Z.to_nat N)) as (x0 & y0 & z0 & Hpos & Hposlen).
  { destruct (has_charged_impurities p).
    - do 3 eexists. split; [done|]. intros _. by rewrite !length_new_array.
    - by exists [], [], []. }
  destruct (expand_cells_spec input Hacc hd Hhd (has_charged_impurities p)
    (new_array uninit_int N,
     (new_array uninit_int (N * mn), new_array uninit_real (N * mn),
      new_array uninit_real (N * mn), new_array uninit_real (N * mn)),
     (x0, y0, z0)))
    as ([[nn [[[nl hr] hi] xs]] [[x y] z]] & Hexpand & Hdone).
  { split; [apply length_new_array|].
    split; [unfold arrays_length; by rewrite !length_new_array|].
    split; [done|].
    intros nx ny nz m Hin Hlt.
    pose proof (atom_index_bound input _ _ _ _ Hin). lia. }
  destruct Hdone as (Hnn & Harr & _ & Hrows).
  unfold build_lattice_model.
  rewrite (triple_eta (file_N_cell input)), (triple_eta (file_pbc input)),
    (triple_eta (file_lattice_constant input)).
  cbv beta iota.
  change (axis (file_N_cell input)) with (N_cell_at input).
  change (axis (file_pbc input)) with (pbc_at input).
  change (axis (file_lattice_constant input)) with (lattice_constant_at input).
  rewrite !fatal_if_false by (apply bool_decide_eq_false; lia).
  rewrite !(fatal_if_false (negb _))
    by (apply negb_false_iff; rewrite !orb_true_iff, !bool_decide_eq_true;
        lia).
  unfold pbc_at at 1 2 3. rewrite (get_axis (file_pbc input)), bind_Ok by lia.
  fold (pbc_at input (file_transport_direction input)). rewrite Hpt.
  rewrite (fatal_if_false (negb (bool_decide (1 = 1)))) by done.
  rewrite Ha0, Ha1, Ha2. rewrite !(fatal_if_false false) by done.
  rewrite box_length_loop, bind_Ok.
  destruct (get3 (r_mul (lattice_constant_at input 0)
                    (r_of_int (N_cell_at input 0)))
                 (r_mul (lattice_constant_at input 1)
                    (r_of_int (N_cell_at input 1)))
                 (r_mul (lattice_constant_at input 2)
                    (r_of_int (N_cell_at input 2)))) as (-> & -> & ->).
  rewrite !bind_Ok.
  rewrite !fatal_if_false by (apply bool_decide_eq_false; lia).
  change (file_N_orbital input * N_cell_at input 0 * N_cell_at input 1
          * N_cell_at input 2) with N.
  rewrite fill_loop, bind_Ok by apply length_new_array.
  rewrite Hcell, bind_Ok. cbv beta iota.
  fold mn. rewrite Hread, bind_Ok. cbv beta iota.
  rewrite Hpos.
  eexists. split.
  { eapply bind_run; [exact Hexpand|]. cbv beta iota. reflexivity. }
  cbn [number_of_atoms max_neighbor
    number_of_pairs neighbor_number neighbor_list hopping_real hopping_imag xx].
  split; [done|]. split; [done|]. split; [done|]. split; [done|].
  split; [done|].
  intros nx ny nz m Hin. apply row_expanded_atom; [done|].
  apply Hrows; [done|]. apply (atom_index_bound input _ _ _ _ Hin).
Qed.

End Build.


(** ** The size of the pristine lattice *)

Section PristineLattice.
Context `{Machine}.

(** Without disorder [initialize_lattice_model] returns the pristine lattice
    and leaves the generator alone. *)
Lemma initialize_lattice_model_pristine
    (p : Parameters) (input : LatticeFile) (g : generator) (model : Model) :
  has_vacancy_disorder p = false -> has_anderson_disorder p = false ->
  has_charged_impurities p = false ->
  build_lattice_model p input = Ok model ->
  initialize_lattice_model p input g = Ok (model, g).
Proof.
  intros Hv Ha Hc Hb. unfold initialize_lattice_model.
  by rewrite Hb, Hv, Ha, Hc.
Qed.

Lemma emitted_short (input : LatticeFile) (nx ny nz m : Z) :
  accepted input -> in_lattice input nx ny nz m ->
  Z.of_nat (length (emitted input nx ny nz m)) <= file_max_neighbor input.
Proof.
  intros Hacc (_ & _ & _ & Hm).
  pose proof (accepted_sizes input Hacc) as (_ & _ & _ & _ & _ & _ & _ & Hh).
  destruct (lookup_lt_is_Some_2 (file_hoppings input) (Z.to_nat m))
    as [es Hes]; [lia|].
  destruct (template_short input Hacc m es Hes) as [Hshort _].
  unfold emitted, template. rewrite Hes. simpl.
  pose proof (length_filter
    (fun e => hop_skipped input nx ny nz e = false) es). lia.
Qed.

(** C6. For an accepted lattice.in, in which no hopping list is longer than
    [max_neighbor], the lattice that [initialize_lattice_model] builds before
    any vacancy is removed has [N_orbital * Nx * Ny * Nz] atoms, and
    [neighbor_number[n] <= max_neighbor] for every atom [n]. *)
Theorem pristine_lattice_size (p : Parameters) (input : LatticeFile) :
  accepted input ->
  exists model,
    build_lattice_model p input = Ok model
    /\ (has_vacancy_disorder p = false -> has_anderson_disorder p = false ->
        has_charged_impurities p = false ->
        forall g, initialize_lattice_model p input g = Ok (model, g))
    /\ number_of_atoms model
       = file_N_orbital input * N_cell_at input 0 * N_cell_at input 1
         * N_cell_at input 2
    /\ max_neighbor model = file_max_neighbor input
    /\ forall n, 0 <= n < number_of_atoms model ->
         exists c, get (neighbor_number model) n = Ok c
                   /\ 0 <= c <= max_neighbor model.
Proof.
  intros Hacc.
  destruct (build_lattice_model_spec p input Hacc)
    as (model & Hbuild & HN & Hmn & _ & Hnn & _ & Hatoms).
  exists model. split; [done|]. split.
  { intros Hv Ha Hc g. by apply initialize_lattice_model_pristine. }
  split; [done|]. split; [done|].
  intros n Hn. rewrite HN in Hn.
  destruct (atom_index_onto input Hacc n Hn) as (nx & ny & nz & m & Hin & <-).
  destruct (Hatoms nx ny nz m Hin) as (Hcount & _).
  pose proof (atom_index_bound input _ _ _ _ Hin) as Hb.
  destruct (lookup_lt_is_Some_2 (neighbor_number model)
              (Z.to_nat (atom_index input nx ny nz m))) as [c Hc]; [lia|].
  exists c. split; [apply get_Ok; [lia | done]|].
  unfold hop_count in Hcount.
  rewrite (list_lookup_total_correct _ _ _ Hc) in Hcount.
  pose proof (emitted_short input nx ny nz m Hacc Hin). lia.
Qed.

End PristineLattice.

Lemma pristine_lattice_size_witness :
  exists model,
    build_lattice_model no_disorder (square_2x2 2) = Ok model
    /\ number_of_atoms model = 4.
Proof.
  destruct (pristine_lattice_size no_disorder (square_2x2 2))
    as (model & Hbuild & _ & HN & _).
  - apply (bool_decide_unpack _). vm_compute. reflexivity.
  - exists model. split; [exact Hbuild | exact HN].
Defined.

(** ** The 2 x 2 x 1 lattice with one hop per atom *)

Lemma square_2x2_accepted (mn : Z) : 1 <= mn -> accepted (square_2x2 mn).
Proof.
  intros Hmn. unfold accepted. cbn.
  repeat split; try (done || lia).
  - by left.
  - by left.
  - by left.
  - repeat constructor; cbn; lia.
Qed.

(** The claim of C1 as the specification states it, two neighbors per atom,
    fails: the lattice has room for two hops per atom and each atom gets
    one. *)
Lemma square_2x2_two_neighbors_fails :
  ~ (exists model g',
       initialize_lattice_model no_disorder (square_2x2 2) (7 : generator)
       = Ok (model, g')
       /\ number_of_atoms model = 4
       /\ forall n, 0 <= n < 4 -> get (neighbor_number model) n = Ok 2).
Proof.
  intros (model & g' & Hrun & _ & Hnn).
  vm_compute in Hrun. injection Hrun as <- _.
  specialize (Hnn 0 ltac:(lia)). vm_compute in Hnn. discriminate.
Qed.

(** C1, amended. For one orbital, 2 x 2 x 1 cells, three periodic axes,
    transport along x and the single hop [1 0 0 0 1.0 0.0],
    [initialize_lattice_model] returns four atoms, and every atom [n] has
    [neighbor_number[n] = 1]: its one hop is the hop of the template, to the
    atom of the next cell along x, wrapped around the lattice, and no hop is
    skipped.  The hop back along x is not in the table. *)
Theorem square_2x2_one_neighbor (max_neighbor : Z) (g : generator) :
  1 <= max_neighbor ->
  exists model,
    initialize_lattice_model no_disorder (square_2x2 max_neighbor) g
    = Ok (model, g)
    /\ number_of_atoms model = 4
    /\ forall n, 0 <= n < 4 ->
         get (neighbor_number model) n = Ok 1
         /\ targets model n = [(n + 2) mod 4]
         /\ Z.of_nat (length (template (square_2x2 max_neighbor) 0)) = 1.
Proof.
  intros Hmn.
  destruct (build_lattice_model_spec no_disorder (square_2x2 max_neighbor)
              (square_2x2_accepted max_neighbor Hmn))
    as (model & Hbuild & HN & _ & _ & Hnn & _ & Hatoms).
  exists model.
  split; [by apply initialize_lattice_model_pristine|].
  split; [done|].
  assert (forall nx ny n, in_lattice (square_2x2 max_neighbor) nx ny 0 0 ->
    atom_index (square_2x2 max_neighbor) nx ny 0 0 = n -> 0 <= n < 4 ->
    emitted (square_2x2 max_neighbor) nx ny 0 0
    = template (square_2x2 max_neighbor) 0 ->
    emitted_target (square_2x2 max_neighbor) nx ny 0
      <$> template (square_2x2 max_neighbor) 0 = [(n + 2) mod 4] ->
    get (neighbor_number model) n = Ok 1
    /\ targets model n = [(n + 2) mod 4]) as Hcell.
  { intros nx ny n Hin Hidx Hn Hemit Htarget.
    destruct (Hatoms nx ny 0 0 Hin) as (Hcount & Htar & _).
    rewrite Hidx, Hemit in Hcount, Htar. rewrite Htarget in Htar.
    split; [|done].
    destruct (lookup_lt_is_Some_2 (neighbor_number model) (Z.to_nat n))
      as [c Hc];
      [rewrite Hnn; change (lattice_atoms (square_2x2 max_neighbor)) with 4;
       lia|].
    unfold hop_count in Hcount.
    rewrite (list_lookup_total_correct _ _ _ Hc) in Hcount. subst c.
    apply get_Ok; [lia | done]. }
  intros n Hn. split; [|split; [|done]];
    (assert (n = 0 \/ n = 1 \/ n = 2 \/ n = 3) as [->|[->|[->| ->]]] by lia);
    [ apply (Hcell 0 0 0) | apply (Hcell 0 1 1) | apply (Hcell 1 0 2)
    | apply (Hcell 1 1 3)
    | apply (Hcell 0 0 0) | apply (Hcell 0 1 1) | apply (Hcell 1 0 2)
    | apply (Hcell 1 1 3) ];
    try done; try (vm_compute; intuition congruence).
Qed.

Lemma square_2x2_one_neighbor_witness :
  exists model,
    initialize_lattice_model no_disorder (square_2x2 2) (7 : generator)
    = Ok (model, 7)
    /\ number_of_atoms model = 4.
Proof.
  destruct (square_2x2_one_neighbor 2 7) as (model & Hrun & HN & _);
    [lia|].
  exists model. split; [exact Hrun | exact HN].
Defined.

(** ** The displacement and the amplitudes of a hop *)

(** Along x the stored displacement is the displacement of the
    specification. *)
Lemma emitted_xx_along_x `{Real} (input : LatticeFile) (m : Z) (e : Hopping) :
  file_transport_direction input = 0 ->
  emitted_xx input m e = displacement_along_transport input m e.
Proof.
  intros Htd. unfold emitted_xx, displacement_along_transport.
  by rewrite Htd.
Qed.

(** C2 at a failing input.  Two orbitals 0.5 apart along x, transport along
    y: for the hop of atom 0 the code stores 0.5, the difference of the
    offsets along x, where the specification has 0, their difference along
    y. *)
Theorem displacement_ignores_transport_axis :
  accepted dimer_along_y
  /\ exists model g',
       initialize_lattice_model no_disorder dimer_along_y (7 : generator)
       = Ok (model, g')
       /\ hop_values model (xx model) 0 = [(1 # 2)%Q]
       /\ displacement_along_transport dimer_along_y 0
            <$> emitted dimer_along_y 0 0 0 0 = [0%Q]
       /\ ~ ((1 # 2) == 0)%Q.
Proof.
  split; [apply (bool_decide_unpack _); vm_compute; reflexivity|].
  eexists _, _. split; [vm_compute; reflexivity|].
  split; [vm_compute; reflexivity|].
  split; [vm_compute; reflexivity|].
  intros Heq. discriminate Heq.
Qed.

(** C3 at a failing input.  The amplitude 0.5 + 0.25 i goes through the [int]
    rows of [hopping_data], and 0 + 0 i is stored. *)
Theorem amplitudes_truncated :
  accepted square_2x2_fractional
  /\ exists model g',
       initialize_lattice_model no_disorder square_2x2_fractional
         (7 : generator) = Ok (model, g')
       /\ hop_real <$> template square_2x2_fractional 0 = [(1 # 2)%Q]
       /\ hop_imag <$> template square_2x2_fractional 0 = [(1 # 4)%Q]
       /\ hop_values model (hopping_real model) 0 = [0%Q]
       /\ hop_values model (hopping_imag model) 0 = [0%Q]
       /\ ~ (0 == 1 # 2)%Q /\ ~ (0 == 1 # 4)%Q.
Proof.
  split; [apply (bool_decide_unpack _); vm_compute; reflexivity|].
  eexists _, _. split; [vm_compute; reflexivity|].
  repeat (split; [vm_compute; reflexivity|]).
  split; intros Heq; discriminate Heq.
Qed.


(** ** The screened potential of the charged impurities *)

Section MinimumImage.
Context `{Machine}.

(** Lines 234-239. *)
Lemma add_axis_nat (pbc : list Z) (bl : list real) (d : nat)
    (r12 : list real) (acc : real) (p : Z) (b r : real) :
  pbc !! d = Some p -> bl !! d = Some b -> r12 !! d = Some r ->
  let dist := minimum_image p b r in
  add_axis pbc bl ((fun b => r_mul b r_half) <$> bl) (Z.of_nat d) (r12, acc)
  = Ok (<[d := dist]> r12, r_add acc (r_mul dist dist)).
Proof.
  intros Hp Hb Hr dist. unfold add_axis.
  pose proof (lookup_lt_Some _ _ _ Hr) as Hlen.
  rewrite (get_nat _ _ _ Hr), bind_Ok.
  rewrite set_nat, bind_Ok by done.
  rewrite (get_nat _ _ _ Hp), bind_Ok.
  rewrite !(get_nat (<[d := r_abs r]> r12) d (r_abs r))
    by (by apply list_lookup_insert_eq).
  rewrite !(get_nat ((fun b => r_mul b r_half) <$> bl) d (r_mul b r_half))
    by (by rewrite list_lookup_fmap, Hb).
  rewrite !(get_nat _ _ _ Hb), !bind_Ok.
  unfold dist, minimum_image.
  destruct (decide (p = 1)) as [Hp1|Hp1]; rewrite ?bind_Ok.
  - destruct (r_ltb (r_mul b r_half) (r_abs r)) eqn:Hwrap; rewrite ?bind_Ok.
    + rewrite set_nat, bind_Ok by (by rewrite length_insert).
      rewrite list_insert_insert_eq.
      rewrite (get_nat _ d (r_sub b (r_abs r))), bind_Ok
        by (by apply list_lookup_insert_eq).
      done.
    + rewrite (get_nat _ d (r_abs r)), bind_Ok
        by (by apply list_lookup_insert_eq).
      done.
  - rewrite (get_nat _ d (r_abs r)), bind_Ok
      by (by apply list_lookup_insert_eq).
    done.
Qed.

Lemma add_axis_spec (pbc : list Z) (bl : list real) (d : Z)
    (r12 : list real) (acc : real) (p : Z) (b r : real) :
  0 <= d ->
  pbc !! Z.to_nat d = Some p -> bl !! Z.to_nat d = Some b ->
  r12 !! Z.to_nat d = Some r ->
  let dist := minimum_image p b r in
  add_axis pbc bl ((fun b => r_mul b r_half) <$> bl) d (r12, acc)
  = Ok (<[Z.to_nat d := dist]> r12, r_add acc (r_mul dist dist)).
Proof.
  intros Hd Hp Hb Hr.
  pose proof (add_axis_nat pbc bl (Z.to_nat d) r12 acc p b r Hp Hb Hr) as Hs.
  rewrite Z2Nat.id in Hs by done. exact Hs.
Qed.

(** Lines 227-240: the code computes the squared minimum-image distance. *)
Lemma pair_distance_square_spec (model : Model) (n1 n2 : Z) :
  length (pbc model) = 3%nat -> length (box_length model) = 3%nat ->
  0 <= n2 < Z.of_nat (length (x model)) ->
  0 <= n2 < Z.of_nat (length (y model)) ->
  0 <= n2 < Z.of_nat (length (z model)) ->
  pair_distance_square (x model) (y model) (z model) (pbc model)
    (box_length model) ((fun b => r_mul b r_half) <$> box_length model)
    (x model !!! Z.to_nat n1) (y model !!! Z.to_nat n1)
    (z model !!! Z.to_nat n1) n2
  = Ok (distance_square model n1 n2).
Proof.
  intros Hpbc Hbl Hx Hy Hz.
  destruct (lookup_lt_is_Some_2 (x model) (Z.to_nat n2)) as [x2 Hx2]; [lia|].
  destruct (lookup_lt_is_Some_2 (y model) (Z.to_nat n2)) as [y2 Hy2]; [lia|].
  destruct (lookup_lt_is_Some_2 (z model) (Z.to_nat n2)) as [z2 Hz2]; [lia|].
  unfold distance_square, axis_distance, raw_separation.
  rewrite (list_lookup_total_correct _ _ _ Hx2),
    (list_lookup_total_correct _ _ _ Hy2),
    (list_lookup_total_correct _ _ _ Hz2).
  rewrite !(decide_True (P := 0 = 0)), !(decide_True (P := 1 = 1)) by done.
  rewrite !(decide_False (P := 1 = 0)) by done.
  rewrite !(decide_False (P := 2 = 0)), !(decide_False (P := 2 = 1)) by done.
  unfold pair_distance_square.
  rewrite (get_Ok _ _ _ (proj1 Hx) Hx2), (get_Ok _ _ _ (proj1 Hy) Hy2),
    (get_Ok _ _ _ (proj1 Hz) Hz2).
  destruct (pbc model) as [|p0 [|p1 [|p2 [|]]]] eqn:Ep; try done.
  destruct (box_length model) as [|b0 [|b1 [|b2 [|]]]] eqn:Eb; try done.
  set (x1 := x model !!! Z.to_nat n1). set (y1 := y model !!! Z.to_nat n1).
  set (z1 := z model !!! Z.to_nat n1).
  change (new_array uninit_real 3) with [uninit_real; uninit_real; uninit_real].
  repeat first
    [ rewrite bind_Ok
    | rewrite (set_Ok _ 0) by (rewrite ?length_insert; simpl; lia)
    | rewrite (set_Ok _ 1) by (rewrite ?length_insert; simpl; lia)
    | rewrite (set_Ok _ 2) by (rewrite ?length_insert; simpl; lia) ].
  change (Z.to_nat 0) with 0%nat. change (Z.to_nat 1) with 1%nat.
  change (Z.to_nat 2) with 2%nat.
  cbn [insert list_insert].
  unfold for_range. change (Z.to_nat (3 - 0)) with 3%nat. cbn [for_loop].
  rewrite (add_axis_spec _ _ 0 _ _ p0 b0 (r_sub x2 x1)), bind_Ok by done.
  change (0 + 1) with 1.
  rewrite (add_axis_spec _ _ 1 _ _ p1 b1 (r_sub y2 y1)), bind_Ok by done.
  change (1 + 1) with 2.
  rewrite (add_axis_spec _ _ 2 _ _ p2 b2 (r_sub z2 z1)), bind_Ok by done.
  reflexivity.
Qed.


End MinimumImage.

Section ChargedImpurities.
Context `{MachineLaws}.

Lemma half_loop (bl : list real) :
  length bl = 3%nat ->
  for_range 0 3
    (fun d a => b ← get bl d; set a d (r_mul b r_half))
    (new_array uninit_real 3)
  = Ok ((fun b => r_mul b r_half) <$> bl).
Proof. destruct bl as [|b0 [|b1 [|b2 [|]]]]; done. Qed.

Lemma real_draws_snoc (t : nat) (a b : real) (g : generator) :
  real_draws (S t) a b g
  = let '(vs, g1) := real_draws t a b g in
    let '(v, g2) := rand_real a b g1 in
    (vs ++ [v], g2).
Proof.
  revert g. induction t as [|t IH]; intros g.
  - simpl. by destruct (rand_real a b g).
  - change (real_draws (S (S t)) a b g)
      with (let '(v, g) := rand_real a b g in
            let '(vs, g) := real_draws (S t) a b g in (v :: vs, g)).
    change (real_draws (S t) a b g)
      with (let '(v, g) := rand_real a b g in
            let '(vs, g) := real_draws t a b g in (v :: vs, g)).
    destruct (rand_real a b g) as [v g1]. rewrite IH.
    destruct (real_draws t a b g1) as [vs g2].
    by destruct (rand_real a b g2).
Qed.

Lemma length_real_draws (k : nat) (a b : real) (g : generator) :
  length (real_draws k a b g).1 = k.
Proof.
  revert g. induction k as [|k IH]; intros g; [done|]. cbn [real_draws].
  destruct (rand_real a b g) as [v g1]. specialize (IH g1).
  destruct (real_draws k a b g1) as [vs g2]. cbn [fst length] in *.
  by rewrite IH.
Qed.

(** Lines 210-215: the strengths of the impurities. *)
Lemma strengths_loop (k : Z) (a b : real) (g : generator) :
  0 <= k ->
  for_range 0 k
    (fun i '(s, g) =>
       let '(v, g) := rand_real a b g in
       s ← set s i v;
       Ok (s, g))
    (new_array uninit_real k, g)
  = Ok (real_draws (Z.to_nat k) a b g).
Proof.
  intros Hk.
  loop_invariant
    (fun t (s : list real * generator) =>
       length s.1 = Z.to_nat k
       /\ (take t s.1, s.2) = real_draws t a b g) Hloop.
  destruct Hloop as ([s g'] & Hrun & Hlen & Hs).
  - split; [apply length_new_array | done].
  - intros t [s g1] Ht [Hlen Hs]. cbn [fst snd] in *.
    destruct (rand_real a b g1) as [v g2] eqn:Hv.
    rewrite set_nat, bind_Ok by lia.
    eexists. split; [done|]. cbn [fst snd].
    split; [by rewrite length_insert|].
    rewrite real_draws_snoc, <- Hs, Hv.
    rewrite (take_S_r _ _ v) by (apply list_lookup_insert_eq; lia).
    by rewrite take_insert_ge by lia.
  - cbn [fst snd] in *. rewrite Hrun. f_equal.
    rewrite <- Hs. f_equal. rewrite <- Hlen. by rewrite firstn_all.
Qed.

Lemma screened_potential_snoc (model : Model) (range : real)
    (imps : list (Z * real)) (n2 : Z) (s : real) (n1 : Z) :
  screened_potential model range (imps ++ [(n2, s)]) n1
  = r_add (screened_potential model range imps n1)
      (r_mul s
         (r_exp (r_mul (r_neg (r_div (distance_square model n1 n2)
                                 (r_mul range range)))
                   r_half))).
Proof. unfold screened_potential. by rewrite fold_left_app. Qed.

(** Lines 217-245: the potential of every atom. *)
Lemma potential_loop (model : Model) (range : real) (k : Z)
    (sites : list Z) (strengths : list real) :
  let N := number_of_atoms model in
  0 <= N -> 0 <= k ->
  length (pbc model) = 3%nat -> length (box_length model) = 3%nat ->
  (Z.to_nat N <= length (x model))%nat ->
  (Z.to_nat N <= length (y model))%nat ->
  (Z.to_nat N <= length (z model))%nat ->
  (Z.to_nat N <= length (potential model))%nat ->
  length sites = Z.to_nat k -> length strengths = Z.to_nat k ->
  Forall (fun n2 => 0 <= n2 < N) sites ->
  exists potential',
    for_range 0 N
      (fun n1 potential =>
         potential ← set potential n1 r_zero;
         x1 ← get (x model) n1;
         y1 ← get (y model) n1;
         z1 ← get (z model) n1;
         for_range 0 k
           (fun i potential =>
              n2 ← get sites i;
              d12_square ← pair_distance_square
                (x model) (y model) (z model) (pbc model) (box_length model)
                ((fun b => r_mul b r_half) <$> box_length model) x1 y1 z1 n2;
              s ← get strengths i;
              v ← get potential n1;
              set potential n1
                (r_add v
                   (r_mul s
                      (r_exp (r_mul (r_neg (r_div d12_square
                                              (r_mul range range)))
                                r_half)))))
           potential)
      (potential model)
    = Ok potential'
    /\ length potential' = length (potential model)
    /\ forall n1, 0 <= n1 < N ->
         get potential' n1
         = Ok (screened_potential model range (zip sites strengths) n1).
Proof.
  intros N HN Hk Hpbc Hbl Hx Hy Hz Hpot Hsites Hstr Hrange.
  loop_invariant
    (fun t (pot : list real) =>
       length pot = length (potential model)
       /\ forall n1, (n1 < t)%nat ->
            pot !! n1
            = Some (screened_potential model range (zip sites strengths)
                      (Z.of_nat n1))) Hloop.
  destruct Hloop as (pot & Hrun & Hlen & Hdone).
  3: { exists pot. split; [exact Hrun|]. split; [done|].
       intros n1 Hn1. apply get_Ok; [lia|].
       rewrite Hdone by lia. by rewrite Z2Nat.id by lia. }
  { split; [done | lia]. }
  intros t pot Ht [Hlen Hdone].
  rewrite set_nat, bind_Ok by lia.
  destruct (lookup_lt_is_Some_2 (x model) t) as [x1 Hx1]; [lia|].
  destruct (lookup_lt_is_Some_2 (y model) t) as [y1 Hy1]; [lia|].
  destruct (lookup_lt_is_Some_2 (z model) t) as [z1 Hz1]; [lia|].
  rewrite (get_nat _ _ _ Hx1), (get_nat _ _ _ Hy1), (get_nat _ _ _ Hz1),
    !bind_Ok.
  loop_invariant
    (fun i (pot' : list real) =>
       length pot' = length (potential model)
       /\ pot' !! t
          = Some (screened_potential model range
                    (take i (zip sites strengths)) (Z.of_nat t))
       /\ forall n, n <> t -> pot' !! n = pot !! n) Hinner.
  destruct Hinner as (pot' & Hrun' & Hlen' & Hthis & Hothers).
  3: { exists pot'. split; [exact Hrun'|]. split; [done|].
       intros n1 Hn1. destruct (decide (n1 = t)) as [->|Hne].
       - rewrite Hthis. do 2 f_equal. apply take_ge.
         rewrite length_zip_with. lia.
       - rewrite Hothers by done. apply Hdone. lia. }
  { split; [by rewrite length_insert|]. split.
    - rewrite take_0. apply list_lookup_insert_eq. lia.
    - intros n Hn. by rewrite list_lookup_insert_ne. }
  intros i pot' Hi (Hlen' & Hthis & Hothers).
  destruct (lookup_lt_is_Some_2 sites i) as [n2 Hn2]; [lia|].
  destruct (lookup_lt_is_Some_2 strengths i) as [s Hs]; [lia|].
  pose proof (Forall_lookup_1 _ _ _ _ Hrange Hn2) as Hn2r. simpl in Hn2r.
  rewrite (get_nat _ _ _ Hn2), bind_Ok.
  rewrite <- (list_lookup_total_correct _ _ _ Hx1),
    <- (list_lookup_total_correct _ _ _ Hy1),
    <- (list_lookup_total_correct _ _ _ Hz1).
  pose proof (pair_distance_square_spec model (Z.of_nat t) n2 Hpbc Hbl
                ltac:(lia) ltac:(lia) ltac:(lia)) as Hd.
  rewrite Nat2Z.id in Hd. rewrite Hd, bind_Ok.
  rewrite (get_nat _ _ _ Hs), bind_Ok.
  rewrite (get_nat _ _ _ Hthis), bind_Ok.
  rewrite set_nat by lia.
  eexists. split; [done|].
  split; [by rewrite length_insert|]. split.
  - rewrite list_lookup_insert_eq by lia.
    rewrite (take_S_r _ _ (n2, s))
      by (apply lookup_zip_with_Some; by exists n2, s).
    by rewrite screened_potential_snoc.
  - intros n Hn. rewrite list_lookup_insert_ne by done. by apply Hothers.
Qed.


End ChargedImpurities.



(** ** The random state in spin mode *)

Section RandomState.
Context `{Machine}.

(** C9. In spin mode [initialize_state] visits the even indices [n], writes
    [(cos phase, sin phase)] for a drawn phase at [n] and zero at [n + 1].
    For an even [number_of_atoms] every write is inside the two arrays of
    [number_of_atoms] cells; for an odd one the last turn writes the cell
    [number_of_atoms], one past the end. *)
Theorem initialize_state_spin_bounds (N : Z) (g : generator) :
  0 <= N ->
  (Z.even N = true ->
   exists re im g',
     initialize_state true N g = Ok (re, im, g')
     /\ length re = Z.to_nat N /\ length im = Z.to_nat N
     /\ forall n, 0 <= n < N ->
          (Z.even n = true ->
           exists g0,
             let phase := (rand_real (r_of_int 0) r_two_pi g0).1 in
             get re n = Ok (r_cos phase) /\ get im n = Ok (r_sin phase))
          /\ (Z.odd n = true ->
              get re n = Ok r_zero /\ get im n = Ok r_zero))
  /\ (Z.odd N = true ->
      initialize_state true N g = Fault (OutOfBounds N (Z.to_nat N))).
Proof.
  intros HN. split.
  - intros Heven. apply Z.even_spec in Heven as [K HK].
    unfold initialize_state.
    replace (Z.to_nat ((N + 1) / 2)) with (Z.to_nat K)
      by (f_equal; apply Z.div_unique with 1; lia).
    edestruct (for_loop_inv
      (fun t (s : list real * list real * generator) =>
         let '(re, im, _) := s in
         length re = Z.to_nat N /\ length im = Z.to_nat N
         /\ forall j, (j < t)%nat ->
              (exists g0,
                 let phase := (rand_real (r_of_int 0) r_two_pi g0).1 in
                 re !! (2 * j)%nat = Some (r_cos phase)
                 /\ im !! (2 * j)%nat = Some (r_sin phase))
              /\ re !! (2 * j + 1)%nat = Some r_zero
              /\ im !! (2 * j + 1)%nat = Some r_zero)
      (Z.to_nat K) 0 2)
      as ([[re im] g'] & Hrun & Hre & Him & Hcells).
    3: { exists re, im, g'. split; [exact Hrun|]. split; [done|].
         split; [done|]. intros n Hn. split.
         - intros Hev. apply Z.even_spec in Hev as [j Hj].
           destruct (Hcells (Z.to_nat j)) as ((g0 & Hc & Hs) & _); [lia|].
           exists g0. cbn zeta in *.
           replace (2 * Z.to_nat j)%nat with (Z.to_nat n) in Hc, Hs by lia.
           split; apply get_Ok; (lia || done).
         - intros Hodd. apply Z.odd_spec in Hodd as [j Hj].
           destruct (Hcells (Z.to_nat j)) as (_ & Hc & Hs); [lia|].
           replace (2 * Z.to_nat j + 1)%nat with (Z.to_nat n) in Hc, Hs by lia.
           split; apply get_Ok; (lia || done). }
    + cbn beta iota. rewrite !length_new_array.
      split; [done|]. split; [done|]. lia.
    + intros t [[re im] g1] Ht (Hre & Him & Hcells). cbn beta iota zeta.
      destruct (rand_real (r_of_int 0) r_two_pi g1) as [phase g2] eqn:Hph.
      rewrite (set_Ok re), bind_Ok by lia.
      rewrite (set_Ok im), bind_Ok by lia.
      rewrite (set_Ok (<[_ := _]> re)), bind_Ok by (rewrite length_insert; lia).
      rewrite (set_Ok (<[_ := _]> im)), bind_Ok by (rewrite length_insert; lia).
      eexists. split; [done|]. cbn beta iota.
      rewrite !length_insert. split; [done|]. split; [done|].
      replace (Z.to_nat (0 + Z.of_nat t * 2)) with (2 * t)%nat by lia.
      replace (Z.to_nat (0 + Z.of_nat t * 2 + 1)) with (2 * t + 1)%nat by lia.
      intros j Hj. destruct (decide (j = t)) as [->|Hne].
      * split; [exists g1; rewrite Hph; cbn [fst]; split|split].
        -- rewrite list_lookup_insert_ne by lia.
           apply list_lookup_insert_eq. lia.
        -- rewrite list_lookup_insert_ne by lia.
           apply list_lookup_insert_eq. lia.
        -- apply list_lookup_insert_eq. rewrite length_insert. lia.
        -- apply list_lookup_insert_eq. rewrite length_insert. lia.
      * rewrite !list_lookup_insert_ne by lia. apply Hcells. lia.
  - intros Hodd. apply Z.odd_spec in Hodd as [K HK].
    unfold initialize_state.
    replace (Z.to_nat ((N + 1) / 2)) with (S (Z.to_nat K))
      by (replace ((N + 1) / 2) with (K + 1)
            by (apply Z.div_unique with 0; lia); lia).
    apply (for_loop_fault
      (fun t (s : list real * list real * generator) =>
         length s.1.1 = Z.to_nat N /\ length s.1.2 = Z.to_nat N)
      _ (Z.to_nat K)); [lia | | |].
    + cbn [fst snd]. by rewrite !length_new_array.
    + intros t [[re im] g1] Ht [Hre Him]. cbn [fst snd] in *.
      cbn beta iota zeta.
      destruct (rand_real (r_of_int 0) r_two_pi g1) as [phase g2].
      rewrite (set_Ok re), bind_Ok by lia.
      rewrite (set_Ok im), bind_Ok by lia.
      rewrite (set_Ok (<[_ := _]> re)), bind_Ok by (rewrite length_insert; lia).
      rewrite (set_Ok (<[_ := _]> im)), bind_Ok by (rewrite length_insert; lia).
      eexists. split; [done|]. cbn [fst snd]. by rewrite !length_insert.
    + intros [[re im] g1] [Hre Him]. cbn [fst snd] in *.
      cbn beta iota zeta.
      destruct (rand_real (r_of_int 0) r_two_pi g1) as [phase g2].
      rewrite (set_Ok re), bind_Ok by lia.
      rewrite (set_Ok im), bind_Ok by lia.
      rewrite (set_out (<[_ := _]> re)) by (rewrite length_insert; lia).
      rewrite length_insert, Hre.
      replace (0 + Z.of_nat (Z.to_nat K) * 2 + 1) with N by lia. done.
Qed.

End RandomState.

(** Four atoms: the writes stay in bounds. *)
Lemma initialize_state_spin_bounds_witness :
  exists re im g',
    initialize_state true 4 (7 : generator) = Ok (re, im, g')
    /\ length re = 4%nat /\ length im = 4%nat.
Proof.
  destruct (initialize_state_spin_bounds (H0 := lcg_machine) 4 7)
    as [Heven _]; [lia|].
  destruct (Heven eq_refl) as (re & im & g' & Hrun & Hre & Him & _).
  exists re, im, g'. split; [exact Hrun|]. split; [exact Hre | exact Him].
Defined.


(** * Further properties *)

(** ** The draws of [create_random_numbers] *)

Section Draws.
Context `{MachineLaws}.

Lemma int_draws_snoc (t : nat) (g : generator) :
  int_draws (S t) g
  = let '(rs, g1) := int_draws t g in
    let '(r, g2) := rand_int g1 in
    (rs ++ [r], g2).
Proof.
  revert g. induction t as [|t IH]; intros g.
  - simpl. by destruct (rand_int g).
  - change (int_draws (S (S t)) g)
      with (let '(r, g) := rand_int g in
            let '(rs, g) := int_draws (S t) g in (r :: rs, g)).
    change (int_draws (S t) g)
      with (let '(r, g) := rand_int g in
            let '(rs, g) := int_draws t g in (r :: rs, g)).
    destruct (rand_int g) as [r g1]. rewrite IH.
    destruct (int_draws t g1) as [rs g2].
    by destruct (rand_int g2).
Qed.

Lemma length_int_draws (n : nat) (g : generator) :
  length (int_draws n g).1 = n.
Proof.
  revert g. induction n as [|n IH]; intros g; [done|]. cbn [int_draws].
  destruct (rand_int g) as [r g1]. specialize (IH g1).
  destruct (int_draws n g1) as [rs g2]. cbn [fst length] in *.
  by rewrite IH.
Qed.

Lemma shuffle_picks_snoc (N : Z) (rs : list Z) (r : Z) :
  shuffle_picks N (rs ++ [r]) = shuffle_picks N rs ++ [pick N (length rs) r].
Proof.
  unfold shuffle_picks. rewrite imap_app. simpl. by rewrite Nat.add_0_r.
Qed.

(** Lines 53-60 make one draw per position. *)
Lemma shuffle_loop_draws (N : Z) (g : generator) :
  0 <= N ->
  for_range 0 N
    (fun i '(p, g) =>
       let '(r, g) := rand_int g in
       let j := Z.rem r (N - i) + i in
       temp ← get p i;
       pj ← get p j;
       p ← set p i pj;
       p ← set p j temp;
       Ok (p, g))
    (seqZ 0 N, g)
  = Ok (forward_shuffle 0 (shuffle_picks N (int_draws (Z.to_nat N) g).1)
          (seqZ 0 N),
        (int_draws (Z.to_nat N) g).2).
Proof.
  intros HN.
  edestruct (for_range_inv
    (fun t (s : list Z * generator) =>
       s = (forward_shuffle 0 (shuffle_picks N (int_draws t g).1) (seqZ 0 N),
            (int_draws t g).2)) N)
    as (s & Hrun & Hs); [| | rewrite <- Hs; exact Hrun].
  - done.
  - intros t s Ht ->.
    pose proof (length_int_draws t g) as Hlen.
    rewrite int_draws_snoc.
    destruct (int_draws t g) as [rs g1]. cbn [fst snd] in *.
    destruct (rand_int g1) as [r g2] eqn:Hr.
    assert (0 <= r) as Hr0.
    { pose proof (rand_int_range g1) as Hb. rewrite Hr in Hb. simpl in Hb. lia. }
    assert (0 < N - Z.of_nat t) as Hpos by lia.
    pose proof (Z.rem_bound_pos r (N - Z.of_nat t) Hr0 Hpos) as Hrem.
    remember (Z.rem r (N - Z.of_nat t) + Z.of_nat t) as j eqn:Hj.
    set (p := forward_shuffle 0 (shuffle_picks N rs) (seqZ 0 N)).
    assert (length p = Z.to_nat N) as Hp
      by (unfold p; by rewrite length_forward_shuffle, length_seqZ).
    destruct (lookup_lt_is_Some_2 p t) as [a Ha]; [lia|].
    destruct (lookup_lt_is_Some_2 p (Z.to_nat j)) as [b Hb]; [lia|].
    cbn zeta.
    rewrite (get_nat _ _ _ Ha), bind_Ok.
    rewrite (get_Ok p j b) by (done || lia). rewrite bind_Ok.
    rewrite set_nat, bind_Ok by lia.
    rewrite set_Ok, bind_Ok by (rewrite length_insert; lia).
    eexists. split; [done|]. cbn [fst snd]. f_equal.
    rewrite shuffle_picks_snoc, forward_shuffle_snoc. simpl.
    unfold shuffle_picks at 1. rewrite length_imap, Hlen.
    unfold pick. rewrite <- Hj. unfold swap. fold p. by rewrite Ha, Hb.
Qed.

(** What [create_random_numbers] does with a buffer of at least
    [total_number] cells. *)
Lemma create_random_numbers_run (N k : Z) (out : list Z) (g : generator) :
  0 <= k <= N -> (Z.to_nat k <= length out)%nat ->
  create_random_numbers N k out g
  = Ok (drawn N k g ++ drop (Z.to_nat k) out, (int_draws (Z.to_nat N) g).2).
Proof.
  intros Hk Hout. unfold create_random_numbers.
  rewrite identity_loop, bind_Ok by lia.
  pose proof (shuffle_loop_draws N g ltac:(lia)) as Hrun.
  cbn zeta in Hrun. rewrite Hrun, bind_Ok. cbn beta iota.
  rewrite copy_loop;
    [| lia | rewrite length_forward_shuffle, length_seqZ; lia | lia].
  by rewrite bind_Ok.
Qed.

Lemma length_drawn (N k : Z) (g : generator) :
  0 <= k <= N -> length (drawn N k g) = Z.to_nat k.
Proof.
  intros Hk. unfold drawn.
  rewrite length_take, length_forward_shuffle, length_seqZ. lia.
Qed.

Lemma drawn_distinct (N k : Z) (g : generator) :
  NoDup (drawn N k g) /\ Forall (fun v => 0 <= v < N) (drawn N k g).
Proof.
  unfold drawn.
  set (perm := forward_shuffle 0 _ (seqZ 0 N)).
  assert (perm ≡ₚ seqZ 0 N) as Hperm by apply forward_shuffle_Permutation.
  split.
  - apply (sublist_NoDup _ perm); [|apply sublist_take].
    rewrite Hperm. apply NoDup_seqZ.
  - apply Forall_take. rewrite Hperm. apply Forall_seqZ. lia.
Qed.

(** X1. [create_random_numbers] makes one draw for each of the [max_value]
    positions, whatever [total_number] is; the pick for position [i] is the
    draw modulo [max_value - i], plus [i]; the first [total_number] cells of
    the buffer receive the start of the shuffle and the cells after them are
    left as they were. *)
Theorem create_random_numbers_draws
    (N k : Z) (out : list Z) (g : generator) :
  0 <= k <= N -> (Z.to_nat k <= length out)%nat ->
  let draws := int_draws (Z.to_nat N) g in
  let perm := forward_shuffle 0 (shuffle_picks N draws.1) (seqZ 0 N) in
  create_random_numbers N k out g
  = Ok (take (Z.to_nat k) perm ++ drop (Z.to_nat k) out, draws.2)
  /\ length draws.1 = Z.to_nat N
  /\ (forall i r, draws.1 !! i = Some r ->
        shuffle_picks N draws.1 !! i
        = Some (Z.to_nat (Z.rem r (N - Z.of_nat i) + Z.of_nat i))
        /\ Z.of_nat i <= Z.rem r (N - Z.of_nat i) + Z.of_nat i < N).
Proof.
  intros Hk Hout draws perm.
  split; [by apply create_random_numbers_run|].
  split; [apply length_int_draws|].
  intros i r Hr. split.
  - unfold shuffle_picks. by rewrite list_lookup_imap, Hr.
  - pose proof (lookup_lt_Some _ _ _ Hr) as Hi.
    unfold draws in Hi. rewrite length_int_draws in Hi.
    assert (0 <= r) as Hr0.
    { clear Hi. unfold draws in Hr. clear draws perm.
      revert g i Hr. generalize (Z.to_nat N) as n.
      induction n as [|n IH]; intros g i Hr; [done|].
      cbn [int_draws] in Hr.
      pose proof (rand_int_range g) as Hb.
      destruct (rand_int g) as [r0 g1]. specialize (IH g1).
      destruct (int_draws n g1) as [rs g2]. cbn [fst snd] in *.
      destruct i as [|i]; [injection Hr as <-; lia|]. by apply (IH i). }
    pose proof (Z.rem_bound_pos r (N - Z.of_nat i) Hr0 ltac:(lia)). lia.
Qed.

End Draws.

(** Five atoms, two of them drawn into a buffer of three cells. *)
Lemma create_random_numbers_draws_witness :
  let draws := int_draws 5 (1 : generator) in
  let perm := forward_shuffle 0 (shuffle_picks 5 draws.1) (seqZ 0 5) in
  create_random_numbers 5 2 [7; 8; 9] (1 : generator)
  = Ok (take 2 perm ++ [9], draws.2).
Proof.
  exact (proj1 (create_random_numbers_draws (H1 := lcg_laws) 5 2 [7; 8; 9] 1
                  ltac:(lia) ltac:(simpl; lia))).
Defined.

(** ** The marks of the vacancies *)

Section Marks.
Context `{MachineLaws}.

Lemma marks_binary (N : Z) (vac : list Z) :
  Forall (fun v => v = 0 \/ v = 1) (marks N vac).
Proof.
  unfold marks. apply Forall_fmap, Forall_forall. intros n _. simpl.
  case_decide; auto.
Qed.

Lemma binary_count (l : list Z) :
  Forall (fun v => v = 0 \/ v = 1) l ->
  (length (filter (fun v : Z => v = 0%Z) l)
   + length (filter (fun v : Z => v = 1%Z) l) = length l)%nat.
Proof.
  induction 1 as [|v l Hv _ IH]; [done|].
  rewrite !filter_cons. repeat case_decide; simpl; lia.
Qed.

Lemma marks_count (N : Z) (vac : list Z) :
  0 <= N -> NoDup vac -> Forall (fun v => 0 <= v < N) vac ->
  Z.of_nat (length (filter (fun v => v = 0) (marks N vac)))
  = N - Z.of_nat (length vac)
  /\ Z.of_nat (length (filter (fun v => v = 1) (marks N vac)))
     = Z.of_nat (length vac).
Proof.
  intros HN Hnd Hr.
  pose proof (present_below_marks N vac HN Hnd Hr) as Hzero.
  unfold present_below in Hzero.
  rewrite take_ge in Hzero by (rewrite length_marks; lia).
  split; [done|].
  pose proof (binary_count _ (marks_binary N vac)) as Hc.
  rewrite length_marks in Hc. lia.
Qed.

(** What [specify_vacancies] returns, in terms of the draws. *)
Lemma specify_vacancies_run (N k : Z) (iv : list Z) (g : generator) :
  0 <= k <= N -> length iv = Z.to_nat N ->
  specify_vacancies k iv N g
  = Ok (marks N (drawn N k g), (int_draws (Z.to_nat N) g).2).
Proof.
  intros Hk Hliv.
  pose proof (length_drawn N k g Hk) as Hlen.
  destruct (drawn_distinct N k g) as [Hnd Hr].
  unfold specify_vacancies.
  rewrite create_random_numbers_run by (rewrite ?length_new_array; lia).
  rewrite bind_Ok. cbn beta iota.
  rewrite drop_ge, app_nil_r by (rewrite length_new_array; lia).
  rewrite clear_loop, bind_Ok by (done || lia).
  rewrite mark_loop, bind_Ok by (done || lia). done.
Qed.

(** X2. [specify_vacancies] marks exactly [number_of_vacancies] of the
    [number_of_atoms_pristine] cells of [is_vacancy] with 1 and the others
    with 0, the marked cells being the atoms that [create_random_numbers]
    draws; what [is_vacancy] held before does not matter. *)
Theorem specify_vacancies_count
    (N k : Z) (is_vacancy : list Z) (g : generator) :
  0 <= k <= N -> length is_vacancy = Z.to_nat N ->
  exists marked g',
    specify_vacancies k is_vacancy N g = Ok (marked, g')
    /\ marked = marks N (drawn N k g)
    /\ length marked = Z.to_nat N
    /\ Forall (fun v => v = 0 \/ v = 1) marked
    /\ Z.of_nat (length (filter (fun v => v = 1) marked)) = k
    /\ Z.of_nat (length (filter (fun v => v = 0) marked)) = N - k
    /\ forall other, length other = Z.to_nat N ->
         specify_vacancies k other N g = Ok (marked, g').
Proof.
  intros Hk Hiv.
  pose proof (length_drawn N k g Hk) as Hlen.
  destruct (drawn_distinct N k g) as [Hnd Hr].
  destruct (marks_count N (drawn N k g)) as [Hzero Hone]; [lia | done..|].
  eexists _, _. split; [by apply specify_vacancies_run|]. split; [done|].
  split; [apply length_marks|]. split; [apply marks_binary|].
  split; [lia|]. split; [lia|].
  intros other Hother. by apply specify_vacancies_run.
Qed.

End Marks.

(** Two vacancies among five atoms. *)
Lemma specify_vacancies_count_witness :
  exists marked g',
    specify_vacancies 2 (new_array uninit_int 5) 5 (1 : generator)
    = Ok (marked, g')
    /\ Z.of_nat (length (filter (fun v => v = 1) marked)) = 2.
Proof.
  destruct (specify_vacancies_count (H1 := lcg_laws)
              5 2 (new_array uninit_int 5) 1)
    as (marked & g' & Hrun & _ & _ & _ & Hone & _); [lia | reflexivity |].
  exists marked, g'. split; [exact Hrun | exact Hone].
Defined.

(** ** The new indices *)

(** X3. [find_new_atom_index] gives every atom that is not a vacancy the
    number of such atoms before it, so that the atoms kept are numbered
    0, 1, 2, ... in their pristine order; the cell of a vacancy is not
    written. *)
Theorem find_new_atom_index_order
    (is_vacancy new_atom_index : list Z) (N : Z) :
  0 <= N -> length is_vacancy = Z.to_nat N ->
  length new_atom_index = Z.to_nat N ->
  exists renumbered,
    find_new_atom_index is_vacancy new_atom_index N = Ok renumbered
    /\ length renumbered = Z.to_nat N
    /\ (forall n v, is_vacancy !! n = Some v ->
          renumbered !! n
          = if decide (v = 0)
            then Some (Z.of_nat (present_below is_vacancy n))
            else new_atom_index !! n)
    /\ (forall n n', (n < n')%nat ->
          is_vacancy !! n = Some 0 -> is_vacancy !! n' = Some 0 ->
          exists a a', renumbered !! n = Some a /\ renumbered !! n' = Some a'
                       /\ 0 <= a < a').
Proof.
  intros HN Hiv Hnai.
  edestruct (for_range_inv
    (fun t (s : Z * list Z) =>
       s.1 = Z.of_nat (present_below is_vacancy t)
       /\ length s.2 = Z.to_nat N
       /\ forall n v, is_vacancy !! n = Some v ->
            s.2 !! n
            = if decide (v = 0 /\ (n < t)%nat)
              then Some (Z.of_nat (present_below is_vacancy n))
              else new_atom_index !! n) N)
    as ([c a] & Hrun & Hc & Hlen & Ha); [| |].
  3: { cbn [fst snd] in *.
       assert (forall n v, is_vacancy !! n = Some v ->
                 a !! n = if decide (v = 0)
                          then Some (Z.of_nat (present_below is_vacancy n))
                          else new_atom_index !! n) as Hcells.
       { intros n v Hv. rewrite (Ha n v Hv).
         apply lookup_lt_Some in Hv as Hlt.
         repeat case_decide; (done || lia || tauto). }
       unfold find_new_atom_index. rewrite Hrun, bind_Ok.
       exists a. split; [done|]. split; [done|]. split; [exact Hcells|].
       intros n n' Hlt Hn Hn'.
       exists (Z.of_nat (present_below is_vacancy n)),
         (Z.of_nat (present_below is_vacancy n')).
       rewrite (Hcells n 0 Hn), (Hcells n' 0 Hn'). rewrite !decide_True by done.
       split; [done|]. split; [done|].
       pose proof (present_below_lt is_vacancy n n' Hn Hlt). lia. }
  - cbn [fst snd]. split; [done|]. split; [done|].
    intros n v Hv. rewrite decide_False; [done | lia].
  - intros t [c a] Ht (Hc & Hlen & Ha). cbn [fst snd] in Hc, Hlen, Ha.
    destruct (lookup_lt_is_Some_2 is_vacancy t) as [v Hv]; [lia|].
    rewrite (get_nat _ _ _ Hv), bind_Ok.
    rewrite (present_below_S _ _ _ Hv).
    destruct (decide (v = 0)) as [->|Hne].
    + rewrite set_nat, bind_Ok by lia. eexists. split; [done|]. cbn [fst snd].
      split; [lia|]. split; [by rewrite length_insert|].
      intros n w Hw. destruct (decide (n = t)) as [->|Hnt].
      * rewrite list_lookup_insert_eq by lia.
        assert (w = 0) as -> by congruence.
        rewrite decide_True by (split; [done | lia]). by rewrite Hc.
      * rewrite list_lookup_insert_ne by done. rewrite (Ha n w Hw).
        repeat case_decide; (done || lia || tauto).
    + eexists. split; [done|]. cbn [fst snd]. split; [lia|]. split; [done|].
      intros n w Hw. rewrite (Ha n w Hw).
      destruct (decide (n = t)) as [->|Hnt].
      * assert (w = v) as -> by congruence.
        rewrite !decide_False; [done | tauto | tauto].
      * repeat case_decide; (done || lia || tauto).
Qed.

(** The marks of one vacancy among four atoms. *)
Lemma find_new_atom_index_order_witness :
  exists renumbered,
    find_new_atom_index [0; 1; 0; 0] [9; 9; 9; 9] 4 = Ok renumbered
    /\ renumbered !! 1%nat = Some 9 /\ renumbered !! 3%nat = Some 2.
Proof.
  destruct (find_new_atom_index_order [0; 1; 0; 0] [9; 9; 9; 9] 4)
    as (renumbered & Hrun & _ & Hcells & _); [lia | reflexivity..|].
  exists renumbered. split; [exact Hrun|]. split.
  - exact (Hcells 1%nat 1 eq_refl).
  - exact (Hcells 3%nat 0 eq_refl).
Defined.


(** ** What [add_vacancies] keeps *)

Section VacancyFrame.
Context `{Machine}.

(** [add_vacancies] assigns [number_of_atoms], [number_of_pairs] and the five
    arrays of the neighbor table; every other member is left alone. *)
Lemma add_vacancies_frame (k : Z) (model model' : Model) (g g' : generator) :
  add_vacancies k model g = Ok (model', g') ->
  potential model' = potential model
  /\ x model' = x model /\ y model' = y model /\ z model' = z model
  /\ pbc model' = pbc model /\ box_length model' = box_length model
  /\ volume model' = volume model.
Proof.
  unfold add_vacancies. intros Hrun.
  apply bind_Ok_inv in Hrun as (nnp & _ & Hrun).
  apply bind_Ok_inv in Hrun as ([[[nlp hrp] hip] xsp] & _ & Hrun).
  cbn beta iota zeta in Hrun.
  apply bind_Ok_inv in Hrun as ([iv g1] & _ & Hrun).
  apply bind_Ok_inv in Hrun as (nai & _ & Hrun).
  apply bind_Ok_inv in Hrun as ([[cnt nn'] [[[nl' hr'] hi'] xs']] & _ & Hrun).
  injection Hrun as <- <-. done.
Qed.

End VacancyFrame.

Section VacancyInvariants.
Context `{MachineLaws}.

(** X4. [add_vacancies] renumbers the neighbor table only.  [potential],
    [x], [y] and [z] keep the cells they had, one for each pristine atom in
    the pristine order, although the model has [number_of_vacancies] atoms
    fewer; [pbc], [box_length] and [volume] are kept too. *)
Theorem add_vacancies_keeps_positions (model : Model) (k : Z) (g : generator) :
  well_formed model -> 0 <= k <= number_of_atoms model ->
  exists model' g',
    add_vacancies k model g = Ok (model', g')
    /\ number_of_atoms model' = number_of_atoms model - k
    /\ potential model' = potential model
    /\ x model' = x model /\ y model' = y model /\ z model' = z model
    /\ pbc model' = pbc model /\ box_length model' = box_length model
    /\ volume model' = volume model.
Proof.
  intros Hwf Hk.
  destruct (add_vacancies_spec k model g Hwf Hk)
    as (vac & g' & model' & _ & Hrun & _ & _ & _ & HN' & _).
  exists model', g'. split; [done|]. split; [done|].
  by apply (add_vacancies_frame k model model' g g').
Qed.

(** The table that [add_vacancies] builds is well formed. *)
Lemma add_vacancies_invariant (model : Model) (k : Z) (g : generator) :
  well_formed model -> 0 <= k <= number_of_atoms model ->
  exists model' g',
    add_vacancies k model g = Ok (model', g')
    /\ number_of_atoms model' = number_of_atoms model - k
    /\ well_formed model'.
Proof.
  intros Hwf Hk.
  destruct (add_vacancies_spec k model g Hwf Hk)
    as (vac & g' & model' & _ & Hrun & Hlen & Hnd & Hr & HN' & Hmn' & Hpairs'
        & Hnn' & (Hl1 & Hl2 & Hl3 & Hl4) & Hrows).
  exists model', g'. split; [done|]. split; [done|].
  pose proof Hwf as (HN & Hmn & _).
  assert (forall a, 0 <= a < number_of_atoms model - k ->
    exists n, 0 <= n < number_of_atoms model
      /\ compacted_atom (marks (number_of_atoms model) vac) model model' n
      /\ new_index (marks (number_of_atoms model) vac) n = a) as Honto.
  { intros a Ha.
    destruct (new_index_onto (number_of_atoms model) vac a)
      as (n & Hn & Hvac & Hna); [done.. | lia |].
    exists n. split; [done|]. split; [by apply Hrows | done]. }
  unfold well_formed. rewrite HN', Hmn', Hpairs'.
  split; [lia|]. split; [done|]. split; [done|]. split; [done|].
  split; [done|]. split; [done|]. split; [done|]. split; [done|].
  split.
  - apply Forall_lookup_2. intros i c Hc.
    pose proof (lookup_lt_Some _ _ _ Hc) as Hi. rewrite Hnn' in Hi.
    destruct (Honto (Z.of_nat i)) as (n & Hn & (Hcount & _) & Hna); [lia|].
    rewrite Hna in Hcount. unfold hop_count in Hcount at 1.
    rewrite Nat2Z.id, (list_lookup_total_correct _ _ _ Hc) in Hcount.
    destruct (length_targets model n Hwf Hn) as [HT Hcn].
    pose proof (length_filter
      (present (marks (number_of_atoms model) vac)) (targets model n)). lia.
  - apply Forall_seqZ. intros a Ha.
    destruct (Honto a) as (n & Hn & (_ & Htar & _) & Hna); [lia|].
    rewrite Hna in Htar. rewrite Htar.
    apply Forall_fmap, Forall_forall. intros t Ht. simpl.
    apply list_elem_of_filter in Ht as [Hp _].
    pose proof (new_index_bound _ _ _ HN Hnd Hr Hp). lia.
Qed.

(** X5. [add_vacancies] keeps the invariant of the neighbor table: the
    arrays of the new model have the sizes of its [number_of_atoms] and
    [number_of_pairs], no atom has more than [max_neighbor] hops, and every
    hop leads to an atom of the new model. *)
Theorem add_vacancies_well_formed (model : Model) (k : Z) (g : generator) :
  well_formed model -> 0 <= k <= number_of_atoms model ->
  exists model' g',
    add_vacancies k model g = Ok (model', g') /\ well_formed model'.
Proof.
  intros Hwf Hk.
  destruct (add_vacancies_invariant model k g Hwf Hk)
    as (model' & g' & Hrun & _ & Hwf').
  by exists model', g'.
Qed.

(** In a well-formed table every target is an atom. *)
Lemma target_in_range (model : Model) (n t : Z) :
  well_formed model -> 0 <= n < number_of_atoms model ->
  t ∈ targets model n -> 0 <= t < number_of_atoms model.
Proof.
  intros (_ & _ & _ & _ & _ & _ & _ & _ & _ & Htar) Hn Ht.
  pose proof (proj1 (Forall_seqZ _ _ _) Htar n ltac:(lia)) as Hrow.
  by apply (proj1 (Forall_forall _ _) Hrow).
Qed.

(** X6. If every hop of the pristine table has its hop back, so has every
    hop of the table that [add_vacancies] builds: a hop is removed together
    with the hop back. *)
Theorem add_vacancies_symmetric (model : Model) (k : Z) (g : generator) :
  well_formed model -> symmetric_table model ->
  0 <= k <= number_of_atoms model ->
  exists model' g',
    add_vacancies k model g = Ok (model', g') /\ symmetric_table model'.
Proof.
  intros Hwf Hsym Hk.
  destruct (add_vacancies_spec k model g Hwf Hk)
    as (vac & g' & model' & _ & Hrun & Hlen & Hnd & Hr & HN' & _ & _
        & _ & _ & Hrows).
  exists model', g'. split; [done|].
  pose proof Hwf as (HN & _).
  set (N := number_of_atoms model) in *.
  intros a b Ha Hb. rewrite HN' in Ha.
  destruct (new_index_onto N vac a) as (n & Hn & Hvac & Hna);
    [done.. | lia |].
  destruct (Hrows n Hn Hvac) as (_ & Htar & _). rewrite Hna in Htar.
  rewrite Htar in Hb. apply list_elem_of_fmap in Hb as (t & -> & Ht).
  apply list_elem_of_filter in Ht as [Hp Ht].
  pose proof (target_in_range model n t Hwf Hn Ht) as Htr. fold N in Htr.
  pose proof (Hsym n t Hn Ht) as Hback.
  destruct (Hrows t Htr ltac:(by apply (marks_present N))) as (_ & Htar' & _).
  rewrite Htar', <- Hna. apply list_elem_of_fmap. exists n. split; [done|].
  apply list_elem_of_filter. split; [|done]. by apply (marks_present N).
Qed.

(** ** No vacancy, and no atom left *)

Lemma present_below_no_vacancy (N : Z) (n : nat) :
  Z.of_nat n <= N -> present_below (marks N []) n = n.
Proof.
  induction n as [|n IH]; intros Hn; [done|].
  rewrite (present_below_S _ _ 0).
  - rewrite decide_True by done. rewrite IH by lia. lia.
  - rewrite lookup_marks by lia. rewrite decide_False; [done|].
    apply not_elem_of_nil.
Qed.

Lemma filter_all {A} (P : A -> Prop) `{!forall a, Decision (P a)}
    (l : list A) :
  Forall P l -> filter P l = l.
Proof.
  induction 1 as [|a l Ha _ IH]; [done|].
  rewrite filter_cons, decide_True by done. by rewrite IH.
Qed.

Lemma surviving_all {A} (iv T : list Z) (X : list A) :
  Forall (present iv) T -> length T = length X -> surviving iv T X = X.
Proof.
  intros HT. revert X. induction HT as [|t T Ht _ IH]; intros [|v X] Hlen;
    try done.
  unfold surviving in *. cbn [zip_with]. rewrite filter_cons. cbn [fst].
  rewrite decide_True by done. cbn [fmap list_fmap snd].
  f_equal. apply IH. by injection Hlen.
Qed.

(** X7. With [number_of_vacancies = 0], [add_vacancies] rebuilds the table
    it was given: every atom keeps its index, its number of hops, and the
    targets and the values of its hops. *)
Theorem add_vacancies_none (model : Model) (g : generator) :
  well_formed model ->
  exists model' g',
    add_vacancies 0 model g = Ok (model', g')
    /\ number_of_atoms model' = number_of_atoms model
    /\ forall n, 0 <= n < number_of_atoms model ->
         hop_count model' n = hop_count model n
         /\ targets model' n = targets model n
         /\ hop_values model' (hopping_real model') n
            = hop_values model (hopping_real model) n
         /\ hop_values model' (hopping_imag model') n
            = hop_values model (hopping_imag model) n
         /\ hop_values model' (xx model') n = hop_values model (xx model) n.
Proof.
  intros Hwf. pose proof Hwf as (HN & Hmn & Hpairs & Hnn & Hnl & Hhr & Hhi
                                 & Hxs & _).
  destruct (add_vacancies_spec 0 model g Hwf ltac:(lia))
    as (vac & g' & model' & _ & Hrun & Hlen & _ & _ & HN' & _ & _
        & _ & _ & Hrows).
  apply nil_length_inv in Hlen. subst vac.
  exists model', g'. split; [done|]. split; [lia|].
  set (N := number_of_atoms model) in *.
  intros n Hn.
  destruct (Hrows n Hn ltac:(apply not_elem_of_nil))
    as (Hcount & Htar & Hre & Him & Hxx).
  assert (forall t, 0 <= t < N -> new_index (marks N []) t = t) as Hsame.
  { intros t Ht. unfold new_index.
    rewrite present_below_no_vacancy by lia. lia. }
  assert (Forall (present (marks N [])) (targets model n)) as Hall.
  { apply Forall_forall. intros t Ht.
    apply (marks_present N); [|apply not_elem_of_nil].
    by apply (target_in_range model n). }
  destruct (length_targets model n Hwf Hn) as [HT Hcn].
  assert (forall a : list real,
    length a = Z.to_nat (number_of_pairs model) ->
    length (targets model n) = length (hop_values model a n)) as Hlens.
  { intros a Hla. rewrite HT. unfold hop_values.
    rewrite length_row; [done | lia | nia |]. fold N in Hpairs. nia. }
  rewrite (Hsame n Hn) in Hcount, Htar, Hre, Him, Hxx.
  rewrite (filter_all _ _ Hall) in Hcount, Htar.
  rewrite surviving_all in Hre, Him, Hxx by (done || by apply Hlens).
  split; [lia|]. split; [|done].
  rewrite Htar. rewrite <- (list_fmap_id (targets model n)) at 2.
  apply Forall_fmap_ext_1, Forall_forall. intros t Ht. simpl.
  apply Hsame. by apply (target_in_range model n).
Qed.

(** X8. With [number_of_vacancies = number_of_atoms], [add_vacancies]
    returns a model without atoms, whose five table arrays are empty. *)
Theorem add_vacancies_all (model : Model) (g : generator) :
  well_formed model ->
  exists model' g',
    add_vacancies (number_of_atoms model) model g = Ok (model', g')
    /\ number_of_atoms model' = 0 /\ number_of_pairs model' = 0
    /\ neighbor_number model' = [] /\ neighbor_list model' = []
    /\ hopping_real model' = [] /\ hopping_imag model' = []
    /\ xx model' = [].
Proof.
  intros Hwf. pose proof Hwf as (HN & _).
  assert (0 <= number_of_atoms model <= number_of_atoms model) as Hk by lia.
  destruct (add_vacancies_spec (number_of_atoms model) model g Hwf Hk)
    as (vac & g' & model' & _ & Hrun & _ & _ & _ & HN' & _ & Hpairs'
        & Hnn' & (Hl1 & Hl2 & Hl3 & Hl4) & _).
  exists model', g'. split; [done|].
  rewrite Z.sub_diag in *. rewrite Z.mul_0_l in *.
  split; [done|]. split; [done|].
  by repeat split; apply nil_length_inv.
Qed.

End VacancyInvariants.

(** Every atom of [square_model] hops to the atom two places on, modulo
    four. *)
Lemma square_model_symmetric : symmetric_table square_model.
Proof.
  intros n t Hn Ht. change (0 <= n < 4) in Hn.
  assert (n = 0 \/ n = 1 \/ n = 2 \/ n = 3) as [->|[->|[->| ->]]] by lia.
  - change (t ∈ [2]) in Ht. apply list_elem_of_singleton in Ht as ->.
    change (0 ∈ [0]). by apply list_elem_of_singleton.
  - change (t ∈ [3]) in Ht. apply list_elem_of_singleton in Ht as ->.
    change (1 ∈ [1]). by apply list_elem_of_singleton.
  - change (t ∈ [0]) in Ht. apply list_elem_of_singleton in Ht as ->.
    change (2 ∈ [2]). by apply list_elem_of_singleton.
  - change (t ∈ [1]) in Ht. apply list_elem_of_singleton in Ht as ->.
    change (3 ∈ [3]). by apply list_elem_of_singleton.
Qed.

Lemma add_vacancies_keeps_positions_witness :
  exists model' g',
    add_vacancies 1 square_model_positions (7 : generator) = Ok (model', g')
    /\ number_of_atoms model' = 3
    /\ x model' = x square_model_positions.
Proof.
  destruct (add_vacancies_keeps_positions (H1 := lcg_laws)
              square_model_positions 1 7)
    as (model' & g' & Hrun & HN & _ & Hx & _).
  - apply (bool_decide_unpack _). vm_compute. reflexivity.
  - simpl. lia.
  - exists model', g'. split; [exact Hrun|]. split; [exact HN | exact Hx].
Defined.

Lemma add_vacancies_well_formed_witness :
  exists model' g',
    add_vacancies 1 square_model (7 : generator) = Ok (model', g')
    /\ well_formed model'.
Proof.
  apply (add_vacancies_well_formed (H1 := lcg_laws) square_model 1 7).
  - apply (bool_decide_unpack _). vm_compute. reflexivity.
  - simpl. lia.
Defined.

Lemma add_vacancies_symmetric_witness :
  exists model' g',
    add_vacancies 1 square_model (7 : generator) = Ok (model', g')
    /\ symmetric_table model'.
Proof.
  apply (add_vacancies_symmetric (H1 := lcg_laws) square_model 1 7).
  - apply (bool_decide_unpack _). vm_compute. reflexivity.
  - exact square_model_symmetric.
  - simpl. lia.
Defined.

Lemma add_vacancies_none_witness :
  exists model' g',
    add_vacancies 0 square_model (7 : generator) = Ok (model', g')
    /\ number_of_atoms model' = 4.
Proof.
  destruct (add_vacancies_none (H1 := lcg_laws) square_model 7)
    as (model' & g' & Hrun & HN & _).
  - apply (bool_decide_unpack _). vm_compute. reflexivity.
  - exists model', g'. split; [exact Hrun | exact HN].
Defined.

Lemma add_vacancies_all_witness :
  exists model' g',
    add_vacancies 4 square_model (7 : generator) = Ok (model', g')
    /\ number_of_atoms model' = 0 /\ neighbor_list model' = [].
Proof.
  destruct (add_vacancies_all (H1 := lcg_laws) square_model 7)
    as (model' & g' & Hrun & HN & _ & _ & Hnl & _).
  - apply (bool_decide_unpack _). vm_compute. reflexivity.
  - exists model', g'. split; [exact Hrun|]. split; [exact HN | exact Hnl].
Defined.


(** ** Arrays filled with draws *)

Section DrawLoops.
Context `{Machine}.

(** [for (i = 0; i < k; ++i) a[i] = distribution(generator);] *)
Lemma draw_loop (k : Z) (a b : real) (arr : list real) (g : generator) :
  (Z.to_nat k <= length arr)%nat ->
  for_range 0 k
    (fun i '(s, g) =>
       let '(v, g) := rand_real a b g in
       s ← set s i v;
       Ok (s, g))
    (arr, g)
  = Ok ((real_draws (Z.to_nat k) a b g).1 ++ drop (Z.to_nat k) arr,
        (real_draws (Z.to_nat k) a b g).2).
Proof.
  intros Hk.
  loop_invariant
    (fun t (s : list real * generator) =>
       s = ((real_draws t a b g).1 ++ drop t arr, (real_draws t a b g).2))
    Hloop.
  destruct Hloop as (s & Hrun & ->); [done | | exact Hrun].
  intros t s Ht ->.
  pose proof (length_real_draws t a b g) as Hlen.
  rewrite real_draws_snoc.
  destruct (real_draws t a b g) as [vs g1]. cbn [fst snd] in *.
  destruct (rand_real a b g1) as [v g2].
  rewrite set_nat, bind_Ok by (rewrite length_app, length_drop; lia).
  eexists. split; [done|]. cbn [fst snd]. f_equal.
  destruct (lookup_lt_is_Some_2 arr t) as [d Hd]; [lia|].
  rewrite (drop_S _ _ _ Hd).
  rewrite insert_app_r_alt by lia. rewrite Hlen, Nat.sub_diag. simpl.
  by rewrite <- app_assoc.
Qed.

(** The array is too short: the write after its last cell ends the run. *)
Lemma draw_loop_short (k : Z) (a b : real) (arr : list real) (g : generator) :
  (length arr < Z.to_nat k)%nat ->
  for_range 0 k
    (fun i '(s, g) =>
       let '(v, g) := rand_real a b g in
       s ← set s i v;
       Ok (s, g))
    (arr, g)
  = Fault (OutOfBounds (Z.of_nat (length arr)) (length arr)).
Proof.
  intros Hk. unfold for_range.
  apply (for_loop_fault
    (fun t (s : list real * generator) => length s.1 = length arr)
    _ (length arr)); [lia | done | |].
  - intros t [s g1] Ht Hs. cbn [fst] in Hs.
    destruct (rand_real a b g1) as [v g2].
    replace (0 + Z.of_nat t * 1) with (Z.of_nat t) by lia.
    rewrite set_nat, bind_Ok by lia.
    eexists. split; [done|]. cbn [fst]. by rewrite length_insert.
  - intros [s g1] Hs. cbn [fst] in Hs.
    destruct (rand_real a b g1) as [v g2].
    replace (0 + Z.of_nat (length arr) * 1) with (Z.of_nat (length arr)) by lia.
    rewrite set_out by lia. by rewrite Hs.
Qed.

(** ** Anderson disorder *)

(** X9. [add_anderson_disorder] gives the atoms [0 .. number_of_atoms - 1]
    the successive draws of a uniform distribution on [[-W/2, W/2]], one draw
    for each atom, and changes nothing else of the model; cells of
    [potential] after the atoms are kept.  With fewer cells in [potential]
    than atoms the run ends at the write after its last cell. *)
Theorem add_anderson_disorder_draws
    (strength : real) (model : Model) (g : generator) :
  let N := number_of_atoms model in
  let W2 := r_mul strength r_half in
  let draws := real_draws (Z.to_nat N) (r_neg W2) W2 g in
  ((Z.to_nat N <= length (potential model))%nat ->
   add_anderson_disorder strength model g
   = Ok (set_potential model
           (draws.1 ++ drop (Z.to_nat N) (potential model)), draws.2))
  /\ ((length (potential model) < Z.to_nat N)%nat ->
      add_anderson_disorder strength model g
      = Fault (OutOfBounds (Z.of_nat (length (potential model)))
                 (length (potential model)))).
Proof.
  intros N W2 draws. unfold add_anderson_disorder. cbn zeta. fold N W2.
  split; intros Hlen.
  - by rewrite draw_loop, bind_Ok by done.
  - by rewrite draw_loop_short by done.
Qed.

(** ** The random state without spin *)

(** X10. Without spin [initialize_state] returns for every
    [number_of_atoms]: it draws one phase for each atom from the uniform
    distribution on [[0, 2 PI]], and the cell of atom [n] holds the cosine
    and the sine of the phase drawn for [n]. *)
Theorem initialize_state_phases (N : Z) (g : generator) :
  0 <= N ->
  let draws := real_draws (Z.to_nat N) (r_of_int 0) r_two_pi g in
  initialize_state false N g
  = Ok (r_cos <$> draws.1, r_sin <$> draws.1, draws.2)
  /\ length draws.1 = Z.to_nat N.
Proof.
  intros HN draws. split; [|apply length_real_draws].
  unfold initialize_state.
  loop_invariant
    (fun t (s : list real * list real * generator) =>
       let d := real_draws t (r_of_int 0) r_two_pi g in
       s = ((r_cos <$> d.1) ++ replicate (Z.to_nat N - t) uninit_real,
            (r_sin <$> d.1) ++ replicate (Z.to_nat N - t) uninit_real,
            d.2)) Hloop.
  destruct Hloop as (s & Hrun & ->).
  - cbn [real_draws fst snd fmap list_fmap app]. by rewrite Nat.sub_0_r.
  - intros t s Ht ->. cbn zeta.
    pose proof (length_real_draws t (r_of_int 0) r_two_pi g) as Hlen.
    rewrite real_draws_snoc.
    destruct (real_draws t (r_of_int 0) r_two_pi g) as [vs g1].
    cbn [fst snd] in *.
    destruct (rand_real (r_of_int 0) r_two_pi g1) as [v g2].
    rewrite !set_nat, !bind_Ok
      by (rewrite length_app, length_fmap, length_replicate; lia).
    eexists. split; [done|]. cbn [fst snd].
    replace (Z.to_nat N - t)%nat with (S (Z.to_nat N - S t)) by lia.
    rewrite !insert_app_r_alt by (rewrite length_fmap; lia).
    rewrite !length_fmap, Hlen, Nat.sub_diag. cbn [replicate insert list_insert].
    by rewrite !fmap_app, <- !app_assoc.
  - rewrite Hrun. cbn zeta. rewrite Nat.sub_diag. cbn [replicate].
    by rewrite !app_nil_r.
Qed.

(** ** The random state in spin mode *)

Lemma length_spin_cells (f : real -> real) (phases : list real) :
  length (spin_cells f phases) = (2 * length phases)%nat.
Proof.
  unfold spin_cells. induction phases as [|p ps IH]; [done|].
  cbn [mbind list_bind app length] in *. rewrite IH. lia.
Qed.

Lemma spin_cells_snoc (f : real -> real) (phases : list real) (p : real) :
  spin_cells f (phases ++ [p]) = spin_cells f phases ++ [f p; r_zero].
Proof. unfold spin_cells. by rewrite bind_app. Qed.

(** X11. In spin mode with an even [number_of_atoms], [initialize_state]
    draws one phase for each pair of atoms, half as many as without spin;
    the even atom of the pair holds the cosine and the sine of the phase
    and the odd atom holds zero. *)
Theorem initialize_state_spin_phases (K : Z) (g : generator) :
  0 <= K ->
  let draws := real_draws (Z.to_nat K) (r_of_int 0) r_two_pi g in
  initialize_state true (2 * K) g
  = Ok (spin_cells r_cos draws.1, spin_cells r_sin draws.1, draws.2)
  /\ length draws.1 = Z.to_nat K.
Proof.
  intros HK draws. split; [|apply length_real_draws].
  unfold initialize_state.
  replace (Z.to_nat ((2 * K + 1) / 2)) with (Z.to_nat K)
    by (f_equal; apply Z.div_unique with 1; lia).
  edestruct (for_loop_inv
    (fun t (s : list real * list real * generator) =>
       let d := real_draws t (r_of_int 0) r_two_pi g in
       s = (spin_cells r_cos d.1
              ++ replicate (Z.to_nat (2 * K) - 2 * t) uninit_real,
            spin_cells r_sin d.1
              ++ replicate (Z.to_nat (2 * K) - 2 * t) uninit_real,
            d.2))
    (Z.to_nat K) 0 2) as (s & Hrun & Hs).
  3: { rewrite Hrun, Hs. cbn zeta.
       replace (Z.to_nat (2 * K) - 2 * Z.to_nat K)%nat with 0%nat by lia.
       cbn [replicate]. by rewrite !app_nil_r. }
  - cbn [real_draws fst snd]. unfold spin_cells, new_array.
    cbn [mbind list_bind app]. by rewrite Nat.mul_0_r, Nat.sub_0_r.
  - intros t s Ht ->. cbn zeta beta iota.
    pose proof (length_real_draws t (r_of_int 0) r_two_pi g) as Hlen.
    rewrite real_draws_snoc.
    destruct (real_draws t (r_of_int 0) r_two_pi g) as [vs g1].
    cbn [fst snd] in *.
    destruct (rand_real (r_of_int 0) r_two_pi g1) as [v g2].
    replace (0 + Z.of_nat t * 2) with (Z.of_nat (2 * t)) by lia.
    replace (Z.of_nat (2 * t) + 1) with (Z.of_nat (2 * t + 1)) by lia.
    assert (forall f, length (spin_cells f vs) = (2 * t)%nat) as Hcells
      by (intros f; by rewrite length_spin_cells, Hlen).
    rewrite (set_nat (spin_cells r_cos vs ++ _)), bind_Ok
      by (rewrite length_app, Hcells, length_replicate; lia).
    rewrite (set_nat (spin_cells r_sin vs ++ _)), bind_Ok
      by (rewrite length_app, Hcells, length_replicate; lia).
    rewrite (set_nat (<[_ := _]> (spin_cells r_cos vs ++ _))), bind_Ok
      by (rewrite length_insert, length_app, Hcells, length_replicate; lia).
    rewrite (set_nat (<[_ := _]> (spin_cells r_sin vs ++ _))), bind_Ok
      by (rewrite length_insert, length_app, Hcells, length_replicate; lia).
    eexists. split; [done|]. cbn [fst snd].
    replace (Z.to_nat (2 * K) - 2 * t)%nat
      with (S (S (Z.to_nat (2 * K) - 2 * S t))) by lia.
    rewrite !insert_app_r_alt by (rewrite ?Hcells; lia).
    rewrite !Hcells.
    replace (2 * t - 2 * t)%nat with 0%nat by lia.
    replace (2 * t + 1 - 2 * t)%nat with 1%nat by lia.
    cbn [replicate insert list_insert].
    by rewrite !spin_cells_snoc, <- !app_assoc.
Qed.

End DrawLoops.

(** Three atoms of [square_model] get their draws. *)
Lemma initialize_state_phases_witness :
  let draws := real_draws 3 (r_of_int 0) r_two_pi (7 : generator) in
  initialize_state false 3 (7 : generator)
  = Ok (r_cos <$> draws.1, r_sin <$> draws.1, draws.2).
Proof.
  exact (proj1 (initialize_state_phases (H0 := lcg_machine) 3 7 ltac:(lia))).
Defined.

(** Two pairs of atoms. *)
Lemma initialize_state_spin_phases_witness :
  let draws := real_draws 2 (r_of_int 0) r_two_pi (7 : generator) in
  initialize_state true 4 (7 : generator)
  = Ok (spin_cells r_cos draws.1, spin_cells r_sin draws.1, draws.2).
Proof.
  exact (proj1 (initialize_state_spin_phases (H0 := lcg_machine) 2 7
                  ltac:(lia))).
Defined.

(** ** The charged impurities *)

Section Impurities.
Context `{MachineLaws}.

(** What [add_charged_impurities] returns, in terms of the draws. *)
Lemma add_charged_impurities_run
    (k : Z) (strength range : real) (model : Model) (g : generator) :
  let N := number_of_atoms model in
  let W2 := r_mul strength r_half in
  let sites := drawn N k g in
  let draws := real_draws (Z.to_nat k) (r_neg W2) W2
                 (int_draws (Z.to_nat N) g).2 in
  0 <= k <= N ->
  length (pbc model) = 3%nat -> length (box_length model) = 3%nat ->
  (Z.to_nat N <= length (x model))%nat ->
  (Z.to_nat N <= length (y model))%nat ->
  (Z.to_nat N <= length (z model))%nat ->
  (Z.to_nat N <= length (potential model))%nat ->
  exists pot,
    add_charged_impurities k strength range model g
    = Ok (set_potential model pot, draws.2)
    /\ length pot = length (potential model)
    /\ forall n1, 0 <= n1 < N ->
         get pot n1
         = Ok (screened_potential model range (zip sites draws.1) n1).
Proof.
  intros N W2 sites draws Hk Hpbc Hbl Hx Hy Hz Hpot.
  destruct (drawn_distinct N k g) as [_ Hrange].
  pose proof (length_drawn N k g Hk) as Hlen.
  pose proof (length_real_draws (Z.to_nat k) (r_neg W2) W2
                (int_draws (Z.to_nat N) g).2) as Hstr.
  destruct (potential_loop model range k sites draws.1)
    as (pot & Hloop & Hpotlen & Hvalues); try (done || lia).
  exists pot. split; [|done].
  unfold add_charged_impurities. rewrite half_loop, bind_Ok by done.
  fold N. rewrite create_random_numbers_run
    by (rewrite ?length_new_array; lia).
  rewrite bind_Ok. cbn beta iota zeta.
  rewrite drop_ge, app_nil_r by (rewrite length_new_array; lia).
  fold W2. rewrite strengths_loop by lia. fold draws.
  destruct draws as [strengths g2] eqn:Hdr. rewrite bind_Ok. cbn beta iota.
  fold N sites. cbn [fst snd] in *.
  eapply bind_run; [exact Hloop|]. reflexivity.
Qed.

(** X12. The impurity sites are the atoms that [create_random_numbers]
    draws and the strengths are drawn after them from the uniform
    distribution on [[-W/2, W/2]].  The potential that
    [add_charged_impurities] leaves at the atoms does not depend on the
    potential the model had: an Anderson disorder added before is
    overwritten. *)
Theorem add_charged_impurities_overwrites
    (k : Z) (strength range : real) (model : Model) (other : list real)
    (g : generator) :
  let N := number_of_atoms model in
  let W2 := r_mul strength r_half in
  let sites := drawn N k g in
  let draws := real_draws (Z.to_nat k) (r_neg W2) W2
                 (int_draws (Z.to_nat N) g).2 in
  0 <= k <= N ->
  length (pbc model) = 3%nat -> length (box_length model) = 3%nat ->
  (Z.to_nat N <= length (x model))%nat ->
  (Z.to_nat N <= length (y model))%nat ->
  (Z.to_nat N <= length (z model))%nat ->
  (Z.to_nat N <= length (potential model))%nat ->
  (Z.to_nat N <= length other)%nat ->
  exists model1 model2,
    add_charged_impurities k strength range model g = Ok (model1, draws.2)
    /\ add_charged_impurities k strength range (set_potential model other) g
       = Ok (model2, draws.2)
    /\ forall n1, 0 <= n1 < N ->
         get (potential model1) n1
         = Ok (screened_potential model range (zip sites draws.1) n1)
         /\ get (potential model2) n1 = get (potential model1) n1.
Proof.
  intros N W2 sites draws Hk Hpbc Hbl Hx Hy Hz Hpot Hother.
  destruct (add_charged_impurities_run k strength range model g)
    as (pot1 & Hrun1 & _ & Hv1); try done.
  destruct (add_charged_impurities_run k strength range
              (set_potential model other) g)
    as (pot2 & Hrun2 & _ & Hv2); try done.
  eexists _, _. split; [exact Hrun1|]. split; [exact Hrun2|].
  intros n1 Hn1. cbn [potential set_potential].
  split; [by apply Hv1|].
  rewrite (Hv1 n1 Hn1). by apply (Hv2 n1).
Qed.

(** X13. With [number_of_charged_impurities = 0],
    [add_charged_impurities] leaves the potential zero at every atom,
    whatever the potential was. *)
Theorem add_charged_impurities_none
    (strength range : real) (model : Model) (g : generator) :
  let N := number_of_atoms model in
  0 <= N ->
  length (pbc model) = 3%nat -> length (box_length model) = 3%nat ->
  (Z.to_nat N <= length (x model))%nat ->
  (Z.to_nat N <= length (y model))%nat ->
  (Z.to_nat N <= length (z model))%nat ->
  (Z.to_nat N <= length (potential model))%nat ->
  exists model' g',
    add_charged_impurities 0 strength range model g = Ok (model', g')
    /\ forall n1, 0 <= n1 < N -> get (potential model') n1 = Ok r_zero.
Proof.
  intros N HN Hpbc Hbl Hx Hy Hz Hpot.
  destruct (add_charged_impurities_run 0 strength range model g)
    as (pot & Hrun & _ & Hv); try (done || (fold N; lia)).
  eexists _, _. split; [exact Hrun|].
  intros n1 Hn1. cbn [potential set_potential]. by rewrite (Hv n1 Hn1).
Qed.

(** X14. With more impurities than atoms, [add_charged_impurities] ends
    with the read of [permuted_numbers[number_of_atoms]], one cell after
    the last. *)
Theorem add_charged_impurities_too_many
    (k : Z) (strength range : real) (model : Model) (g : generator) :
  let N := number_of_atoms model in
  0 <= N < k -> length (box_length model) = 3%nat ->
  add_charged_impurities k strength range model g
  = Fault (OutOfBounds N (Z.to_nat N)).
Proof.
  intros N Hk Hbl. unfold add_charged_impurities.
  rewrite half_loop, bind_Ok by done. fold N.
  by rewrite create_random_numbers_out_of_bounds
    by (done || apply length_new_array).
Qed.

End Impurities.

Lemma add_anderson_disorder_draws_witness :
  let draws := real_draws 4 (r_neg (r_mul 1%Q r_half)) (r_mul 1%Q r_half)
                 (7 : generator) in
  add_anderson_disorder 1%Q square_model (7 : generator)
  = Ok (set_potential square_model draws.1, draws.2).
Proof.
  exact (proj1 (add_anderson_disorder_draws (H0 := lcg_machine)
                  1%Q square_model 7) ltac:(simpl; lia)).
Defined.

Lemma add_charged_impurities_overwrites_witness :
  exists model1 model2 g',
    add_charged_impurities 1 1%Q 1%Q square_model_positions (7 : generator)
    = Ok (model1, g')
    /\ add_charged_impurities 1 1%Q 1%Q
         (set_potential square_model_positions [5; 6; 7; 8]%Q) (7 : generator)
       = Ok (model2, g')
    /\ forall n1, 0 <= n1 < 4 ->
         get (potential model2) n1 = get (potential model1) n1.
Proof.
  destruct (add_charged_impurities_overwrites (H1 := lcg_laws)
              1 1%Q 1%Q square_model_positions [5; 6; 7; 8]%Q 7)
    as (model1 & model2 & Hrun1 & Hrun2 & Hsame);
    [simpl; lia | reflexivity | reflexivity | simpl; lia | simpl; lia
     | simpl; lia | simpl; lia | simpl; lia |].
  exists model1, model2. eexists. split; [exact Hrun1|].
  split; [exact Hrun2|]. intros n1 Hn1. exact (proj2 (Hsame n1 Hn1)).
Defined.

Lemma add_charged_impurities_none_witness :
  exists model' g',
    add_charged_impurities 0 1%Q 1%Q square_model_positions (7 : generator)
    = Ok (model', g')
    /\ forall n1, 0 <= n1 < 4 -> get (potential model') n1 = Ok r_zero.
Proof.
  apply (add_charged_impurities_none (H1 := lcg_laws)
           1%Q 1%Q square_model_positions 7);
    [simpl; lia | reflexivity | reflexivity | simpl; lia | simpl; lia
     | simpl; lia | simpl; lia].
Defined.

Lemma add_charged_impurities_too_many_witness :
  add_charged_impurities 5 1%Q 1%Q square_model_positions (7 : generator)
  = Fault (OutOfBounds 4 4).
Proof.
  apply (add_charged_impurities_too_many (H1 := lcg_laws)
           5 1%Q 1%Q square_model_positions 7); [simpl; lia | reflexivity].
Defined.


(** ** The index of an atom *)

Lemma wrap_once (n N : Z) :
  0 < N -> - N <= n < 2 * N ->
  n mod N = if decide (n < 0) then n + N
            else if decide (n >= N) then n - N else n.
Proof.
  intros HN Hn. symmetry. repeat case_decide.
  - apply Z.mod_unique with (-1); lia.
  - apply Z.mod_unique with 1; lia.
  - apply Z.mod_unique with 0; lia.
Qed.

(** Coordinates at most one period outside the lattice are wrapped. *)
Lemma find_index_once (nx ny nz Nx Ny Nz m No : Z) :
  0 < Nx -> 0 < Ny -> 0 < Nz ->
  - Nx <= nx < 2 * Nx -> - Ny <= ny < 2 * Ny -> - Nz <= nz < 2 * Nz ->
  find_index nx ny nz Nx Ny Nz m No
  = ((nx mod Nx * Ny + ny mod Ny) * Nz + nz mod Nz) * No + m.
Proof.
  intros HNx HNy HNz Hx Hy Hz.
  rewrite (wrap_once nx Nx), (wrap_once ny Ny), (wrap_once nz Nz) by done.
  unfold find_index. repeat case_decide; (lia || done).
Qed.

Lemma mixed_radix_bound (nx ny nz m Nx Ny Nz No : Z) :
  0 <= nx < Nx -> 0 <= ny < Ny -> 0 <= nz < Nz -> 0 <= m < No ->
  0 <= ((nx * Ny + ny) * Nz + nz) * No + m < No * Nx * Ny * Nz.
Proof.
  intros Hx Hy Hz Hm.
  assert (0 <= nx * Ny + ny < Nx * Ny) by nia.
  assert (0 <= (nx * Ny + ny) * Nz + nz < Nx * Ny * Nz) by nia.
  nia.
Qed.

(** X15. [find_index] wraps every cell coordinate once: for coordinates
    that are at most one lattice period outside the lattice it returns the
    index of the orbital in the cell taken modulo the lattice, an index of
    [[0, N_orbital * Nx * Ny * Nz)]. *)
Theorem find_index_wraps_once (nx ny nz Nx Ny Nz m No : Z) :
  0 < Nx -> 0 < Ny -> 0 < Nz -> 0 <= m < No ->
  - Nx <= nx < 2 * Nx -> - Ny <= ny < 2 * Ny -> - Nz <= nz < 2 * Nz ->
  find_index nx ny nz Nx Ny Nz m No
  = ((nx mod Nx * Ny + ny mod Ny) * Nz + nz mod Nz) * No + m
  /\ 0 <= find_index nx ny nz Nx Ny Nz m No < No * Nx * Ny * Nz.
Proof.
  intros HNx HNy HNz Hm Hx Hy Hz.
  rewrite find_index_once by done. split; [done|].
  apply mixed_radix_bound; (done || by apply Z.mod_pos_bound).
Qed.

Lemma find_index_wraps_once_witness :
  find_index (-1) 2 0 2 2 1 0 1 = ((1 * 2 + 0) * 1 + 0) * 1 + 0
  /\ 0 <= find_index (-1) 2 0 2 2 1 0 1 < 1 * 2 * 2 * 1.
Proof.
  apply (find_index_wraps_once (-1) 2 0 2 2 1 0 1); lia.
Defined.

(** X16. [find_index] does not wrap a coordinate twice.  Two periods or
    more outside the lattice along x, the index it returns is not the index
    of an atom; two periods outside along y it is the index of the atom one
    cell further along x. *)
Theorem find_index_long_hops (nx ny nz Nx Ny Nz m No : Z) :
  0 <= nx < Nx -> 0 <= ny < Ny -> 0 <= nz < Nz -> 0 <= m < No ->
  (forall far, 2 * Nx <= far ->
     No * Nx * Ny * Nz <= find_index far ny nz Nx Ny Nz m No)
  /\ (forall far, far < - Nx -> find_index far ny nz Nx Ny Nz m No < 0)
  /\ (nx + 1 < Nx ->
      find_index nx (ny + 2 * Ny) nz Nx Ny Nz m No
      = find_index (nx + 1) ny nz Nx Ny Nz m No).
Proof.
  intros Hx Hy Hz Hm. unfold find_index. split; [|split].
  - intros far Hfar. repeat case_decide; try lia.
    assert (Nx * Ny <= (far - Nx) * Ny + ny) by nia.
    assert (Nx * Ny * Nz <= ((far - Nx) * Ny + ny) * Nz + nz) by nia.
    nia.
  - intros far Hfar. repeat case_decide; try lia.
    assert ((far + Nx) * Ny + ny <= -1) by nia.
    assert (((far + Nx) * Ny + ny) * Nz + nz <= -1) by nia.
    nia.
  - intros Hnext. repeat case_decide; lia.
Qed.

Lemma find_index_long_hops_witness :
  1 * 2 * 2 * 1 <= find_index 4 1 0 2 2 1 0 1
  /\ find_index 0 (1 + 2 * 2) 0 2 2 1 0 1 = find_index (0 + 1) 1 0 2 2 1 0 1.
Proof.
  destruct (find_index_long_hops 0 1 0 2 2 1 0 1) as (Hfar & _ & Hnext);
    [lia..|].
  split; [apply Hfar; lia | apply Hnext; lia].
Defined.


(** ** The checks of lattice.in *)

Lemma fatal_if_true {A} (b : bool) (k : result A) :
  b = true -> (fatal_if b ;; k) = Fault ConfigError.
Proof. by intros ->. Qed.

Lemma set_Ok_inv {A} (a a' : list A) (i : Z) (v : A) :
  set a i v = Ok a' ->
  0 <= i < Z.of_nat (length a) /\ a' = <[Z.to_nat i := v]> a.
Proof. unfold set. case_decide; [|discriminate]. by intros [= <-]. Qed.

Section Rejection.
Context `{Machine}.

(** A check of the form [if (n <= 0) exit(1)]. *)
Local Ltac check_positive n :=
  destruct (decide (0 < n));
  [ rewrite (fatal_if_false (bool_decide (n <= 0)))
      by (apply bool_decide_eq_false; lia)
  | by rewrite (fatal_if_true (bool_decide (n <= 0)))
      by (apply bool_decide_eq_true; lia) ].

(** A check of the form [if (p == 1) ... else if (p == 0) ... else exit(1)]. *)
Local Ltac check_boundary p :=
  destruct (decide (p = 1 \/ p = 0));
  [ rewrite (fatal_if_false (negb (bool_decide (p = 1) || bool_decide (p = 0))))
      by (apply negb_false_iff; rewrite orb_true_iff, !bool_decide_eq_true;
          done)
  | by rewrite (fatal_if_true
                  (negb (bool_decide (p = 1) || bool_decide (p = 0))))
      by (apply negb_true_iff, orb_false_iff;
          rewrite !bool_decide_eq_false; tauto) ].

Local Ltac check_constant a :=
  destruct (r_leb a (r_of_int 0)) eqn:?;
  [ reflexivity | rewrite (fatal_if_false false) by done ].

Lemma build_lattice_model_rejects (p : Parameters) (input : LatticeFile) :
  ~ header_ok input -> build_lattice_model p input = Fault ConfigError.
Proof.
  intros Hno. unfold build_lattice_model.
  rewrite (triple_eta (file_N_cell input)), (triple_eta (file_pbc input)),
    (triple_eta (file_lattice_constant input)).
  cbv beta iota.
  change (axis (file_N_cell input)) with (N_cell_at input).
  change (axis (file_pbc input)) with (pbc_at input).
  change (axis (file_lattice_constant input)) with (lattice_constant_at input).
  check_positive (N_cell_at input 0).
  check_positive (N_cell_at input 1).
  check_positive (N_cell_at input 2).
  check_boundary (pbc_at input 0).
  check_boundary (pbc_at input 1).
  check_boundary (pbc_at input 2).
  set (td := file_transport_direction input) in *.
  destruct (decide (0 <= td <= 2)) as [Htd|Htd];
    [ rewrite (fatal_if_false (negb _))
        by (apply negb_false_iff; rewrite !orb_true_iff, !bool_decide_eq_true;
            lia)
    | by rewrite (fatal_if_true (negb _))
        by (apply negb_true_iff; rewrite !orb_false_iff,
              !bool_decide_eq_false; lia) ].
  unfold pbc_at at 1 2 3. rewrite (get_axis (file_pbc input)), bind_Ok by lia.
  fold (pbc_at input td).
  destruct (decide (pbc_at input td = 1)) as [Hpt|Hpt];
    [ rewrite (fatal_if_false (negb _))
        by (by apply negb_false_iff, bool_decide_eq_true)
    | by rewrite (fatal_if_true (negb _))
        by (by apply negb_true_iff, bool_decide_eq_false) ].
  check_constant (lattice_constant_at input 0).
  check_constant (lattice_constant_at input 1).
  check_constant (lattice_constant_at input 2).
  rewrite box_length_loop, bind_Ok.
  destruct (get3 (r_mul (lattice_constant_at input 0)
                    (r_of_int (N_cell_at input 0)))
                 (r_mul (lattice_constant_at input 1)
                    (r_of_int (N_cell_at input 1)))
                 (r_mul (lattice_constant_at input 2)
                    (r_of_int (N_cell_at input 2)))) as (-> & -> & ->).
  rewrite !bind_Ok.
  check_positive (file_N_orbital input).
  destruct (decide (0 < file_max_neighbor input));
    [ exfalso; apply Hno; unfold header_ok; fold td; done
    | by rewrite (fatal_if_true (bool_decide (file_max_neighbor input <= 0)))
        by (apply bool_decide_eq_true; lia) ].
Qed.

(** X17. A lattice.in that fails one of the thirteen checks of the header
    (a number of cells, of orbitals or of hoppings that is not positive, a
    boundary flag other than 0 and 1, a transport direction other than 0, 1
    and 2 or along an open axis, a lattice constant that is not positive)
    ends the run with [exit(1)], before any array is allocated and whatever
    the disorder asked for. *)
Theorem lattice_header_rejected
    (p : Parameters) (input : LatticeFile) (g : generator) :
  ~ header_ok input ->
  build_lattice_model p input = Fault ConfigError
  /\ initialize_lattice_model p input g = Fault ConfigError.
Proof.
  intros Hno. split; [by apply build_lattice_model_rejects|].
  unfold initialize_lattice_model.
  by rewrite build_lattice_model_rejects.
Qed.

End Rejection.

(** [max_neighbor = 0] in the 2 x 2 x 1 lattice. *)
Lemma lattice_header_rejected_witness :
  initialize_lattice_model no_disorder (square_2x2 0) (7 : generator)
  = Fault ConfigError.
Proof.
  apply (lattice_header_rejected (H0 := lcg_machine)
           no_disorder (square_2x2 0) 7).
  apply (bool_decide_unpack _). vm_compute. reflexivity.
Defined.


(** ** The positions of the atoms *)

Section Positions.
Context `{Real}.
Variable input : LatticeFile.
Hypothesis Hacc : accepted input.

Let No := file_N_orbital input.
Let mn := file_max_neighbor input.
Let td := file_transport_direction input.
Let N := lattice_atoms input.
Let pbcL := [pbc_at input 0; pbc_at input 1; pbc_at input 2].
Let NcL := [N_cell_at input 0; N_cell_at input 1; N_cell_at input 2].
Let lcL := [lattice_constant_at input 0; lattice_constant_at input 1;
            lattice_constant_at input 2].
Let x_cell := (fun c : real * real * real => c.1.1) <$> file_cell input.
Let y_cell := (fun c : real * real * real => c.1.2) <$> file_cell input.
Let z_cell := (fun c : real * real * real => c.2) <$> file_cell input.
Let nh := (fun es : list Hopping => Z.of_nat (length es))
            <$> file_hoppings input.

Variable hd : list (list Z).
Hypothesis Hhd :
  hopping_rows (file_hoppings input) mn (Z.to_nat (No * mn))
    (fun _ _ => True) hd.

Lemma cell_offsets_lookup (m : Z) :
  0 <= m < No ->
  get x_cell m = Ok (cell_offset input 0 m)
  /\ get y_cell m = Ok (cell_offset input 1 m)
  /\ get z_cell m = Ok (cell_offset input 2 m).
Proof.
  intros Hm.
  destruct (accepted_sizes input Hacc) as (_ & _ & _ & _ & _ & _ & Hc & _).
  destruct (lookup_lt_is_Some_2 (file_cell input) (Z.to_nat m))
    as [[[cx cy] cz] Hcm]; [fold No; lia|].
  unfold x_cell, y_cell, z_cell, cell_offset. rewrite Hcm.
  repeat split; (apply get_Ok; [lia|]); by rewrite list_lookup_fmap, Hcm.
Qed.

(** Lines 511-516: what one orbital of one cell adds to the positions. *)
Lemma expand_orbital_positions (hci : bool) (nx ny nz m : Z)
    (nn : list Z) (a : pair_arrays) (x y z : list real) (st' : cell_state) :
  in_lattice input nx ny nz m ->
  expand_orbital hci pbcL NcL lcL x_cell y_cell z_cell td No mn nh hd
    nx ny nz m (nn, a, (x, y, z)) = Ok st' ->
  let n1 := Z.to_nat (atom_index input nx ny nz m) in
  st'.2 = if hci
          then (<[n1 := atom_position input 0 nx m]> x,
                <[n1 := atom_position input 1 ny m]> y,
                <[n1 := atom_position input 2 nz m]> z)
          else (x, y, z).
Proof.
  intros Hin Hrun n1.
  destruct (accepted_sizes input Hacc)
    as (H0 & H1 & H2 & HNo & Hmn & Htd & Hcells & Hhops).
  unfold expand_orbital in Hrun.
  unfold NcL in Hrun at 1 2 3. unfold N_cell_at in Hrun at 1 2 3 4 5 6 7 8 9.
  rewrite !(get_axis (file_N_cell input)), !bind_Ok in Hrun by lia.
  fold (N_cell_at input 0) (N_cell_at input 1) (N_cell_at input 2) in Hrun.
  fold NcL in Hrun.
  pose proof (find_index_in_lattice input _ _ _ _ Hin) as Hfi.
  fold No in Hfi. rewrite Hfi in Hrun. clear Hfi.
  apply bind_Ok_inv in Hrun as ([[x' y'] z'] & Hpos & Hrun).
  apply bind_Ok_inv in Hrun as ([count a'] & _ & Hrun).
  apply bind_Ok_inv in Hrun as (nn' & _ & Hrun).
  injection Hrun as <-. cbn [snd].
  destruct hci; [|by injection Hpos as <- <- <-].
  destruct Hin as (_ & _ & _ & Hm).
  destruct (cell_offsets_lookup m Hm) as (Hxm & Hym & Hzm).
  rewrite Hxm, Hym, Hzm in Hpos. unfold lcL, lattice_constant_at in Hpos.
  rewrite !(get_axis (file_lattice_constant input)) in Hpos by lia.
  rewrite !bind_Ok in Hpos.
  apply bind_Ok_inv in Hpos as (x1 & Hx & Hpos). rewrite !bind_Ok in Hpos.
  apply bind_Ok_inv in Hpos as (y1 & Hy & Hpos). rewrite !bind_Ok in Hpos.
  apply bind_Ok_inv in Hpos as (z1 & Hz & Hpos).
  apply set_Ok_inv in Hx as [_ ->]. apply set_Ok_inv in Hy as [_ ->].
  apply set_Ok_inv in Hz as [_ ->].
  by injection Hpos as <- <- <-.
Qed.

(** The four nested loops of lines 496-552, with an invariant of the atoms
    done. *)
Lemma expand_cells_inv (I : Z -> cell_state -> Prop) (hci : bool)
    (st : cell_state) :
  (forall nx ny nz m s, in_lattice input nx ny nz m ->
     I (atom_index input nx ny nz m) s ->
     exists s',
       expand_orbital hci pbcL NcL lcL x_cell y_cell z_cell td No mn nh hd
         nx ny nz m s = Ok s'
       /\ I (atom_index input nx ny nz m + 1) s') ->
  I 0 st ->
  exists st',
    expand_cells hci pbcL NcL lcL x_cell y_cell z_cell td No mn nh hd st
    = Ok st'
    /\ I N st'.
Proof.
  intros Hstep Hst.
  destruct (accepted_sizes input Hacc)
    as (H0 & H1 & H2 & HNo & Hmn & Htd & Hcells & Hhops).
  fold No in HNo.
  set (c0 := N_cell_at input 0) in *. set (c1 := N_cell_at input 1) in *.
  set (c2 := N_cell_at input 2) in *.
  assert (get NcL 0 = Ok c0 /\ get NcL 1 = Ok c1 /\ get NcL 2 = Ok c2)
    as (Hg0 & Hg1 & Hg2) by done.
  unfold expand_cells. rewrite Hg0, bind_Ok.
  loop_invariant
    (fun t (s : cell_state) => I (Z.of_nat t * c1 * c2 * No) s) Hloop.
  destruct Hloop as (st' & Hrun & Hst').
  3: { exists st'. split; [exact Hrun|].
       replace N with (Z.of_nat (Z.to_nat c0) * c1 * c2 * No); [done|].
       unfold N, lattice_atoms. fold c0 c1 c2 No. lia. }
  { by replace (Z.of_nat 0 * c1 * c2 * No) with 0 by lia. }
  intros tx sx Htx Hsx. rewrite Hg1, bind_Ok.
  loop_invariant
    (fun t (s : cell_state) =>
       I ((Z.of_nat tx * c1 + Z.of_nat t) * c2 * No) s) Hloop.
  destruct Hloop as (st' & Hrun & Hst').
  3: { exists st'. split; [exact Hrun|].
       replace (Z.of_nat (S tx) * c1 * c2 * No)
         with ((Z.of_nat tx * c1 + Z.of_nat (Z.to_nat c1)) * c2 * No) by lia.
       done. }
  { by replace ((Z.of_nat tx * c1 + Z.of_nat 0) * c2 * No)
      with (Z.of_nat tx * c1 * c2 * No) by lia. }
  intros ty sy Hty Hsy. rewrite Hg2, bind_Ok.
  loop_invariant
    (fun t (s : cell_state) =>
       I (((Z.of_nat tx * c1 + Z.of_nat ty) * c2 + Z.of_nat t) * No) s) Hloop.
  destruct Hloop as (st' & Hrun & Hst').
  3: { exists st'. split; [exact Hrun|].
       replace ((Z.of_nat tx * c1 + Z.of_nat (S ty)) * c2 * No)
         with (((Z.of_nat tx * c1 + Z.of_nat ty) * c2
                + Z.of_nat (Z.to_nat c2)) * No) by lia.
       done. }
  { by replace (((Z.of_nat tx * c1 + Z.of_nat ty) * c2 + Z.of_nat 0) * No)
      with ((Z.of_nat tx * c1 + Z.of_nat ty) * c2 * No) by lia. }
  intros tz sz Htz Hsz.
  loop_invariant
    (fun t (s : cell_state) =>
       I (atom_index input (Z.of_nat tx) (Z.of_nat ty) (Z.of_nat tz)
            (Z.of_nat t)) s) Hloop.
  destruct Hloop as (st' & Hrun & Hst').
  3: { exists st'. split; [exact Hrun|].
       replace (((Z.of_nat tx * c1 + Z.of_nat ty) * c2 + Z.of_nat (S tz)) * No)
         with (atom_index input (Z.of_nat tx) (Z.of_nat ty) (Z.of_nat tz)
                 (Z.of_nat (Z.to_nat No)));
         [done|].
       unfold atom_index. fold c1 c2 No. lia. }
  { replace (atom_index input (Z.of_nat tx) (Z.of_nat ty) (Z.of_nat tz)
               (Z.of_nat 0))
      with (((Z.of_nat tx * c1 + Z.of_nat ty) * c2 + Z.of_nat tz) * No);
      [done|].
    unfold atom_index. fold c1 c2 No. lia. }
  intros tm sm Htm Hsm.
  destruct (Hstep (Z.of_nat tx) (Z.of_nat ty) (Z.of_nat tz) (Z.of_nat tm) sm)
    as (st' & Hrun & Hst'); [|done|].
  { unfold in_lattice. fold c0 c1 c2 No. lia. }
  exists st'. split; [exact Hrun|].
  replace (atom_index input (Z.of_nat tx) (Z.of_nat ty) (Z.of_nat tz)
             (Z.of_nat (S tm)))
    with (atom_index input (Z.of_nat tx) (Z.of_nat ty) (Z.of_nat tz)
            (Z.of_nat tm) + 1); [done|].
  unfold atom_index. lia.
Qed.

(** Lines 496-552: the hops and the positions of all atoms. *)
Lemma expand_cells_positions (hci : bool) (st : cell_state) :
  expanded_below input hci 0 st ->
  (hci = false -> st.2 = ([], [], [])) ->
  exists st',
    expand_cells hci pbcL NcL lcL x_cell y_cell z_cell td No mn nh hd st
    = Ok st'
    /\ expanded_below input hci N st'
    /\ (hci = true -> positions_below input N st')
    /\ (hci = false -> st'.2 = ([], [], [])).
Proof.
  intros Hst Hempty.
  apply (expand_cells_inv
    (fun cur s => expanded_below input hci cur s
                  /\ (hci = true -> positions_below input cur s)
                  /\ (hci = false -> s.2 = ([], [], [])))).
  2: { split; [done|]. split; [|done].
       intros _. destruct st as [[nn a] [[x y] z]].
       intros nx ny nz m Hin Hlt.
       pose proof (atom_index_bound input _ _ _ _ Hin). lia. }
  intros nx ny nz m s Hin (Hexp & Hpos & Hnone).
  destruct (expand_orbital_step input Hacc hd Hhd hci nx ny nz m s Hin Hexp)
    as (s' & Hrun & Hexp').
  exists s'. split; [exact Hrun|]. split; [done|].
  destruct s as [[nn a] [[x y] z]].
  pose proof (expand_orbital_positions hci nx ny nz m nn a x y z s' Hin Hrun)
    as Hs'.
  cbn zeta in Hs'. destruct s' as [[nn' a'] [[x' y'] z']]. cbn [snd] in *.
  split.
  - intros ->. injection Hs' as -> -> ->.
    destruct Hexp as (_ & _ & Hlens & _).
    destruct (Hlens eq_refl) as (Hlx & Hly & Hlz).
    pose proof (atom_index_bound input _ _ _ _ Hin) as Hn1.
    specialize (Hpos eq_refl). cbn beta iota in Hpos.
    intros nx0 ny0 nz0 m0 Hin0 Hlt.
    destruct (decide (atom_index input nx0 ny0 nz0 m0
                      = atom_index input nx ny nz m)) as [Heq|Hne].
    + rewrite Heq.
      apply (atom_index_inj input) in Heq as (-> & -> & -> & ->);
        [|done..].
      rewrite !list_lookup_insert_eq by lia. done.
    + pose proof (atom_index_bound input _ _ _ _ Hin0) as Hb.
      rewrite !list_lookup_insert_ne by lia.
      apply Hpos; [done | lia].
  - intros ->. rewrite Hs'. by apply Hnone.
Qed.

End Positions.

(** ** The pristine model in full *)

Section BuildFull.
Context `{Machine}.

(** What lines 271-552 build from an accepted lattice.in, member by
    member. *)
Lemma build_lattice_model_full (p : Parameters) (input : LatticeFile) :
  accepted input ->
  let N := lattice_atoms input in
  exists model,
    build_lattice_model p input = Ok model
    /\ number_of_atoms model = N
    /\ max_neighbor model = file_max_neighbor input
    /\ number_of_pairs model = N * file_max_neighbor input
    /\ length (neighbor_number model) = Z.to_nat N
    /\ arrays_length
         (neighbor_list model, hopping_real model, hopping_imag model,
          xx model)
         (Z.to_nat (N * file_max_neighbor input))
    /\ (forall nx ny nz m, in_lattice input nx ny nz m ->
          expanded_atom input model nx ny nz m)
    /\ potential model = replicate (Z.to_nat N) r_zero
    /\ pbc model = [pbc_at input 0; pbc_at input 1; pbc_at input 2]
    /\ box_length model
       = [r_mul (lattice_constant_at input 0) (r_of_int (N_cell_at input 0));
          r_mul (lattice_constant_at input 1) (r_of_int (N_cell_at input 1));
          r_mul (lattice_constant_at input 2) (r_of_int (N_cell_at input 2))]
    /\ volume model
       = r_mul (r_mul (r_mul (lattice_constant_at input 0)
                         (r_of_int (N_cell_at input 0)))
                      (r_mul (lattice_constant_at input 1)
                         (r_of_int (N_cell_at input 1))))
               (r_mul (lattice_constant_at input 2)
                  (r_of_int (N_cell_at input 2)))
    /\ (has_charged_impurities p = true ->
        length (x model) = Z.to_nat N /\ length (y model) = Z.to_nat N
        /\ length (z model) = Z.to_nat N
        /\ positions_below input N
             (neighbor_number model,
              (neighbor_list model, hopping_real model, hopping_imag model,
               xx model),
              (x model, y model, z model)))
    /\ (has_charged_impurities p = false ->
        x model = [] /\ y model = [] /\ z model = []).
Proof.
  intros Hacc N.
  pose proof (accepted_sizes input Hacc)
    as (Hc0 & Hc1 & Hc2 & HNo & Hmn & Htd & Hcells & Hhops).
  pose proof Hacc as (_ & _ & _ & Hp0 & Hp1 & Hp2 & _ & Hpt & Ha0 & Ha1 & Ha2
                      & _ & _ & _ & _ & Hall).
  destruct (read_hoppings_spec (file_N_orbital input) (file_max_neighbor input)
              (file_hoppings input) HNo Hmn Hhops) as (hd & Hread & Hhd).
  { eapply Forall_impl; [exact Hall|]. by intros es [? _]. }
  pose proof (cell_loop (file_N_orbital input) (file_cell input) Hcells)
    as Hcell.
  set (mn := file_max_neighbor input) in *.
  assert (exists x0 y0 z0,
    (if has_charged_impurities p
     then (new_array r_zero N, new_array r_zero N, new_array r_zero N)
     else ([], [], [])) = (x0, y0, z0)
    /\ (has_charged_impurities p = true ->
        length x0 = Z.to_nat N /\ length y0 = Z.to_nat N
        /\ length z0 = Z.to_nat N)
    /\ (has_charged_impurities p = false -> (x0, y0, z0) = ([], [], [])))
    as (x0 & y0 & z0 & Hpos & Hposlen & Hposnone).
  { destruct (has_charged_impurities p).
    - do 3 eexists. split; [done|]. split; [|done].
      intros _. by rewrite !length_new_array.
    - by exists [], [], []. }
  destruct (expand_cells_positions input Hacc hd Hhd (has_charged_impurities p)
    (new_array uninit_int N,
     (new_array uninit_int (N * mn), new_array uninit_real (N * mn),
      new_array uninit_real (N * mn), new_array uninit_real (N * mn)),
     (x0, y0, z0)))
    as ([[nn [[[nl hr] hi] xs]] [[px py] pz]] & Hexpand & Hdone & Hxyz
        & Hnone).
  { split; [apply length_new_array|].
    split; [unfold arrays_length; by rewrite !length_new_array|].
    split; [done|].
    intros nx ny nz m Hin Hlt.
    pose proof (atom_index_bound input _ _ _ _ Hin). lia. }
  { done. }
  destruct Hdone as (Hnn & Harr & Hlens & Hrows).
  unfold build_lattice_model.
  rewrite (triple_eta (file_N_cell input)), (triple_eta (file_pbc input)),
    (triple_eta (file_lattice_constant input)).
  cbv beta iota.
  change (axis (file_N_cell input)) with (N_cell_at input).
  change (axis (file_pbc input)) with (pbc_at input).
  change (axis (file_lattice_constant input)) with (lattice_constant_at input).
  rewrite !fatal_if_false by (apply bool_decide_eq_false; lia).
  rewrite !(fatal_if_false (negb _))
    by (apply negb_false_iff; rewrite !orb_true_iff, !bool_decide_eq_true;
        lia).
  unfold pbc_at at 1 2 3. rewrite (get_axis (file_pbc input)), bind_Ok by lia.
  fold (pbc_at input (file_transport_direction input)). rewrite Hpt.
  rewrite (fatal_if_false (negb (bool_decide (1 = 1)))) by done.
  rewrite Ha0, Ha1, Ha2. rewrite !(fatal_if_false false) by done.
  rewrite box_length_loop, bind_Ok.
  destruct (get3 (r_mul (lattice_constant_at input 0)
                    (r_of_int (N_cell_at input 0)))
                 (r_mul (lattice_constant_at input 1)
                    (r_of_int (N_cell_at input 1)))
                 (r_mul (lattice_constant_at input 2)
                    (r_of_int (N_cell_at input 2)))) as (-> & -> & ->).
  rewrite !bind_Ok.
  rewrite !fatal_if_false by (apply bool_decide_eq_false; lia).
  change (file_N_orbital input * N_cell_at input 0 * N_cell_at input 1
          * N_cell_at input 2) with N.
  rewrite fill_loop, bind_Ok by apply length_new_array.
  rewrite Hcell, bind_Ok. cbv beta iota.
  fold mn. rewrite Hread, bind_Ok. cbv beta iota.
  rewrite Hpos.
  eexists. split.
  { eapply bind_run; [exact Hexpand|]. cbv beta iota. reflexivity. }
  cbn [number_of_atoms max_neighbor number_of_pairs neighbor_number
    neighbor_list hopping_real hopping_imag xx potential pbc box_length
    volume x y z].
  split; [done|]. split; [done|]. split; [done|]. split; [done|].
  split; [done|].
  split.
  { intros nx ny nz m Hin. apply row_expanded_atom; [done|].
    apply Hrows; [done|]. apply (atom_index_bound input _ _ _ _ Hin). }
  split; [done|]. split; [done|]. split; [done|]. split; [done|].
  split.
  - intros Hci. destruct (Hlens Hci) as (Hlx & Hly & Hlz).
    split; [done|]. split; [done|]. split; [done|]. by apply Hxyz.
  - intros Hci. specialize (Hnone Hci). cbn [snd] in Hnone.
    by injection Hnone as -> -> ->.
Qed.

End BuildFull.


(** ** The rows of the pristine table *)

Section Rows.
Context `{Real}.
Variable input : LatticeFile.

Lemma axis_skipped_false (d n2 : Z) :
  axis_skipped input d n2 = false
  <-> (pbc_at input d = 0 -> 0 <= n2 < N_cell_at input d).
Proof.
  unfold axis_skipped.
  rewrite andb_false_iff, orb_false_iff, !bool_decide_eq_false. split.
  - intros [Hp | [Hlo Hhi]] Hpbc; [done | lia].
  - intros Hin. destruct (decide (pbc_at input d = 0)) as [Hp|Hp].
    + right. specialize (Hin Hp). lia.
    + by left.
Qed.

(** Lines 527-530: a hop is skipped when it leaves the lattice along an
    open axis, and only then. *)
Lemma hop_skipped_false (nx ny nz : Z) (e : Hopping) :
  hop_skipped input nx ny nz e = false <-> stays_inside input nx ny nz e.
Proof.
  unfold hop_skipped, stays_inside.
  rewrite !orb_false_iff, !axis_skipped_false. tauto.
Qed.

Lemma emitted_kept (nx ny nz m : Z) :
  emitted input nx ny nz m
  = filter (stays_inside input nx ny nz) (template input m).
Proof.
  unfold emitted. apply list_filter_iff. intros e. apply hop_skipped_false.
Qed.

Lemma emitted_periodic (nx ny nz m : Z) :
  fully_periodic input -> emitted input nx ny nz m = template input m.
Proof.
  intros (Hp0 & Hp1 & Hp2). rewrite emitted_kept. apply filter_all.
  apply Forall_forall. intros e _. unfold stays_inside.
  rewrite Hp0, Hp1, Hp2. done.
Qed.

Hypothesis Hacc : accepted input.

Lemma template_hops (m : Z) (e : Hopping) :
  e ∈ template input m ->
  0 <= hop_m_neighbor e < file_N_orbital input
  /\ (within_one_period input -> short_hop input e).
Proof.
  unfold template. intros He.
  destruct (file_hoppings input !! Z.to_nat m) as [es|] eqn:Hes;
    [|by apply elem_of_nil in He].
  simpl in He.
  destruct (template_short input Hacc m es Hes) as [_ Horb].
  split; [by apply (proj1 (Forall_forall _ _) Horb)|].
  intros Hshort. pose proof (Forall_lookup_1 _ _ _ _ Hshort Hes) as Hes'.
  by apply (proj1 (Forall_forall _ _) Hes').
Qed.

(** The cell a hop reaches, one coordinate at a time. *)
Lemma reached_once (d n : Z) (e : Hopping) :
  0 <= d <= 2 -> 0 <= n < N_cell_at input d ->
  (pbc_at input d = 1 ->
   - N_cell_at input d <= hop_offset d e <= N_cell_at input d) ->
  (pbc_at input d = 0 -> 0 <= hop_offset d e + n < N_cell_at input d) ->
  - N_cell_at input d <= hop_offset d e + n < 2 * N_cell_at input d.
Proof.
  intros Hd Hn Hper Hopen.
  assert (pbc_at input d = 1 \/ pbc_at input d = 0) as [Hp|Hp].
  { unfold accepted in Hacc.
    assert (d = 0 \/ d = 1 \/ d = 2) as [->|[->| ->]] by lia; tauto. }
  - specialize (Hper Hp). lia.
  - specialize (Hopen Hp). lia.
Qed.

(** A hop that is not longer than the lattice leads to the periodic image
    of the atom it aims at. *)
Lemma emitted_target_image (nx ny nz m : Z) (e : Hopping) :
  in_lattice input nx ny nz m -> short_hop input e ->
  stays_inside input nx ny nz e ->
  emitted_target input nx ny nz e = image_target input nx ny nz e.
Proof.
  intros (Hx & Hy & Hz & Hm) (Hs0 & Hs1 & Hs2) (Hi0 & Hi1 & Hi2).
  destruct (accepted_sizes input Hacc) as (H0 & H1 & H2 & _).
  unfold emitted_target, image_target, atom_index.
  apply find_index_once; try done.
  - by apply (reached_once 0 nx e).
  - by apply (reached_once 1 ny e).
  - by apply (reached_once 2 nz e).
Qed.

Lemma image_target_bound (nx ny nz : Z) (e : Hopping) :
  0 <= hop_m_neighbor e < file_N_orbital input ->
  0 <= image_target input nx ny nz e < lattice_atoms input.
Proof.
  intros Hm. destruct (accepted_sizes input Hacc) as (H0 & H1 & H2 & _).
  apply (atom_index_bound input).
  repeat split; (lia || by apply Z.mod_pos_bound).
Qed.

End Rows.

Section Pristine.
Context `{Machine}.

(** The pristine table is well formed when no hop along a periodic axis is
    longer than the lattice. *)
Lemma build_lattice_model_well_formed (p : Parameters) (input : LatticeFile) :
  accepted input -> within_one_period input ->
  exists model,
    build_lattice_model p input = Ok model
    /\ number_of_atoms model = lattice_atoms input
    /\ well_formed model
    /\ forall nx ny nz m, in_lattice input nx ny nz m ->
         targets model (atom_index input nx ny nz m)
         = image_target input nx ny nz
             <$> filter (stays_inside input nx ny nz) (template input m).
Proof.
  intros Hacc Hshort.
  destruct (build_lattice_model_spec p input Hacc)
    as (model & Hbuild & HN & Hmn & Hpairs & Hnn & (Hl1 & Hl2 & Hl3 & Hl4)
        & Hatoms).
  destruct (accepted_sizes input Hacc)
    as (Hc0 & Hc1 & Hc2 & HNo & Hmn0 & _).
  assert (0 <= lattice_atoms input) as HN0 by (unfold lattice_atoms; nia).
  assert (forall nx ny nz m, in_lattice input nx ny nz m ->
    targets model (atom_index input nx ny nz m)
    = image_target input nx ny nz
        <$> filter (stays_inside input nx ny nz) (template input m))
    as Himage.
  { intros nx ny nz m Hin. destruct (Hatoms nx ny nz m Hin) as (_ & Htar & _).
    rewrite Htar, emitted_kept.
    apply Forall_fmap_ext_1, Forall_forall. intros e He.
    apply list_elem_of_filter in He as [Hin' He].
    destruct (template_hops input Hacc m e He) as [_ Hsh].
    apply (emitted_target_image input Hacc nx ny nz m);
      [done | by apply Hsh | done]. }
  exists model. split; [done|]. split; [done|]. split; [|done].
  unfold well_formed. rewrite HN, Hmn, Hpairs.
  split; [done|]. split; [lia|]. split; [done|]. split; [done|].
  split; [done|]. split; [done|]. split; [done|]. split; [done|].
  split.
  - apply Forall_lookup_2. intros i c Hc.
    pose proof (lookup_lt_Some _ _ _ Hc) as Hi. rewrite Hnn in Hi.
    destruct (atom_index_onto input Hacc (Z.of_nat i))
      as (nx & ny & nz & m & Hin & Hidx); [lia|].
    destruct (Hatoms nx ny nz m Hin) as (Hcount & _).
    rewrite Hidx in Hcount. unfold hop_count in Hcount.
    rewrite Nat2Z.id, (list_lookup_total_correct _ _ _ Hc) in Hcount.
    pose proof (emitted_short input nx ny nz m Hacc Hin). lia.
  - apply Forall_seqZ. intros n Hn.
    destruct (atom_index_onto input Hacc n)
      as (nx & ny & nz & m & Hin & Hidx); [lia|].
    rewrite <- Hidx, (Himage nx ny nz m Hin).
    apply Forall_fmap, Forall_forall. intros e He. simpl.
    apply list_elem_of_filter in He as [_ He].
    destruct (template_hops input Hacc m e He) as [Hm2 _].
    by apply image_target_bound.
Qed.

(** X18. When no hop along a periodic axis is longer than the lattice, the
    table that [initialize_lattice_model] builds from an accepted
    lattice.in satisfies the invariant of the neighbor table, and a hop
    from the cell [(nx, ny, nz)] leads to the orbital [m_neighbor] of the
    cell [(nx + dx, ny + dy, nz + dz)] taken modulo the lattice. *)
Theorem pristine_lattice_well_formed (p : Parameters) (input : LatticeFile) :
  accepted input -> within_one_period input ->
  exists model,
    build_lattice_model p input = Ok model
    /\ well_formed model
    /\ forall nx ny nz m, in_lattice input nx ny nz m ->
         targets model (atom_index input nx ny nz m)
         = image_target input nx ny nz
             <$> filter (stays_inside input nx ny nz) (template input m).
Proof.
  intros Hacc Hshort.
  destruct (build_lattice_model_well_formed p input Hacc Hshort)
    as (model & Hbuild & _ & Hwf & Himage).
  by exists model.
Qed.

(** X19. The row of an atom holds the hops of the hopping list of its
    orbital that stay inside the lattice along every open axis, in the
    order of the list: a hop is dropped exactly when it leaves the lattice
    along an open axis.  For each hop kept, the row holds the index that
    [find_index] gives for the cell reached, the displacement
    [a * d + (x_cell[m_neighbor] - x_cell[m])] with [a] and [d] the lattice
    constant and the cell offset of the hop along the transport axis, and
    the two amplitudes after their conversion to [int]. *)
Theorem pristine_lattice_rows (p : Parameters) (input : LatticeFile) :
  accepted input ->
  exists model,
    build_lattice_model p input = Ok model
    /\ forall nx ny nz m, in_lattice input nx ny nz m ->
         let n1 := atom_index input nx ny nz m in
         let kept :=
           filter (stays_inside input nx ny nz) (template input m) in
         hop_count model n1 = Z.of_nat (length kept)
         /\ targets model n1
            = (fun e =>
                 find_index (hop_nx e + nx) (hop_ny e + ny) (hop_nz e + nz)
                   (N_cell_at input 0) (N_cell_at input 1) (N_cell_at input 2)
                   (hop_m_neighbor e) (file_N_orbital input)) <$> kept
         /\ hop_values model (xx model) n1
            = (fun e =>
                 let d := file_transport_direction input in
                 r_add (r_mul (lattice_constant_at input d)
                          (r_of_int (hop_offset d e)))
                       (r_sub (cell_offset input 0 (hop_m_neighbor e))
                              (cell_offset input 0 m))) <$> kept
         /\ hop_values model (hopping_real model) n1
            = (fun e => r_of_int (r_to_int (hop_real e))) <$> kept
         /\ hop_values model (hopping_imag model) n1
            = (fun e => r_of_int (r_to_int (hop_imag e))) <$> kept.
Proof.
  intros Hacc.
  destruct (build_lattice_model_spec p input Hacc)
    as (model & Hbuild & _ & _ & _ & _ & _ & Hatoms).
  exists model. split; [done|].
  intros nx ny nz m Hin n1 kept.
  destruct (Hatoms nx ny nz m Hin) as (Hcount & Htar & Hxx & Hre & Him).
  rewrite emitted_kept in Hcount, Htar, Hxx, Hre, Him. done.
Qed.

(** X20. On a lattice that is periodic along x, y and z no hop is dropped:
    every atom has as many hops as the hopping list of its orbital has
    entries, whichever cell it is in. *)
Theorem periodic_lattice_rows (p : Parameters) (input : LatticeFile) :
  accepted input -> fully_periodic input ->
  exists model,
    build_lattice_model p input = Ok model
    /\ forall nx ny nz m, in_lattice input nx ny nz m ->
         let n1 := atom_index input nx ny nz m in
         get (neighbor_number model) n1
         = Ok (Z.of_nat (length (template input m)))
         /\ length (targets model n1) = length (template input m).
Proof.
  intros Hacc Hper.
  destruct (build_lattice_model_spec p input Hacc)
    as (model & Hbuild & _ & _ & _ & Hnn & _ & Hatoms).
  exists model. split; [done|].
  intros nx ny nz m Hin n1.
  destruct (Hatoms nx ny nz m Hin) as (Hcount & Htar & _).
  rewrite (emitted_periodic input nx ny nz m Hper) in Hcount, Htar.
  pose proof (atom_index_bound input _ _ _ _ Hin) as Hb. fold n1 in Hb.
  destruct (lookup_lt_is_Some_2 (neighbor_number model) (Z.to_nat n1))
    as [c Hc]; [lia|].
  fold n1 in Hcount, Htar. unfold hop_count in Hcount.
  rewrite (list_lookup_total_correct _ _ _ Hc) in Hcount. subst c.
  split; [apply get_Ok; [lia | done]|].
  by rewrite Htar, length_fmap.
Qed.

(** X21. The pristine model has the potential 0.0 at every atom, the box
    length [lattice_constant[d] * N_cell[d]] along every axis and their
    product as volume.  When charged impurities are asked for, the atom of
    orbital [m] in the cell [(nx, ny, nz)] is at
    [x_cell[m] + lattice_constant[0] * nx] along x, and likewise along y
    and z; otherwise [x], [y] and [z] stay empty. *)
Theorem pristine_lattice_geometry (p : Parameters) (input : LatticeFile) :
  accepted input ->
  let N := lattice_atoms input in
  exists model,
    build_lattice_model p input = Ok model
    /\ potential model = replicate (Z.to_nat N) r_zero
    /\ pbc model = [pbc_at input 0; pbc_at input 1; pbc_at input 2]
    /\ box_length model
       = [r_mul (lattice_constant_at input 0) (r_of_int (N_cell_at input 0));
          r_mul (lattice_constant_at input 1) (r_of_int (N_cell_at input 1));
          r_mul (lattice_constant_at input 2) (r_of_int (N_cell_at input 2))]
    /\ volume model
       = r_mul (r_mul (r_mul (lattice_constant_at input 0)
                         (r_of_int (N_cell_at input 0)))
                      (r_mul (lattice_constant_at input 1)
                         (r_of_int (N_cell_at input 1))))
               (r_mul (lattice_constant_at input 2)
                  (r_of_int (N_cell_at input 2)))
    /\ (has_charged_impurities p = true ->
        length (x model) = Z.to_nat N /\ length (y model) = Z.to_nat N
        /\ length (z model) = Z.to_nat N
        /\ forall nx ny nz m, in_lattice input nx ny nz m ->
             let n1 := atom_index input nx ny nz m in
             get (x model) n1
             = Ok (r_add (cell_offset input 0 m)
                     (r_mul (lattice_constant_at input 0) (r_of_int nx)))
             /\ get (y model) n1
                = Ok (r_add (cell_offset input 1 m)
                        (r_mul (lattice_constant_at input 1) (r_of_int ny)))
             /\ get (z model) n1
                = Ok (r_add (cell_offset input 2 m)
                        (r_mul (lattice_constant_at input 2) (r_of_int nz))))
    /\ (has_charged_impurities p = false ->
        x model = [] /\ y model = [] /\ z model = []).
Proof.
  intros Hacc N.
  destruct (build_lattice_model_full p input Hacc)
    as (model & Hbuild & _ & _ & _ & _ & _ & _ & Hpot & Hpbc & Hbox & Hvol
        & Hpos & Hnone).
  exists model. split; [done|]. split; [done|]. split; [done|].
  split; [done|]. split; [done|]. split; [|done].
  intros Hci. destruct (Hpos Hci) as (Hlx & Hly & Hlz & Hcells).
  split; [done|]. split; [done|]. split; [done|].
  intros nx ny nz m Hin n1.
  pose proof (atom_index_bound input _ _ _ _ Hin) as Hb. fold n1 in Hb.
  destruct (Hcells nx ny nz m Hin ltac:(fold n1 N; lia)) as (Hx & Hy & Hz).
  repeat split; (apply get_Ok; [lia | done]).
Qed.

End Pristine.

Lemma ribbon_3x2_accepted : accepted ribbon_3x2.
Proof. apply (bool_decide_unpack _). vm_compute. reflexivity. Qed.

Lemma pristine_lattice_well_formed_witness :
  exists model,
    build_lattice_model no_disorder ribbon_3x2 = Ok model
    /\ well_formed model.
Proof.
  destruct (pristine_lattice_well_formed (H0 := lcg_machine)
              no_disorder ribbon_3x2) as (model & Hbuild & Hwf & _).
  - apply (bool_decide_unpack _). vm_compute. reflexivity.
  - apply (bool_decide_unpack _). vm_compute. reflexivity.
  - exists model. split; [exact Hbuild | exact Hwf].
Defined.

Lemma pristine_lattice_rows_witness :
  exists model,
    build_lattice_model no_disorder ribbon_3x2 = Ok model
    /\ hop_count model (atom_index ribbon_3x2 0 1 0 0)
       = Z.of_nat (length (filter (stays_inside ribbon_3x2 0 1 0)
                             (template ribbon_3x2 0))).
Proof.
  destruct (pristine_lattice_rows (H0 := lcg_machine) no_disorder ribbon_3x2)
    as (model & Hbuild & Hrows).
  - apply (bool_decide_unpack _). vm_compute. reflexivity.
  - exists model. split; [exact Hbuild|].
    refine (proj1 (Hrows 0 1 0 0 _)). vm_compute. intuition congruence.
Defined.

Lemma periodic_lattice_rows_witness :
  exists model,
    build_lattice_model no_disorder (square_2x2 2) = Ok model
    /\ get (neighbor_number model) (atom_index (square_2x2 2) 1 1 0 0)
       = Ok (Z.of_nat (length (template (square_2x2 2) 0))).
Proof.
  destruct (periodic_lattice_rows (H0 := lcg_machine)
              no_disorder (square_2x2 2)) as (model & Hbuild & Hrows).
  - apply (bool_decide_unpack _). vm_compute. reflexivity.
  - apply (bool_decide_unpack _). vm_compute. reflexivity.
  - exists model. split; [exact Hbuild|].
    refine (proj1 (Hrows 1 1 0 0 _)). vm_compute. intuition congruence.
Defined.

Lemma pristine_lattice_geometry_witness :
  exists model,
    build_lattice_model (example_parameters false false true 1) ribbon_3x2
    = Ok model
    /\ potential model = replicate 6 r_zero
    /\ length (x model) = 6%nat.
Proof.
  destruct (pristine_lattice_geometry (H0 := lcg_machine)
              (example_parameters false false true 1) ribbon_3x2)
    as (model & Hbuild & Hpot & _ & _ & _ & Hpos & _).
  - apply (bool_decide_unpack _). vm_compute. reflexivity.
  - exists model. split; [exact Hbuild|]. split; [exact Hpot|].
    exact (proj1 (Hpos eq_refl)).
Defined.


(** ** The pristine lattice followed by the disorder *)

Section Pipeline.
Context `{MachineLaws}.

(** X22. With vacancy disorder alone, on an accepted lattice.in without a
    hop longer than the lattice along a periodic axis and with no more
    vacancies than atoms, [initialize_lattice_model] returns a model of
    [N_orbital * Nx * Ny * Nz - number_of_vacancies] atoms whose neighbor
    table satisfies the invariant: the sizes of the arrays, at most
    [max_neighbor] hops for an atom, every hop to an atom of the model. *)
Theorem lattice_with_vacancies
    (p : Parameters) (input : LatticeFile) (g : generator) :
  accepted input -> within_one_period input ->
  has_vacancy_disorder p = true -> has_anderson_disorder p = false ->
  has_charged_impurities p = false ->
  0 <= number_of_vacancies p <= lattice_atoms input ->
  exists model g',
    initialize_lattice_model p input g = Ok (model, g')
    /\ number_of_atoms model = lattice_atoms input - number_of_vacancies p
    /\ well_formed model.
Proof.
  intros Hacc Hshort Hv Ha Hc Hk.
  destruct (build_lattice_model_well_formed p input Hacc Hshort)
    as (pristine & Hbuild & HN & Hwf & _).
  destruct (add_vacancies_invariant pristine (number_of_vacancies p) g Hwf)
    as (model & g' & Hrun & HN' & Hwf'); [lia|].
  exists model, g'. split; [|split; [lia | done]].
  unfold initialize_lattice_model.
  rewrite Hbuild, bind_Ok, Hv, Ha, Hc, Hrun. done.
Qed.

(** X23. With Anderson disorder and charged impurities together, the
    potential that [initialize_lattice_model] returns is the potential of
    the impurities alone: the values drawn for the Anderson disorder are
    overwritten, and the draws made for them only move the generator from
    which the impurity sites and strengths are drawn next. *)
Theorem lattice_anderson_overwritten
    (p : Parameters) (input : LatticeFile) (g : generator) :
  let N := lattice_atoms input in
  let k := number_of_charged_impurities p in
  let A2 := r_mul (anderson_disorder_strength p) r_half in
  let W2 := r_mul (charged_impurity_strength p) r_half in
  let g_anderson := (real_draws (Z.to_nat N) (r_neg A2) A2 g).2 in
  let sites := drawn N k g_anderson in
  let strengths := real_draws (Z.to_nat k) (r_neg W2) W2
                     (int_draws (Z.to_nat N) g_anderson).2 in
  accepted input ->
  has_vacancy_disorder p = false -> has_anderson_disorder p = true ->
  has_charged_impurities p = true -> 0 <= k <= N ->
  exists pristine model,
    build_lattice_model p input = Ok pristine
    /\ initialize_lattice_model p input g = Ok (model, strengths.2)
    /\ forall n1, 0 <= n1 < N ->
         get (potential model) n1
         = Ok (screened_potential pristine (charged_impurity_range p)
                 (zip sites strengths.1) n1).
Proof.
  intros N k A2 W2 g_anderson sites strengths Hacc Hv Ha Hc Hk.
  destruct (build_lattice_model_full p input Hacc)
    as (pristine & Hbuild & HN & _ & _ & _ & _ & _ & Hpot & Hpbc & Hbox & _
        & Hpos & _).
  destruct (Hpos Hc) as (Hlx & Hly & Hlz & _). fold N in HN, Hpot, Hlx, Hly, Hlz.
  set (draws := real_draws (Z.to_nat N) (r_neg A2) A2 g).
  set (noisy := set_potential pristine
                  (draws.1 ++ drop (Z.to_nat N) (potential pristine))).
  assert (add_anderson_disorder (anderson_disorder_strength p) pristine g
          = Ok (noisy, g_anderson)) as Handerson.
  { unfold add_anderson_disorder. cbn zeta. fold A2. rewrite HN.
    rewrite draw_loop, bind_Ok by (rewrite Hpot, length_replicate; lia).
    done. }
  destruct (add_charged_impurities_run k (charged_impurity_strength p)
              (charged_impurity_range p) noisy g_anderson)
    as (pot & Hrun & _ & Hvalues);
    cbn [noisy set_potential number_of_atoms pbc box_length x y z potential];
    rewrite ?HN, ?Hpbc, ?Hbox, ?Hlx, ?Hly, ?Hlz; try (done || lia).
  { rewrite length_app, length_drop, Hpot, length_replicate.
    unfold draws. rewrite length_real_draws. lia. }
  exists pristine, (set_potential noisy pot).
  split; [done|]. split.
  - unfold initialize_lattice_model.
    rewrite Hbuild, bind_Ok, Hv, bind_Ok. cbn beta iota.
    rewrite Ha, Handerson, bind_Ok. cbn beta iota.
    rewrite Hc. fold k.
    cbn [noisy set_potential number_of_atoms] in Hrun. rewrite HN in Hrun.
    fold W2 strengths in Hrun. rewrite Hrun. done.
  - intros n1 Hn1. cbn [potential set_potential].
    cbn [noisy set_potential number_of_atoms] in Hvalues.
    rewrite HN in Hvalues. by apply Hvalues.
Qed.

End Pipeline.

Lemma lattice_with_vacancies_witness :
  exists model g',
    initialize_lattice_model (example_parameters true false false 2)
      ribbon_3x2 (7 : generator) = Ok (model, g')
    /\ number_of_atoms model = 4
    /\ well_formed model.
Proof.
  apply (lattice_with_vacancies (H1 := lcg_laws)
           (example_parameters true false false 2) ribbon_3x2 7).
  - apply (bool_decide_unpack _). vm_compute. reflexivity.
  - apply (bool_decide_unpack _). vm_compute. reflexivity.
  - reflexivity.
  - reflexivity.
  - reflexivity.
  - vm_compute. intuition congruence.
Defined.

Lemma lattice_anderson_overwritten_witness :
  exists pristine model g',
    build_lattice_model (example_parameters false true true 1) ribbon_3x2
    = Ok pristine
    /\ initialize_lattice_model (example_parameters false true true 1)
         ribbon_3x2 (7 : generator) = Ok (model, g').
Proof.
  destruct (lattice_anderson_overwritten (H1 := lcg_laws)
              (example_parameters false true true 1) ribbon_3x2 7)
    as (pristine & model & Hbuild & Hrun & _).
  - apply (bool_decide_unpack _). vm_compute. reflexivity.
  - reflexivity.
  - reflexivity.
  - reflexivity.
  - vm_compute. intuition congruence.
  - exists pristine, model. eexists. split; [exact Hbuild | exact Hrun].
Defined.

(** ** Vacancies followed by charged impurities *)

Section VacanciesThenImpurities.
Context `{MachineLaws}.

(** The screened potential depends on the model through the positions and
    the box only. *)
Lemma screened_potential_ext (m1 m2 : Model) (range : real)
    (impurities : list (Z * real)) (n1 : Z) :
  x m1 = x m2 -> y m1 = y m2 -> z m1 = z m2 -> pbc m1 = pbc m2 ->
  box_length m1 = box_length m2 ->
  screened_potential m1 range impurities n1
  = screened_potential m2 range impurities n1.
Proof.
  intros Hx Hy Hz Hpbc Hbox.
  unfold screened_potential, distance_square, axis_distance, raw_separation.
  by rewrite Hx, Hy, Hz, Hpbc, Hbox.
Qed.

(** X24. With vacancies and charged impurities together, the positions
    are not renumbered with the atoms: the potential that
    [initialize_lattice_model] gives the atom [a] of the model without the
    vacancies is the screened potential at the position of the pristine
    atom [a], of impurities at the positions of the pristine atoms whose
    indices are drawn among the remaining ones. *)
Theorem lattice_vacancies_then_impurities
    (p : Parameters) (input : LatticeFile) (g : generator) :
  let N := lattice_atoms input in
  let kv := number_of_vacancies p in
  let kc := number_of_charged_impurities p in
  let W2 := r_mul (charged_impurity_strength p) r_half in
  let g_vacancies := (int_draws (Z.to_nat N) g).2 in
  let sites := drawn (N - kv) kc g_vacancies in
  let strengths := real_draws (Z.to_nat kc) (r_neg W2) W2
                     (int_draws (Z.to_nat (N - kv)) g_vacancies).2 in
  accepted input -> within_one_period input ->
  has_vacancy_disorder p = true -> has_anderson_disorder p = false ->
  has_charged_impurities p = true ->
  0 <= kv <= N -> 0 <= kc <= N - kv ->
  exists pristine model,
    build_lattice_model p input = Ok pristine
    /\ initialize_lattice_model p input g = Ok (model, strengths.2)
    /\ number_of_atoms model = N - kv
    /\ x model = x pristine /\ y model = y pristine /\ z model = z pristine
    /\ length (x model) = Z.to_nat N
    /\ forall a, 0 <= a < N - kv ->
         get (potential model) a
         = Ok (screened_potential pristine (charged_impurity_range p)
                 (zip sites strengths.1) a).
Proof.
  intros N kv kc W2 g_vacancies sites strengths Hacc Hshort Hv Ha Hc Hkv Hkc.
  destruct (build_lattice_model_well_formed p input Hacc Hshort)
    as (pristine & Hbuild & HN & Hwf & _).
  destruct (build_lattice_model_full p input Hacc)
    as (pristine' & Hbuild' & _ & _ & _ & _ & _ & _ & Hpot & Hpbc & Hbox & _
        & Hpos & _).
  assert (pristine' = pristine) as -> by congruence.
  destruct (Hpos Hc) as (Hlx & Hly & Hlz & _).
  fold N in HN, Hpot, Hlx, Hly, Hlz.
  destruct (add_vacancies_spec kv pristine g Hwf ltac:(lia))
    as (vac & g' & thinned & Hspec & Hrun & _ & _ & _ & HN' & _).
  rewrite HN in Hspec, HN'. fold N in Hspec, HN'.
  rewrite specify_vacancies_run in Hspec
    by (rewrite ?length_new_array; lia).
  injection Hspec as _ Hg. fold g_vacancies in Hg. subst g'.
  destruct (add_vacancies_frame kv pristine thinned g g_vacancies Hrun)
    as (Hfpot & Hfx & Hfy & Hfz & Hfpbc & Hfbox & _).
  destruct (add_charged_impurities_run kc (charged_impurity_strength p)
              (charged_impurity_range p) thinned g_vacancies)
    as (pot & Hcharged & _ & Hvalues);
    rewrite ?HN', ?Hfpbc, ?Hfbox, ?Hfx, ?Hfy, ?Hfz, ?Hfpot, ?Hpbc, ?Hbox,
      ?Hlx, ?Hly, ?Hlz, ?Hpot, ?length_replicate; try (done || lia).
  rewrite HN' in Hcharged, Hvalues. fold W2 sites strengths in Hcharged, Hvalues.
  exists pristine, (set_potential thinned pot).
  split; [done|]. split.
  { unfold initialize_lattice_model.
    rewrite Hbuild, bind_Ok, Hv. fold kv. rewrite Hrun, bind_Ok.
    cbn beta iota. rewrite Ha, bind_Ok. cbn beta iota.
    rewrite Hc. fold kc. rewrite Hcharged. done. }
  cbn [set_potential number_of_atoms x y z potential].
  split; [done|]. split; [done|]. split; [done|]. split; [done|].
  split; [by rewrite Hfx|].
  intros a Ha'. rewrite (Hvalues a Ha'). f_equal.
  by apply screened_potential_ext.
Qed.

End VacanciesThenImpurities.

Lemma lattice_vacancies_then_impurities_witness :
  exists pristine model g',
    build_lattice_model (example_parameters true false true 2) ribbon_3x2
    = Ok pristine
    /\ initialize_lattice_model (example_parameters true false true 2)
         ribbon_3x2 (7 : generator) = Ok (model, g')
    /\ number_of_atoms model = 4
    /\ length (x model) = 6%nat.
Proof.
  destruct (lattice_vacancies_then_impurities (H1 := lcg_laws)
              (example_parameters true false true 2) ribbon_3x2 7)
    as (pristine & model & Hbuild & Hrun & HN & _ & _ & _ & Hlen & _).
  - apply (bool_decide_unpack _). vm_compute. reflexivity.
  - apply (bool_decide_unpack _). vm_compute. reflexivity.
  - reflexivity.
  - reflexivity.
  - reflexivity.
  - vm_compute. intuition congruence.
  - vm_compute. intuition congruence.
  - exists pristine, model. eexists. split; [exact Hbuild|].
    split; [exact Hrun|]. split; [exact HN | exact Hlen].
Defined.


(** ** The checks of para.in *)

Section Verify.
Context `{Real}.

Lemma verify_parameters_run (p : Parameters) :
  parameters_accepted p ->
  verify_parameters p
  = Ok (set_requires_time
          (if calculate_vac p || calculate_msd p || calculate_spin p
           then true else requires_time p) p).
Proof.
  unfold parameters_accepted, verify_parameters, set_requires_time.
  intros (Hmodel & Hspin & Hvec & Hmom & Hmax).
  rewrite (bool_decide_false (number_of_random_vectors p <= 0)) by lia.
  rewrite (bool_decide_false (number_of_moments p <= 0)) by lia.
  rewrite Hmax.
  destruct (use_lattice_model p).
  - destruct Hmodel as [Hs Hvac]. rewrite Hs.
    destruct (has_vacancy_disorder p); [|done].
    rewrite (bool_decide_false (number_of_vacancies p <= 0))
      by (specialize (Hvac eq_refl); lia).
    done.
  - destruct Hmodel as (-> & -> & ->).
    destruct (calculate_spin p); [|done].
    by destruct (Hspin eq_refl) as [-> ->].
Qed.

Lemma verify_parameters_rejects (p : Parameters) :
  ~ parameters_accepted p -> verify_parameters p = Fault ConfigError.
Proof.
  unfold parameters_accepted, verify_parameters. intros Hno.
  destruct (use_lattice_model p).
  - destruct (calculate_spin p) eqn:Hs; [done|].
    destruct (has_vacancy_disorder p) eqn:Hv.
    + destruct (decide (number_of_vacancies p <= 0)) as [Hk|Hk];
        [by rewrite (bool_decide_true _ Hk)|].
      rewrite (bool_decide_false _ Hk).
      destruct (decide (number_of_random_vectors p <= 0)) as [Hr|Hr];
        [by rewrite (bool_decide_true _ Hr)|].
      rewrite (bool_decide_false _ Hr).
      destruct (decide (number_of_moments p <= 0)) as [Hm|Hm];
        [by rewrite (bool_decide_true _ Hm)|].
      rewrite (bool_decide_false _ Hm).
      destruct (r_leb (energy_max p) (r_of_int 0)) eqn:He; [done|].
      exfalso. apply Hno. repeat split; (done || lia).
    + destruct (decide (number_of_random_vectors p <= 0)) as [Hr|Hr];
        [by rewrite (bool_decide_true _ Hr)|].
      rewrite (bool_decide_false _ Hr).
      destruct (decide (number_of_moments p <= 0)) as [Hm|Hm];
        [by rewrite (bool_decide_true _ Hm)|].
      rewrite (bool_decide_false _ Hm).
      destruct (r_leb (energy_max p) (r_of_int 0)) eqn:He; [done|].
      exfalso. apply Hno. repeat split; (done || lia).
  - destruct (has_anderson_disorder p) eqn:Ha; [done|].
    destruct (has_vacancy_disorder p) eqn:Hv; [done|].
    destruct (has_charged_impurities p) eqn:Hc; [done|].
    destruct (calculate_spin p) eqn:Hs.
    + destruct (calculate_vac p) eqn:Hcv; [done|].
      destruct (calculate_msd p) eqn:Hcm; [done|].
      destruct (decide (number_of_random_vectors p <= 0)) as [Hr|Hr];
        [by rewrite (bool_decide_true _ Hr)|].
      rewrite (bool_decide_false _ Hr).
      destruct (decide (number_of_moments p <= 0)) as [Hm|Hm];
        [by rewrite (bool_decide_true _ Hm)|].
      rewrite (bool_decide_false _ Hm).
      destruct (r_leb (energy_max p) (r_of_int 0)) eqn:He; [done|].
      exfalso. apply Hno. repeat split; (done || lia).
    + destruct (decide (number_of_random_vectors p <= 0)) as [Hr|Hr];
        [by rewrite (bool_decide_true _ Hr)|].
      rewrite (bool_decide_false _ Hr).
      destruct (decide (number_of_moments p <= 0)) as [Hm|Hm];
        [by rewrite (bool_decide_true _ Hm)|].
      rewrite (bool_decide_false _ Hm).
      destruct (r_leb (energy_max p) (r_of_int 0)) eqn:He; [done|].
      exfalso. apply Hno. repeat split; (done || lia).
Qed.

(** X25. [verify_parameters] ends the run with [exit(1)] exactly when the
    parameters break one of its rules (a lattice model with spin, or with
    vacancy disorder and a number of vacancies that is not positive; a
    general model with disorder; spin together with VAC or MSD; a number of
    random vectors, a number of moments or an energy maximum that is not
    positive).  Otherwise it returns the parameters as they are, but for
    [requires_time], which it sets when VAC, MSD or spin is calculated.
    The strengths, the range and the number of the charged impurities are
    not looked at. *)
Theorem verify_parameters_accepts (p : Parameters) :
  (parameters_accepted p ->
   verify_parameters p
   = Ok (set_requires_time
           (if calculate_vac p || calculate_msd p || calculate_spin p
            then true else requires_time p) p))
  /\ (~ parameters_accepted p -> verify_parameters p = Fault ConfigError).
Proof.
  split; [apply verify_parameters_run | apply verify_parameters_rejects].
Qed.

(** X26. Verified parameters pass the verification again and come out of
    it as they are. *)
Theorem verify_parameters_idempotent (p : Parameters) :
  parameters_accepted p ->
  exists p',
    verify_parameters p = Ok p'
    /\ parameters_accepted p'
    /\ verify_parameters p' = Ok p'.
Proof.
  intros Hacc. eexists. split; [by apply verify_parameters_run|].
  set (p' := set_requires_time _ p).
  assert (parameters_accepted p') as Hacc' by exact Hacc.
  split; [done|]. rewrite (verify_parameters_run p' Hacc').
  f_equal. unfold p', set_requires_time. cbn.
  destruct (calculate_vac p), (calculate_msd p), (calculate_spin p); done.
Qed.

End Verify.

Lemma verify_parameters_accepts_witness :
  verify_parameters (example_parameters true false true 2)
  = Ok (example_parameters true false true 2)
  /\ verify_parameters (example_parameters true false false 0)
     = Fault ConfigError.
Proof.
  destruct (verify_parameters_accepts (example_parameters true false true 2))
    as [Hyes _].
  destruct (verify_parameters_accepts (example_parameters true false false 0))
    as [_ Hno].
  split.
  - apply Hyes. apply (bool_decide_unpack _). vm_compute. reflexivity.
  - apply Hno. apply (bool_decide_unpack _). vm_compute. reflexivity.
Defined.

Lemma verify_parameters_idempotent_witness :
  exists p',
    verify_parameters (example_parameters true false true 2) = Ok p'
    /\ verify_parameters p' = Ok p'.
Proof.
  destruct (verify_parameters_idempotent
              (example_parameters true false true 2))
    as (p' & Hrun & _ & Hagain).
  - apply (bool_decide_unpack _). vm_compute. reflexivity.
  - exists p'. split; [exact Hrun | exact Hagain].
Defined.

(** ** Reading para.in *)

Section ParaIn.
Context `{LineReader}.

Lemma read_line_blank (p : Parameters) (line : string) :
  line_token line = EmptyString -> read_line p line = Ok p.
Proof.
  unfold line_token, read_line. intros Htoken.
  destruct (extract_token (open_line line)) as [token ss].
  cbn [fst] in Htoken. by rewrite decide_True.
Qed.

Lemma read_line_unknown (p : Parameters) (line : string) :
  line_token line <> EmptyString -> line_token line ∉ keywords ->
  read_line p line = Fault ConfigError.
Proof.
  unfold line_token, read_line, keywords. intros Hne Hnot.
  destruct (extract_token (open_line line)) as [token ss].
  cbn [fst] in Hne, Hnot.
  repeat (rewrite decide_False;
          [|intros ->; first [done | apply Hnot; repeat constructor]]).
  done.
Qed.

(** [exit(1)] is the only way a line ends the run. *)
Lemma read_line_fault (p : Parameters) (line : string) (f : fault) :
  read_line p line = Fault f -> f = ConfigError.
Proof.
  unfold read_line.
  destruct (extract_token (open_line line)) as [token ss].
  repeat (case_decide; [repeat (destruct (extract_bool _ _)
                                || destruct (extract_int _ _)
                                || destruct (extract_real _ _)); done|]).
  congruence.
Qed.

Lemma read_lines_fault (p : Parameters) (lines : list string) (f : fault) :
  read_lines p lines = Fault f -> f = ConfigError.
Proof.
  revert p. induction lines as [|line lines IH]; intros p; [done|].
  cbn [read_lines]. destruct (read_line p line) as [p1|f1] eqn:Hline.
  - rewrite bind_Ok. apply IH.
  - rewrite bind_Fault. intros [= <-]. by apply (read_line_fault p line).
Qed.

Lemma read_lines_app (p : Parameters) (l1 l2 : list string) :
  read_lines p (l1 ++ l2) = (p ← read_lines p l1; read_lines p l2).
Proof.
  revert p. induction l1 as [|line l1 IH]; intros p; [done|].
  cbn [read_lines app]. destruct (read_line p line) as [p1|f1]; [|done].
  rewrite !bind_Ok. apply IH.
Qed.

(** X27. A line of para.in whose first token is none of the ten keywords
    ends the run with [exit(1)], wherever it is in the file and whatever the
    other lines hold; so does a para.in that cannot be opened. *)
Theorem para_in_unknown_keyword
    (p : Parameters) (lines : list string) (line : string) :
  line ∈ lines ->
  line_token line <> EmptyString -> line_token line ∉ keywords ->
  initialize_parameters p (Some lines) = Fault ConfigError
  /\ initialize_parameters p None = Fault ConfigError.
Proof.
  intros Hin Hne Hnot. split; [|done].
  unfold initialize_parameters.
  assert (read_lines p lines = Fault ConfigError) as ->; [|done].
  revert p. induction lines as [|l lines IH]; intros p;
    [by apply elem_of_nil in Hin|].
  cbn [read_lines]. destruct (read_line p l) as [p1|f1] eqn:Hl.
  - rewrite bind_Ok.
    apply elem_of_cons in Hin as [->|Hin]; [|by apply IH].
    rewrite read_line_unknown in Hl by done. discriminate.
  - by rewrite (read_line_fault p l f1 Hl).
Qed.

(** X28. A line of para.in without a token is skipped: the file read with
    the line and without it gives the same parameters, or ends the run in
    both cases. *)
Theorem para_in_blank_line
    (p : Parameters) (before after : list string) (blank : string) :
  line_token blank = EmptyString ->
  initialize_parameters p (Some (before ++ blank :: after))
  = initialize_parameters p (Some (before ++ after)).
Proof.
  intros Hblank. unfold initialize_parameters.
  rewrite !read_lines_app. cbn [read_lines].
  destruct (read_lines p before) as [p1|f1]; [|done].
  rewrite !bind_Ok. by rewrite (read_line_blank p1 blank Hblank), bind_Ok.
Qed.

Lemma read_line_flags (p p' : Parameters) (line : string) :
  read_line p line = Ok p' ->
  flags_after p p' (fun k => line_token line = k).
Proof.
  unfold read_line, line_token, flags_after, flag_keywords.
  destruct (extract_token (open_line line)) as [token ss]. cbn [fst].
  repeat (case_decide;
          [ subst token;
            repeat (destruct (extract_bool _ _)
                    || destruct (extract_int _ _)
                    || destruct (extract_real _ _));
            intros [= <-]; repeat constructor; cbn;
            intuition (done || discriminate) |]).
  intros Hrun. discriminate Hrun.
Qed.

Lemma read_line_known (p : Parameters) (line : string) :
  known_line line -> exists p', read_line p line = Ok p'.
Proof.
  unfold known_line, read_line, line_token, keywords.
  destruct (extract_token (open_line line)) as [token ss]. cbn [fst].
  intros Hknown.
  repeat (case_decide;
          [ repeat (destruct (extract_bool _ _)
                    || destruct (extract_int _ _)
                    || destruct (extract_real _ _));
            by eexists |]).
  exfalso. destruct Hknown as [?|Hin]; [done|].
  repeat (apply elem_of_cons in Hin as [?|Hin]; [done|]).
  by apply elem_of_nil in Hin.
Qed.

Lemma flags_after_refl (p : Parameters) :
  flags_after p p (keyword_seen []).
Proof.
  unfold flags_after. apply Forall_forall. intros fk _. split; [by left|].
  intros [?|(line & Hin & _)]; [done|]. by apply elem_of_nil in Hin.
Qed.

Lemma flags_after_cons (p p1 p' : Parameters) (line : string)
    (lines : list string) :
  flags_after p p1 (fun k => line_token line = k) ->
  flags_after p1 p' (keyword_seen lines) ->
  flags_after p p' (keyword_seen (line :: lines)).
Proof.
  unfold flags_after. rewrite !Forall_forall. intros Hline Hrest fk Hfk.
  rewrite (Hrest fk Hfk), (Hline fk Hfk). unfold keyword_seen. split.
  - intros [[?|Htoken]|(l & Hin & Hl)]; [by left | right | right].
    + exists line. split; [apply list_elem_of_here | done].
    + exists l. split; [by apply list_elem_of_further | done].
  - intros [?|(l & Hin & Hl)]; [by left; left|].
    apply elem_of_cons in Hin as [->|Hin]; [by left; right|].
    right. by exists l.
Qed.

Lemma read_lines_flags (p : Parameters) (lines : list string) :
  Forall known_line lines ->
  exists p', read_lines p lines = Ok p'
             /\ flags_after p p' (keyword_seen lines).
Proof.
  intros Hknown. revert p.
  induction Hknown as [|line lines Hline _ IH]; intros p.
  - exists p. split; [done | apply flags_after_refl].
  - destruct (read_line_known p line Hline) as [p1 Hp1].
    destruct (IH p1) as (p' & Hrun & Hflags).
    exists p'. cbn [read_lines]. rewrite Hp1, bind_Ok. split; [done|].
    apply (flags_after_cons p p1); [by apply read_line_flags | done].
Qed.

(** X29. A para.in whose lines start with a keyword, or hold no token, is
    read to its end.  After it a flag among [has_anderson_disorder],
    [has_charged_impurities], [has_vacancy_disorder], [calculate_vac],
    [calculate_msd] and [calculate_spin] is set exactly when it was set
    before or some line starts with its keyword: no line clears a flag.
    The parameters read are then handed to [verify_parameters]. *)
Theorem para_in_flags (p : Parameters) (lines : list string) :
  Forall known_line lines ->
  exists p',
    read_lines p lines = Ok p'
    /\ initialize_parameters p (Some lines) = verify_parameters p'
    /\ flags_after p p' (keyword_seen lines).
Proof.
  intros Hknown.
  destruct (read_lines_flags p lines Hknown) as (p' & Hrun & Hflags).
  exists p'. split; [done|]. split; [|done].
  unfold initialize_parameters. by rewrite Hrun.
Qed.

End ParaIn.

Lemma para_in_unknown_keyword_witness :
  initialize_parameters general_parameters
    (Some ["calculate_vac"; "temperature"; "number_of_moments"])
  = Fault ConfigError.
Proof.
  refine (proj1 (para_in_unknown_keyword general_parameters
                   ["calculate_vac"; "temperature"; "number_of_moments"]
                   "temperature" _ _ _)).
  - apply list_elem_of_further, list_elem_of_here.
  - discriminate.
  - apply (bool_decide_unpack _). vm_compute. reflexivity.
Defined.

Lemma para_in_blank_line_witness :
  initialize_parameters general_parameters
    (Some (["calculate_vac"] ++ EmptyString :: ["number_of_moments"]))
  = initialize_parameters general_parameters
      (Some (["calculate_vac"] ++ ["number_of_moments"])).
Proof.
  apply (para_in_blank_line general_parameters
           ["calculate_vac"] ["number_of_moments"] EmptyString).
  reflexivity.
Defined.

Lemma para_in_flags_witness :
  exists p',
    read_lines general_parameters ["calculate_vac"; "number_of_moments"]
    = Ok p'
    /\ flags_after general_parameters p'
         (keyword_seen ["calculate_vac"; "number_of_moments"]).
Proof.
  destruct (para_in_flags general_parameters
              ["calculate_vac"; "number_of_moments"])
    as (p' & Hrun & _ & Hflags).
  - repeat constructor; right; apply (bool_decide_unpack _); vm_compute;
      reflexivity.
  - exists p'. split; [exact Hrun | exact Hflags].
Defined.


(** ** A hopping list longer than [max_neighbor] *)

Section Overflow.
Context `{Machine}.

Lemma set2_six_rows (P : nat) (hd : list (list Z)) (r c v : Z) :
  six_rows P hd -> 0 <= r < 6 ->
  (0 <= c < Z.of_nat P ->
   exists hd', set2 hd r c v = Ok hd' /\ six_rows P hd')
  /\ (c = Z.of_nat P -> set2 hd r c v = Fault (OutOfBounds c P)).
Proof.
  intros [Hsix Hrows] Hr.
  destruct (lookup_lt_is_Some_2 hd (Z.to_nat r)) as [row Hrow]; [lia|].
  pose proof (Forall_lookup_1 _ _ _ _ Hrows Hrow) as Hlen. simpl in Hlen.
  rewrite <- (Z2Nat.id r) by lia.
  split.
  - intros Hc. rewrite (set2_Ok hd (Z.to_nat r) row) by (done || lia).
    eexists. split; [done|]. split; [by rewrite length_insert|].
    apply Forall_insert; [done|]. by rewrite length_insert.
  - intros ->. unfold set2. rewrite (get_nat _ _ _ Hrow), bind_Ok.
    rewrite set_out by lia. by rewrite Hlen.
Qed.

Lemma input_item_Z {A} (l : list A) (i : Z) (v : A) :
  l !! Z.to_nat i = Some v -> input_item l i = Ok v.
Proof. intros Hv. unfold input_item. by rewrite Hv. Qed.

(** Lines 483-488 for a column inside the rows. *)
Lemma store_six (P : nat) (hd : list (list Z)) (c : Z) (e : Hopping) :
  six_rows P hd -> 0 <= c < Z.of_nat P ->
  exists hd',
    (hd ← set2 hd 0 c (hop_nx e);
     hd ← set2 hd 1 c (hop_ny e);
     hd ← set2 hd 2 c (hop_nz e);
     hd ← set2 hd 3 c (hop_m_neighbor e);
     hd ← set2 hd 4 c (r_to_int (hop_real e));
     set2 hd 5 c (r_to_int (hop_imag e))) = Ok hd'
    /\ six_rows P hd'.
Proof.
  intros Hs0 Hc.
  destruct (proj1 (set2_six_rows P hd 0 c (hop_nx e) Hs0 ltac:(lia)) Hc)
    as (hd1 & -> & Hs1).
  rewrite bind_Ok.
  destruct (proj1 (set2_six_rows P hd1 1 c (hop_ny e) Hs1 ltac:(lia)) Hc)
    as (hd2 & -> & Hs2).
  rewrite bind_Ok.
  destruct (proj1 (set2_six_rows P hd2 2 c (hop_nz e) Hs2 ltac:(lia)) Hc)
    as (hd3 & -> & Hs3).
  rewrite bind_Ok.
  destruct (proj1 (set2_six_rows P hd3 3 c (hop_m_neighbor e) Hs3 ltac:(lia))
              Hc) as (hd4 & -> & Hs4).
  rewrite bind_Ok.
  destruct (proj1 (set2_six_rows P hd4 4 c (r_to_int (hop_real e)) Hs4
                     ltac:(lia)) Hc) as (hd5 & -> & Hs5).
  rewrite bind_Ok.
  exact (proj1 (set2_six_rows P hd5 5 c (r_to_int (hop_imag e)) Hs5
                  ltac:(lia)) Hc).
Qed.

(** Lines 476-493 for one orbital whose list fits. *)
Lemma store_list (No mn m : Z) (es : list Hopping) (hd : list (list Z)) :
  0 <= m < No -> Z.of_nat (length es) <= mn ->
  six_rows (Z.to_nat (No * mn)) hd ->
  exists hd',
    for_range 0 (Z.of_nat (length es))
      (fun n hd =>
         e ← input_item es n;
         hd ← set2 hd 0 (m * mn + n) (hop_nx e);
         hd ← set2 hd 1 (m * mn + n) (hop_ny e);
         hd ← set2 hd 2 (m * mn + n) (hop_nz e);
         hd ← set2 hd 3 (m * mn + n) (hop_m_neighbor e);
         hd ← set2 hd 4 (m * mn + n) (r_to_int (hop_real e));
         set2 hd 5 (m * mn + n) (r_to_int (hop_imag e)))
      hd = Ok hd'
    /\ six_rows (Z.to_nat (No * mn)) hd'.
Proof.
  intros Hm Hshort Hhd.
  loop_invariant
    (fun (t : nat) (hd' : list (list Z)) =>
       six_rows (Z.to_nat (No * mn)) hd') Hloop.
  destruct Hloop as (hd' & Hrun & Hhd'); [done | | by exists hd'].
  intros t hd1 Ht Hhd1.
  destruct (lookup_lt_is_Some_2 es t) as [e He]; [lia|].
  rewrite (input_item_nat _ _ _ He), bind_Ok.
  apply store_six; [done | nia].
Qed.

(** Lines 468-494: the list of the last orbital has more than
    [max_neighbor] entries. *)
Lemma read_hoppings_overflow (No mn : Z) (hoppings : list (list Hopping))
    (es : list Hopping) :
  0 < No -> 0 < mn -> length hoppings = Z.to_nat No ->
  Forall (fun l => Z.of_nat (length l) <= mn)
         (take (Z.to_nat (No - 1)) hoppings) ->
  hoppings !! Z.to_nat (No - 1) = Some es -> mn < Z.of_nat (length es) ->
  read_hoppings No mn hoppings
  = Fault (OutOfBounds (No * mn) (Z.to_nat (No * mn))).
Proof.
  intros HNo Hmn Hlen Hshort Hlast Hlong. unfold read_hoppings.
  unfold for_range at 1. rewrite Z.sub_0_r.
  apply (for_loop_fault
    (fun (t : nat) (s : list Z * list (list Z)) =>
       length s.1 = Z.to_nat No /\ six_rows (Z.to_nat (No * mn)) s.2)
    _ (Z.to_nat (No - 1))); [lia | | |].
  - cbn [fst snd]. split; [apply length_new_array|].
    split; [done|]. apply Forall_replicate. apply length_new_array.
  - intros t [nh hd] Ht [Hnh Hhd]. cbn [fst snd] in Hnh, Hhd.
    replace (0 + Z.of_nat t * 1) with (Z.of_nat t) by lia.
    destruct (lookup_lt_is_Some_2 hoppings t) as [l Hl]; [lia|].
    assert (Z.of_nat (length l) <= mn) as Hfit.
    { apply (Forall_lookup_1 _ _ t l Hshort).
      rewrite lookup_take_lt by lia. done. }
    rewrite (input_item_nat _ _ _ Hl), bind_Ok.
    rewrite set_nat, bind_Ok by lia.
    rewrite (get_nat _ _ (Z.of_nat (length l))), bind_Ok
      by (apply list_lookup_insert_eq; lia).
    destruct (store_list No mn (Z.of_nat t) l hd) as (hd' & Hrun & Hhd');
      [lia | done | done |].
    rewrite Hrun, bind_Ok. eexists. split; [done|]. cbn [fst snd].
    split; [by rewrite length_insert | done].
  - intros [nh hd] [Hnh Hhd]. cbn [fst snd] in Hnh, Hhd.
    replace (0 + Z.of_nat (Z.to_nat (No - 1)) * 1) with (No - 1) by lia.
    rewrite (input_item_Z hoppings (No - 1) es Hlast), bind_Ok.
    rewrite set_Ok, bind_Ok by lia.
    rewrite (get_Ok _ _ (Z.of_nat (length es))), bind_Ok
      by (lia || (apply list_lookup_insert_eq; lia)).
    assert (for_range 0 (Z.of_nat (length es))
      (fun n hd =>
         e ← input_item es n;
         hd ← set2 hd 0 ((No - 1) * mn + n) (hop_nx e);
         hd ← set2 hd 1 ((No - 1) * mn + n) (hop_ny e);
         hd ← set2 hd 2 ((No - 1) * mn + n) (hop_nz e);
         hd ← set2 hd 3 ((No - 1) * mn + n) (hop_m_neighbor e);
         hd ← set2 hd 4 ((No - 1) * mn + n) (r_to_int (hop_real e));
         set2 hd 5 ((No - 1) * mn + n) (r_to_int (hop_imag e)))
      hd = Fault (OutOfBounds (No * mn) (Z.to_nat (No * mn)))) as ->; [|done].
    unfold for_range. rewrite Z.sub_0_r.
    apply (for_loop_fault
      (fun (t : nat) (hd' : list (list Z)) =>
         six_rows (Z.to_nat (No * mn)) hd')
      _ (Z.to_nat mn)); [lia | done | |].
    + intros t hd1 Ht Hhd1.
      replace (0 + Z.of_nat t * 1) with (Z.of_nat t) by lia.
      destruct (lookup_lt_is_Some_2 es t) as [e He]; [lia|].
      rewrite (input_item_nat _ _ _ He), bind_Ok.
      apply store_six; [done | nia].
    + intros hd1 Hhd1.
      replace (0 + Z.of_nat (Z.to_nat mn) * 1) with mn by lia.
      destruct (lookup_lt_is_Some_2 es (Z.to_nat mn)) as [e He]; [lia|].
      rewrite (input_item_Z es mn e He), bind_Ok.
      replace ((No - 1) * mn + mn) with (No * mn) by lia.
      rewrite (proj2 (set2_six_rows (Z.to_nat (No * mn)) hd1 0 (No * mn)
                        (hop_nx e) Hhd1 ltac:(lia))) by nia.
      done.
Qed.

(** Lines 271-494 when the hopping lists cannot be stored. *)
Lemma build_lattice_model_read_fault (p : Parameters) (input : LatticeFile)
    (f : fault) :
  header_ok input ->
  length (file_cell input) = Z.to_nat (file_N_orbital input) ->
  read_hoppings (file_N_orbital input) (file_max_neighbor input)
    (file_hoppings input) = Fault f ->
  build_lattice_model p input = Fault f.
Proof.
  intros (Hc0 & Hc1 & Hc2 & Hp0 & Hp1 & Hp2 & Htd & Hpt & Ha0 & Ha1 & Ha2
          & HNo & Hmn) Hcells Hread.
  pose proof (cell_loop (file_N_orbital input) (file_cell input) Hcells)
    as Hcell.
  unfold build_lattice_model.
  rewrite (triple_eta (file_N_cell input)), (triple_eta (file_pbc input)),
    (triple_eta (file_lattice_constant input)).
  cbv beta iota.
  change (axis (file_N_cell input)) with (N_cell_at input).
  change (axis (file_pbc input)) with (pbc_at input).
  change (axis (file_lattice_constant input)) with (lattice_constant_at input).
  rewrite !fatal_if_false by (apply bool_decide_eq_false; lia).
  rewrite !(fatal_if_false (negb _))
    by (apply negb_false_iff; rewrite !orb_true_iff, !bool_decide_eq_true;
        lia).
  unfold pbc_at at 1 2 3. rewrite (get_axis (file_pbc input)), bind_Ok by lia.
  fold (pbc_at input (file_transport_direction input)). rewrite Hpt.
  rewrite (fatal_if_false (negb (bool_decide (1 = 1)))) by done.
  rewrite Ha0, Ha1, Ha2. rewrite !(fatal_if_false false) by done.
  rewrite box_length_loop, bind_Ok.
  destruct (get3 (r_mul (lattice_constant_at input 0)
                    (r_of_int (N_cell_at input 0)))
                 (r_mul (lattice_constant_at input 1)
                    (r_of_int (N_cell_at input 1)))
                 (r_mul (lattice_constant_at input 2)
                    (r_of_int (N_cell_at input 2)))) as (-> & -> & ->).
  rewrite !bind_Ok.
  rewrite !fatal_if_false by (apply bool_decide_eq_false; lia).
  rewrite fill_loop, bind_Ok by apply length_new_array.
  rewrite Hcell, bind_Ok. cbv beta iota.
  by rewrite Hread.
Qed.

(** X30. [number_of_hoppings[m]] is not checked against [max_neighbor].
    When the header of lattice.in passes its checks and the hopping list of
    the last orbital has more than [max_neighbor] entries, its entry
    [max_neighbor] is written to the column
    [N_orbital * max_neighbor] of [hopping_data], one past the end of its
    rows, and the run ends there whatever disorder is asked for. *)
Theorem hopping_list_overflow
    (p : Parameters) (input : LatticeFile) (g : generator)
    (es : list Hopping) :
  let No := file_N_orbital input in
  let mn := file_max_neighbor input in
  header_ok input ->
  length (file_cell input) = Z.to_nat No ->
  length (file_hoppings input) = Z.to_nat No ->
  Forall (fun l => Z.of_nat (length l) <= mn)
         (take (Z.to_nat (No - 1)) (file_hoppings input)) ->
  file_hoppings input !! Z.to_nat (No - 1) = Some es ->
  mn < Z.of_nat (length es) ->
  build_lattice_model p input
  = Fault (OutOfBounds (No * mn) (Z.to_nat (No * mn)))
  /\ initialize_lattice_model p input g
     = Fault (OutOfBounds (No * mn) (Z.to_nat (No * mn))).
Proof.
  intros No mn Hheader Hcells Hhops Hshort Hlast Hlong.
  assert (build_lattice_model p input
          = Fault (OutOfBounds (No * mn) (Z.to_nat (No * mn)))) as Hbuild.
  { apply build_lattice_model_read_fault; [done..|].
    pose proof Hheader as (_ & _ & _ & _ & _ & _ & _ & _ & _ & _ & _
                           & HNo & Hmn).
    by apply (read_hoppings_overflow No mn (file_hoppings input) es). }
  split; [done|]. unfold initialize_lattice_model. by rewrite Hbuild.
Qed.

End Overflow.

(** The two hops of [ribbon_3x2] with [max_neighbor = 1]. *)
Lemma hopping_list_overflow_witness :
  initialize_lattice_model no_disorder crowded_ribbon (7 : generator)
  = Fault (OutOfBounds 1 1).
Proof.
  refine (proj2 (hopping_list_overflow (H0 := lcg_machine)
                   no_disorder crowded_ribbon 7
                   (default [] (file_hoppings crowded_ribbon !! 0%nat))
                   _ _ _ _ _ _)).
  - apply (bool_decide_unpack _). vm_compute. reflexivity.
  - reflexivity.
  - reflexivity.
  - apply Forall_nil_2.
  - reflexivity.
  - vm_compute. reflexivity.
Defined.
